(** * Verification of the OpenCollective transaction analysis

    A shallow embedding of [src/lib/analysis.ts] (and of its sibling variant
    that carries the "OC Fees" rule) together with the properties that the
    specification states about the derived financial reports.

    Conventions of the embedding:
    - a JavaScript [number] is an IEEE 754 binary64 value, modelled by
      [spec_float] with the operations of [SpecFloat] at precision 53 and
      maximal exponent 1024;
    - a JavaScript [Map] keyed by strings is an association list kept in
      insertion order, which is the order [Map.prototype.entries] yields;
    - a [for ... of] loop over the transactions is a [fold_left] of its body;
    - [Array.prototype.sort] is a stable sort driven by the sign of the
      comparator's result;
    - what the host environment decides (date parsing in local time, case
      mapping, collation) is a parameter of the development, class [Host]. *)

From Stdlib Require Import ZArith List Bool Ascii String Lia Permutation Sorted.
From Stdlib Require Import Floats.SpecFloat.
From Stdlib Require Import DecimalString.
From Stdlib Require DecimalZ.
Import ListNotations.

Set Implicit Arguments.
Local Open Scope string_scope.
Local Open Scope list_scope.
Local Open Scope Z_scope.

(** ** JavaScript numbers *)

Module JS.

Definition number : Type := spec_float.

Definition prec : Z := 53.
Definition emax : Z := 1024.

Definition NaN : number := S754_nan.
Definition Infinity : number := S754_infinity false.
Definition NegInfinity : number := S754_infinity true.

(** [ofZ n] is the double nearest to the integer [n] (exactly [n] whenever
    [|n| <= 2^53]); [dyadic m e] is the double nearest to [m * 2^e]. *)
Definition dyadic (m e : Z) : number := binary_normalize prec emax m e false.
Definition ofZ (n : Z) : number := dyadic n 0.

Definition add : number -> number -> number := SFadd prec emax.
Definition sub : number -> number -> number := SFsub prec emax.
Definition mul : number -> number -> number := SFmul prec emax.
Definition div : number -> number -> number := SFdiv prec emax.

(** Relational operators: every comparison with [NaN] is false. *)
Definition lt (x y : number) : bool := SFltb x y.
Definition gt (x y : number) : bool := SFltb y x.
Definition ge (x y : number) : bool := SFleb y x.

(** [Boolean(x)] for a number: false for [+0], [-0] and [NaN]. *)
Definition truthy (x : number) : bool :=
  match x with
  | S754_zero _ | S754_nan => false
  | _ => true
  end.

(** [Number.isInteger(x)] *)
Definition isInteger (x : number) : bool :=
  match x with
  | S754_zero _ => true
  | S754_finite _ m e => (0 <=? e) || (Z.pos m mod 2 ^ (- e) =? 0)
  | _ => false
  end.

Definition signed (s : bool) (m : positive) : Z :=
  if s then Z.neg m else Z.pos m.

(** The integer [n] as a double, a zero result keeping the sign [s] of the
    argument it was rounded from. *)
Definition integral (s : bool) (n : Z) : number :=
  match n with
  | Z0 => S754_zero s
  | _ => ofZ n
  end.

Module Math.

Definition abs : number -> number := SFabs.

(** [Math.floor]: the greatest integral double not above [x]. *)
Definition floor (x : number) : number :=
  match x with
  | S754_finite s m e =>
      if 0 <=? e then x
      else integral s (signed s m / 2 ^ (- e))
  | _ => x
  end.

(** [Math.round]: the integral double closest to [x]; of two equally close
    ones the one nearer to +Infinity, that is [floor (x + 1/2)] computed
    without intermediate rounding.  A result of zero is [-0] when [x] is
    negative. *)
Definition round (x : number) : number :=
  match x with
  | S754_finite s m e =>
      if 0 <=? e then x
      else integral s ((2 * signed s m + 2 ^ (- e)) / 2 ^ (1 - e))
  | _ => x
  end.

End Math.

End JS.

(** [Math.round(x * 100) / 100], the rounding every aggregate goes through. *)
Definition round2 (x : JS.number) : JS.number :=
  JS.div (JS.Math.round (JS.mul x (JS.ofZ 100))) (JS.ofZ 100).

(** [Math.round(x * 10) / 10], the rounding of the percentages. *)
Definition round1 (x : JS.number) : JS.number :=
  JS.div (JS.Math.round (JS.mul x (JS.ofZ 10))) (JS.ofZ 10).

(** ** JavaScript strings

    Strings are sequences of code units; the operations below are the ones
    the analysis applies to them. *)

Module Str.

(** [hay.includes(needle)] *)
Fixpoint includes (needle hay : string) : bool :=
  String.prefix needle hay ||
  match hay with
  | EmptyString => false
  | String _ rest => includes needle rest
  end.

(** [s.startsWith(p)] *)
Definition startsWith (p s : string) : bool := String.prefix p s.

(** [a || b] on strings: the empty string is falsy. *)
Definition orElse (a b : string) : string :=
  match a with
  | EmptyString => b
  | _ => a
  end.

(** [s.split(sep)] for a separator of one code unit; never empty. *)
Fixpoint split (sep : ascii) (s : string) : list string :=
  match s with
  | EmptyString => [EmptyString]
  | String c rest =>
      if Ascii.eqb c sep then EmptyString :: split sep rest
      else match split sep rest with
           | piece :: pieces => String c piece :: pieces
           | [] => [String c EmptyString]
           end
  end.

(** [s.split(sep)] for a separator of one code unit or more; never empty.
    [skip] counts the code units of a separator just found that are still
    to be passed over. *)
Fixpoint splitFrom (sep : string) (skip : nat) (s : string) : list string :=
  match s with
  | EmptyString => [EmptyString]
  | String c rest =>
      match skip with
      | S k => splitFrom sep k rest
      | O =>
          if String.prefix sep s
          then EmptyString :: splitFrom sep (String.length sep - 1) rest
          else match splitFrom sep O rest with
               | piece :: pieces => String c piece :: pieces
               | [] => [String c EmptyString]
               end
      end
  end.

Definition splitOn (sep : string) (s : string) : list string := splitFrom sep 0 s.

(** [s.padStart(2, "0")] *)
Definition padStart2 (s : string) : string :=
  match s with
  | EmptyString => "00"
  | String c EmptyString => String "0" s
  | _ => s
  end.

(** [String(n)] for an integral number [n]. *)
Definition ofInteger (n : Z) : string := NilZero.string_of_int (Z.to_int n).

Definition isDigit (c : ascii) : bool :=
  let n := nat_of_ascii c in (48 <=? n)%nat && (n <=? 57)%nat.

Fixpoint digitsValue (acc : Z) (s : string) : option Z :=
  match s with
  | EmptyString => Some acc
  | String c rest =>
      if isDigit c then digitsValue (10 * acc + (Z.of_nat (nat_of_ascii c) - 48)) rest
      else None
  end.

(** [Number(s)] on the pieces a month key splits into at ["-"]: the empty
    string is [0], a run of decimal digits is its value, and ["NaN"], like any
    other text that is no numeral, is [NaN].  Signs, fractions, exponents,
    radix prefixes and surrounding white space cannot occur in such a piece
    and are not interpreted. *)
Definition toNumber (s : string) : JS.number :=
  match digitsValue 0 s with
  | Some n => JS.ofZ n
  | None => JS.NaN
  end.

End Str.

(** ** The host environment

    [localDate s] is what [new Date(s)] denotes in the local time zone: the
    pair of [getFullYear()] and [getMonth()], or [None] for an invalid date.
    [toLowerCase] is [String.prototype.toLowerCase] and [localeCompare a b]
    the sign-carrying result of [a.localeCompare(b)]. *)
Class Host : Type := {
  localDate : string -> option (Z * Z);
  toLowerCase : string -> string;
  localeCompare : string -> string -> Z
}.

(** ** Transactions: the fields of a ledger row that the analysis reads *)

Inductive Direction : Type := CREDIT | DEBIT.

Definition Direction_eqb (a b : Direction) : bool :=
  match a, b with
  | CREDIT, CREDIT | DEBIT, DEBIT => true
  | _, _ => false
  end.

(** A value of the schema's [string | number] union. *)
Inductive StringOrNumber : Type :=
| Text (s : string)
| Num (n : JS.number).

Record Transaction : Type := {
  EffectiveDateTime : string;
  Description : string;
  CreditDebit : Direction;
  Kind : string;
  AmountSingleColumn : JS.number;
  IsReverse : option string;
  IsReversed : option string;
  ReverseTransactionID : option StringOrNumber;
  OppositeAccountHandle : string;
  OppositeAccountName : string;
  AccountingCategoryName : option string
}.

(** ** [Map<string, V>] in insertion order *)

Section StringMap.
Variable V : Type.

Definition smap : Type := list (string * V).

Fixpoint map_get (k : string) (m : smap) : option V :=
  match m with
  | [] => None
  | (k', v) :: rest => if String.eqb k k' then Some v else map_get k rest
  end.

(** An existing key keeps its position, a new key goes last. *)
Fixpoint map_set (k : string) (v : V) (m : smap) : smap :=
  match m with
  | [] => [(k, v)]
  | (k', v') :: rest =>
      if String.eqb k k' then (k, v) :: rest else (k', v') :: map_set k v rest
  end.

(** [map.get(k) ?? init] *)
Definition map_getOr (k : string) (init : V) (m : smap) : V :=
  match map_get k m with
  | Some v => v
  | None => init
  end.
End StringMap.

(** ** [Array.prototype.sort], [slice] *)

Section Sort.
Variable A : Type.
(** [after a b] holds when the comparator called on [(a, b)] is positive,
    so that [a] has to come after [b]. *)
Variable after : A -> A -> bool.

Fixpoint insert (x : A) (l : list A) : list A :=
  match l with
  | [] => [x]
  | y :: rest => if after x y then y :: insert x rest else x :: l
  end.

(** Stable: an element moves only past those it has to come after. *)
Definition sort (l : list A) : list A := fold_right insert [] l.
End Sort.

Section Slice.
Variable A : Type.

(** The index an argument of [slice] denotes in an array of length [len]. *)
Definition relativeIndex (len i : Z) : nat :=
  Z.to_nat (if i <? 0 then Z.max (len + i) 0 else Z.min i len).

(** [l.slice(start)] *)
Definition sliceFrom (start : Z) (l : list A) : list A :=
  skipn (relativeIndex (Z.of_nat (List.length l)) start) l.

(** [l.slice(0, stop)] *)
Definition sliceTo (stop : Z) (l : list A) : list A :=
  firstn (relativeIndex (Z.of_nat (List.length l)) stop) l.
End Slice.

(** ** Report structures *)

Module MonthlyData.
Record t : Type := { month : string; income : JS.number; expenses : JS.number; net : JS.number }.
End MonthlyData.

Module SourceBreakdown.
Record t : Type := { source : string; amount : JS.number; count : Z }.
End SourceBreakdown.

Module ExpenseBreakdown.
Record t : Type := { recipient : string; amount : JS.number; count : Z }.
End ExpenseBreakdown.

Module ContributorAnalysis.
Record side : Type :=
  { amount : JS.number; count : Z; contributors : list SourceBreakdown.t }.
Record t : Type := { recurring : side; oneTime : side }.
End ContributorAnalysis.

Module MonthlyContributions.
Record t : Type := { month : string; recurring : JS.number; oneTime : JS.number }.
End MonthlyContributions.

Module SalaryAnalysis.
Record t : Type := {
  recipient : string;
  totalPaid : JS.number;
  monthlyAverage : JS.number;
  paymentCount : Z;
  firstPayment : string;
  lastPayment : string;
  description : string
}.
End SalaryAnalysis.

Module RunwayProjection.
Record t : Type := {
  currentBalance : JS.number;
  averageMonthlyExpenses : JS.number;
  averageMonthlyIncome : JS.number;
  averageMonthlyNet : JS.number;
  monthsOfRunway : JS.number;
  requiredMonthlyContribution : JS.number
}.
End RunwayProjection.

Module SingleContribution.
Record t : Type := {
  date : string;
  source : string;
  amount : JS.number;
  description : string;
  isRecurring : bool
}.
End SingleContribution.

Module SalaryPercentage.
Record t : Type := {
  monthlySalaryExpenses : JS.number;
  avgMonthlyIncome : JS.number;
  avgMonthlyRecurringIncome : JS.number;
  percentageOfTotalIncome : JS.number;
  percentageOfRecurringIncome : JS.number
}.
End SalaryPercentage.

Module AmountCount.
Record t : Type := { amount : JS.number; count : Z }.
End AmountCount.

Module IncomeSourcesAnalysis.
Record t : Type := {
  githubSponsors : AmountCount.t;
  ocRecurring : AmountCount.t;
  ocOneTime : AmountCount.t;
  other : AmountCount.t;
  total : JS.number
}.
End IncomeSourcesAnalysis.

Module NamedAmount.
Record t : Type := { name : string; amount : JS.number }.
End NamedAmount.

Module MonthlyIncomeData.
Record t : Type := {
  month : string;
  githubSponsors : JS.number;
  ocRecurring : JS.number;
  ocOneTime : JS.number;
  other : JS.number;
  topRecurring : list NamedAmount.t;
  topOneTime : list NamedAmount.t
}.
End MonthlyIncomeData.

Module OtherIncomeBreakdown.
Record t : Type := { kind : string; source : string; amount : JS.number; count : Z }.
End OtherIncomeBreakdown.

(** The values the loops keep per key. *)

Module Flow.
Record t : Type := { income : JS.number; expenses : JS.number }.
End Flow.

Module Tally.
Record t : Type := { amount : JS.number; count : Z }.
End Tally.

Module Split.
Record t : Type := { recurring : JS.number; oneTime : JS.number }.
End Split.

Module Payroll.
Record t : Type := {
  total : JS.number;
  paymentCount : Z;
  earliestMonth : string;
  latestMonth : string;
  description : string
}.
End Payroll.

Module MonthIncome.
Record t : Type := {
  githubSponsors : JS.number;
  ocRecurring : JS.number;
  ocOneTime : JS.number;
  other : JS.number;
  recurringContribs : smap JS.number;
  oneTimeContribs : smap JS.number
}.
End MonthIncome.

Module OtherTally.
Record t : Type := { amount : JS.number; count : Z; source : string }.
End OtherTally.

Definition zero : JS.number := JS.ofZ 0.

(** The template literal of [getYearMonth] for a valid date:
    [`${fullYear}-${String(monthIndex + 1).padStart(2, "0")}`]. *)
Definition monthKey (fullYear monthIndex : Z) : string :=
  String.append (Str.ofInteger fullYear)
    (String.append "-" (Str.padStart2 (Str.ofInteger (monthIndex + 1)))).

(** ** The analysis functions of [src/lib/analysis.ts] *)

Section Analysis.
Context {host : Host}.

Definition getYearMonth (dateString : string) : string :=
  match localDate dateString with
  | Some (fullYear, monthIndex) => monthKey fullYear monthIndex
  | None => "NaN-NaN"
  end.

(** [flag === "true"] *)
Definition isTrue (flag : option string) : bool :=
  match flag with
  | Some s => String.eqb s "true"
  | None => false
  end.

(** [Boolean(v)] for a nullable [string | number]. *)
Definition Boolean (v : option StringOrNumber) : bool :=
  match v with
  | None => false
  | Some (Text s) => negb (String.eqb s "")
  | Some (Num n) => JS.truthy n
  end.

Definition isReversedOrReverse (tx : Transaction) : bool :=
  isTrue (IsReverse tx) || isTrue (IsReversed tx) || Boolean (ReverseTransactionID tx).

(** [tx["Opposite Account Name"] || tx["Opposite Account Handle"] || "Unknown"] *)
Definition counterparty (tx : Transaction) : string :=
  Str.orElse (Str.orElse (OppositeAccountName tx) (OppositeAccountHandle tx)) "Unknown".

Definition isRecurringContribution (tx : Transaction) : bool :=
  Str.includes "monthly contribution" (toLowerCase (Description tx)).

(** *** calculateMonthlyData *)

Definition monthlyStep (monthlyMap : smap Flow.t) (tx : Transaction) : smap Flow.t :=
  if isReversedOrReverse tx then monthlyMap
  else
    let month := getYearMonth (EffectiveDateTime tx) in
    let current := map_getOr month (Flow.Build_t zero zero) monthlyMap in
    let current :=
      match CreditDebit tx with
      | CREDIT =>
          Flow.Build_t (JS.add (Flow.income current) (AmountSingleColumn tx))
                       (Flow.expenses current)
      | DEBIT =>
          Flow.Build_t (Flow.income current)
                       (JS.add (Flow.expenses current) (JS.Math.abs (AmountSingleColumn tx)))
      end in
    map_set month current monthlyMap.

Definition monthlyRow (entry : string * Flow.t) : MonthlyData.t :=
  let '(month, data) := entry in
  {| MonthlyData.month := month;
     MonthlyData.income := round2 (Flow.income data);
     MonthlyData.expenses := round2 (Flow.expenses data);
     MonthlyData.net := round2 (JS.sub (Flow.income data) (Flow.expenses data)) |}.

(** [(a, b) => a.month.localeCompare(b.month)] is positive. *)
Definition afterMonth (a b : string) : bool := 0 <? localeCompare a b.

Definition calculateMonthlyData (transactions : list Transaction) : list MonthlyData.t :=
  sort (fun a b => afterMonth (MonthlyData.month a) (MonthlyData.month b))
       (map monthlyRow (fold_left monthlyStep transactions [])).

(** *** Breakdown by a key *)

(** [(a, b) => b.amount - a.amount] is positive. *)
Definition afterAmount (a b : JS.number) : bool := JS.gt (JS.sub b a) zero.

Definition breakdownRow (entry : string * Tally.t) : SourceBreakdown.t :=
  let '(source, data) := entry in
  {| SourceBreakdown.source := source;
     SourceBreakdown.amount := round2 (Tally.amount data);
     SourceBreakdown.count := Tally.count data |}.

Definition toBreakdown (m : smap Tally.t) : list SourceBreakdown.t :=
  sort (fun a b => afterAmount (SourceBreakdown.amount a) (SourceBreakdown.amount b))
       (map breakdownRow m).

(** The loop body shared by the breakdowns: add [value] to the tally of [key]. *)
Definition tallyInto (key : string) (value : JS.number) (m : smap Tally.t) : smap Tally.t :=
  let current := map_getOr key (Tally.Build_t zero 0) m in
  map_set key (Tally.Build_t (JS.add (Tally.amount current) value) (Tally.count current + 1)) m.

(** *** analyzeIncomeSources *)

Definition incomeStep (sourceMap : smap Tally.t) (tx : Transaction) : smap Tally.t :=
  if isReversedOrReverse tx then sourceMap
  else if negb (Direction_eqb (CreditDebit tx) CREDIT) then sourceMap
  else tallyInto (counterparty tx) (AmountSingleColumn tx) sourceMap.

Definition analyzeIncomeSources (transactions : list Transaction) : list SourceBreakdown.t :=
  toBreakdown (fold_left incomeStep transactions []).

(** *** analyzeExpenses *)

Definition expenseStep (expenseMap : smap Tally.t) (tx : Transaction) : smap Tally.t :=
  if isReversedOrReverse tx then expenseMap
  else if negb (Direction_eqb (CreditDebit tx) DEBIT) then expenseMap
  else tallyInto (counterparty tx) (JS.Math.abs (AmountSingleColumn tx)) expenseMap.

Definition expenseRow (entry : string * Tally.t) : ExpenseBreakdown.t :=
  let '(recipient, data) := entry in
  {| ExpenseBreakdown.recipient := recipient;
     ExpenseBreakdown.amount := round2 (Tally.amount data);
     ExpenseBreakdown.count := Tally.count data |}.

Definition analyzeExpenses (transactions : list Transaction) : list ExpenseBreakdown.t :=
  sort (fun a b => afterAmount (ExpenseBreakdown.amount a) (ExpenseBreakdown.amount b))
       (map expenseRow (fold_left expenseStep transactions [])).

(** *** analyzeExpensesByCategory *)

(** [(tx["Accounting Category Name"] ?? tx["Kind"]) || "Uncategorized"] *)
Definition effectiveCategory (tx : Transaction) : string :=
  Str.orElse
    (match AccountingCategoryName tx with
     | Some name => name
     | None => Kind tx
     end)
    "Uncategorized".

Definition expenseCategory (tx : Transaction) : string :=
  let category := effectiveCategory tx in
  let description := toLowerCase (Description tx) in
  if Str.startsWith "Consultants" category
     || Str.includes "core maintainer stipend" description
  then "Paid Maintainers"
  else if Str.startsWith "Grants" category
          || Str.startsWith "Other, Support & Commu" category
          || Str.includes "community award" description
  then "Community Incentives"
  else if String.eqb category "EXPENSE"
          || String.eqb category "CONTRIBUTION"
          || Str.startsWith "Expenses - Donation" category
          || Str.startsWith "Expenses - Travel" category
          || Str.startsWith "Contributions - Hosted" category
  then "Miscellaneous"
  else category.

Definition categoryStep (categoryMap : smap Tally.t) (tx : Transaction) : smap Tally.t :=
  if isReversedOrReverse tx then categoryMap
  else if negb (Direction_eqb (CreditDebit tx) DEBIT) then categoryMap
  else tallyInto (expenseCategory tx) (JS.Math.abs (AmountSingleColumn tx)) categoryMap.

Definition analyzeExpensesByCategory (transactions : list Transaction) : list SourceBreakdown.t :=
  toBreakdown (fold_left categoryStep transactions []).

(** *** analyzeContributions *)

Definition contributionStep (maps : smap Tally.t * smap Tally.t) (tx : Transaction)
  : smap Tally.t * smap Tally.t :=
  let '(recurringMap, oneTimeMap) := maps in
  if isReversedOrReverse tx then maps
  else if negb (Direction_eqb (CreditDebit tx) CREDIT) then maps
  else if negb (String.eqb (Kind tx) "CONTRIBUTION") then maps
  else
    let source := counterparty tx in
    if isRecurringContribution tx
    then (tallyInto source (AmountSingleColumn tx) recurringMap, oneTimeMap)
    else (recurringMap, tallyInto source (AmountSingleColumn tx) oneTimeMap).

(** [list.reduce((sum, c) => sum + c.amount, 0)] and the same for [count]. *)
Definition sumAmount (l : list SourceBreakdown.t) : JS.number :=
  fold_left (fun sum c => JS.add sum (SourceBreakdown.amount c)) l zero.

Definition sumCount (l : list SourceBreakdown.t) : Z :=
  fold_left (fun sum c => sum + SourceBreakdown.count c) l 0.

Definition rollUp (l : list SourceBreakdown.t) : ContributorAnalysis.side :=
  {| ContributorAnalysis.amount := round2 (sumAmount l);
     ContributorAnalysis.count := sumCount l;
     ContributorAnalysis.contributors := l |}.

Definition analyzeContributions (transactions : list Transaction) : ContributorAnalysis.t :=
  let '(recurringMap, oneTimeMap) := fold_left contributionStep transactions ([], []) in
  let recurringList := toBreakdown recurringMap in
  let oneTimeList := toBreakdown oneTimeMap in
  {| ContributorAnalysis.recurring := rollUp recurringList;
     ContributorAnalysis.oneTime := rollUp oneTimeList |}.

(** *** analyzeMonthlyRecurringContributions *)

Definition recurringStep (monthlyMap : smap Split.t) (tx : Transaction) : smap Split.t :=
  if isReversedOrReverse tx then monthlyMap
  else if negb (Direction_eqb (CreditDebit tx) CREDIT) then monthlyMap
  else if negb (String.eqb (Kind tx) "CONTRIBUTION") then monthlyMap
  else
    let month := getYearMonth (EffectiveDateTime tx) in
    let current := map_getOr month (Split.Build_t zero zero) monthlyMap in
    let current :=
      if isRecurringContribution tx
      then Split.Build_t (JS.add (Split.recurring current) (AmountSingleColumn tx))
                         (Split.oneTime current)
      else Split.Build_t (Split.recurring current)
                         (JS.add (Split.oneTime current) (AmountSingleColumn tx)) in
    map_set month current monthlyMap.

Definition recurringRow (entry : string * Split.t) : MonthlyContributions.t :=
  let '(month, data) := entry in
  {| MonthlyContributions.month := month;
     MonthlyContributions.recurring := round2 (Split.recurring data);
     MonthlyContributions.oneTime := round2 (Split.oneTime data) |}.

Definition analyzeMonthlyRecurringContributions (transactions : list Transaction)
  : list MonthlyContributions.t :=
  sort (fun a b => afterMonth (MonthlyContributions.month a) (MonthlyContributions.month b))
       (map recurringRow (fold_left recurringStep transactions [])).

(** *** analyzeSalariedExpenses *)

(** A destructured element the array does not have is [undefined], which
    arithmetic reads as [NaN]. *)
Definition monthsBetween (earliest latest : string) : JS.number :=
  let early := map Str.toNumber (Str.split "-" earliest) in
  let late := map Str.toNumber (Str.split "-" latest) in
  let earliestYear := nth 0 early JS.NaN in
  let earliestMonth := nth 1 early JS.NaN in
  let latestYear := nth 0 late JS.NaN in
  let latestMonth := nth 1 late JS.NaN in
  JS.add
    (JS.add (JS.mul (JS.sub latestYear earliestYear) (JS.ofZ 12))
            (JS.sub latestMonth earliestMonth))
    (JS.ofZ 1).

Definition salaryKeywords : list string :=
  ["stipend"; "salary"; "maintainer"; "contractor"; "developer"].

Definition isSalaryLike (tx : Transaction) : bool :=
  let descLower := toLowerCase (Description tx) in
  let categoryLower :=
    toLowerCase (match AccountingCategoryName tx with
                 | Some name => Str.orElse name ""
                 | None => ""
                 end) in
  existsb (fun kw => Str.includes kw descLower) salaryKeywords
  || Str.includes "consultant" categoryLower
  || Str.includes "maintenance" categoryLower.

Definition salaryStep (recipientMap : smap Payroll.t) (tx : Transaction) : smap Payroll.t :=
  if isReversedOrReverse tx then recipientMap
  else if negb (Direction_eqb (CreditDebit tx) DEBIT) then recipientMap
  else if negb (String.eqb (Kind tx) "EXPENSE") then recipientMap
  else if negb (isSalaryLike tx) then recipientMap
  else
    let recipient := counterparty tx in
    let month := getYearMonth (EffectiveDateTime tx) in
    let current :=
      map_getOr recipient (Payroll.Build_t zero 0 month month (Description tx)) recipientMap in
    let total := JS.add (Payroll.total current) (JS.Math.abs (AmountSingleColumn tx)) in
    let paymentCount := Payroll.paymentCount current + 1 in
    let earliestMonth :=
      if String.ltb month (Payroll.earliestMonth current) then month
      else Payroll.earliestMonth current in
    let latestMonth :=
      if String.ltb (Payroll.latestMonth current) month then month
      else Payroll.latestMonth current in
    map_set recipient
      (Payroll.Build_t total paymentCount earliestMonth latestMonth (Payroll.description current))
      recipientMap.

Definition salaryRow (entry : string * Payroll.t) : SalaryAnalysis.t :=
  let '(recipient, data) := entry in
  let monthSpan := monthsBetween (Payroll.earliestMonth data) (Payroll.latestMonth data) in
  {| SalaryAnalysis.recipient := recipient;
     SalaryAnalysis.totalPaid := round2 (Payroll.total data);
     SalaryAnalysis.monthlyAverage := round2 (JS.div (Payroll.total data) monthSpan);
     SalaryAnalysis.paymentCount := Payroll.paymentCount data;
     SalaryAnalysis.firstPayment := Payroll.earliestMonth data;
     SalaryAnalysis.lastPayment := Payroll.latestMonth data;
     SalaryAnalysis.description := Payroll.description data |}.

Definition analyzeSalariedExpenses (transactions : list Transaction) : list SalaryAnalysis.t :=
  sort (fun a b => afterAmount (SalaryAnalysis.totalPaid a) (SalaryAnalysis.totalPaid b))
       (map salaryRow (fold_left salaryStep transactions [])).

(** *** calculateRunwayProjection *)

(** [months.reduce((sum, m) => sum + field(m), 0)] *)
Definition sumOver (field : MonthlyData.t -> JS.number) (months : list MonthlyData.t)
  : JS.number :=
  fold_left (fun sum m => JS.add sum (field m)) months zero.

(** [months.reduce((sum, m) => sum + field(m), 0) / months.length] *)
Definition averageOver (field : MonthlyData.t -> JS.number) (months : list MonthlyData.t)
  : JS.number :=
  JS.div (sumOver field months) (JS.ofZ (Z.of_nat (List.length months))).

(** The local constants of the function, before the final rounding. *)
Definition recentMonths (transactions : list Transaction) (monthsToAverage : Z)
  : list MonthlyData.t :=
  sliceFrom (- monthsToAverage) (calculateMonthlyData transactions).

Definition currentBalance (transactions : list Transaction) : JS.number :=
  sumOver MonthlyData.net (calculateMonthlyData transactions).

Definition averageMonthlyExpenses (transactions : list Transaction) (monthsToAverage : Z)
  : JS.number :=
  averageOver MonthlyData.expenses (recentMonths transactions monthsToAverage).

Definition averageMonthlyIncome (transactions : list Transaction) (monthsToAverage : Z)
  : JS.number :=
  averageOver MonthlyData.income (recentMonths transactions monthsToAverage).

Definition averageMonthlyNet (transactions : list Transaction) (monthsToAverage : Z)
  : JS.number :=
  JS.sub (averageMonthlyIncome transactions monthsToAverage)
         (averageMonthlyExpenses transactions monthsToAverage).

Definition calculateRunwayProjection (transactions : list Transaction) (monthsToAverage : Z)
  : RunwayProjection.t :=
  let balance := currentBalance transactions in
  let avgExpenses := averageMonthlyExpenses transactions monthsToAverage in
  let avgIncome := averageMonthlyIncome transactions monthsToAverage in
  let avgNet := averageMonthlyNet transactions monthsToAverage in
  let monthsOfRunway :=
    if JS.ge avgNet zero then JS.Infinity
    else JS.Math.floor (JS.div balance (JS.Math.abs avgNet)) in
  let requiredMonthlyContribution :=
    if JS.gt avgExpenses avgIncome then JS.sub avgExpenses avgIncome else zero in
  {| RunwayProjection.currentBalance := round2 balance;
     RunwayProjection.averageMonthlyExpenses := round2 avgExpenses;
     RunwayProjection.averageMonthlyIncome := round2 avgIncome;
     RunwayProjection.averageMonthlyNet := round2 avgNet;
     RunwayProjection.monthsOfRunway := monthsOfRunway;
     RunwayProjection.requiredMonthlyContribution := round2 requiredMonthlyContribution |}.

(** The default of the parameter [monthsToAverage]. *)
Definition defaultMonthsToAverage : Z := 6.

(** *** calculateSalaryPercentageOfIncome *)

Definition calculateSalaryPercentageOfIncome (transactions : list Transaction)
  : SalaryPercentage.t :=
  let salaries := analyzeSalariedExpenses transactions in
  let monthlyData := calculateMonthlyData transactions in
  let monthlyContributions := analyzeMonthlyRecurringContributions transactions in
  let recentMonths := sliceFrom (-6) monthlyData in
  let recentContributions := sliceFrom (-6) monthlyContributions in
  let avgMonthlyIncome :=
    JS.div (fold_left (fun sum m => JS.add sum (MonthlyData.income m)) recentMonths zero)
           (JS.ofZ (Z.of_nat (List.length recentMonths))) in
  let avgMonthlyRecurring :=
    JS.div (fold_left (fun sum m => JS.add sum (MonthlyContributions.recurring m))
                      recentContributions zero)
           (JS.ofZ (Z.of_nat (List.length recentContributions))) in
  let recurringSalaries :=
    filter (fun s => 1 <? SalaryAnalysis.paymentCount s) salaries in
  let monthlySalaryExpenses :=
    fold_left (fun sum s => JS.add sum (SalaryAnalysis.monthlyAverage s))
              recurringSalaries zero in
  let percentageOfTotalIncome :=
    if JS.gt avgMonthlyIncome zero
    then JS.mul (JS.div monthlySalaryExpenses avgMonthlyIncome) (JS.ofZ 100)
    else zero in
  let percentageOfRecurringIncome :=
    if JS.gt avgMonthlyRecurring zero
    then JS.mul (JS.div monthlySalaryExpenses avgMonthlyRecurring) (JS.ofZ 100)
    else zero in
  {| SalaryPercentage.monthlySalaryExpenses := round2 monthlySalaryExpenses;
     SalaryPercentage.avgMonthlyIncome := round2 avgMonthlyIncome;
     SalaryPercentage.avgMonthlyRecurringIncome := round2 avgMonthlyRecurring;
     SalaryPercentage.percentageOfTotalIncome := round1 percentageOfTotalIncome;
     SalaryPercentage.percentageOfRecurringIncome := round1 percentageOfRecurringIncome |}.

(** *** getTopContributors, getTopExpenses *)

(** The default of the parameter [limit] of the listings. *)
Definition defaultLimit : Z := 10.

Definition getTopContributors (transactions : list Transaction) (limit : Z)
  : list SourceBreakdown.t :=
  sliceTo limit (analyzeIncomeSources transactions).

Definition getTopExpenses (transactions : list Transaction) (limit : Z)
  : list ExpenseBreakdown.t :=
  sliceTo limit (analyzeExpenses transactions).

(** *** getLargestSingleContributions, getLargestOneTimeContributions *)

Definition contributionOf (tx : Transaction) : SingleContribution.t :=
  {| SingleContribution.date := hd "" (Str.split "T" (EffectiveDateTime tx));
     SingleContribution.source := counterparty tx;
     SingleContribution.amount := AmountSingleColumn tx;
     SingleContribution.description := Description tx;
     SingleContribution.isRecurring := isRecurringContribution tx |}.

Definition largestStep (contributions : list SingleContribution.t) (tx : Transaction)
  : list SingleContribution.t :=
  if isReversedOrReverse tx then contributions
  else if negb (Direction_eqb (CreditDebit tx) CREDIT) then contributions
  else contributions ++ [contributionOf tx].

Definition byAmountDescending (l : list SingleContribution.t) : list SingleContribution.t :=
  sort (fun a b => afterAmount (SingleContribution.amount a) (SingleContribution.amount b)) l.

Definition getLargestSingleContributions (transactions : list Transaction) (limit : Z)
  : list SingleContribution.t :=
  sliceTo limit (byAmountDescending (fold_left largestStep transactions [])).

Definition getLargestOneTimeContributions (transactions : list Transaction) (limit : Z)
  : list SingleContribution.t :=
  sliceTo limit
    (filter (fun c => negb (SingleContribution.isRecurring c))
            (getLargestSingleContributions transactions 1000)).

End Analysis.

(** ** The sibling variant of the analysis module

    The second source file repeats the functions above and differs, among
    them, in [analyzeExpensesByCategory] alone, which knows one more rule. *)

Module Full.
Section Analysis.
Context {host : Host}.

Definition expenseCategory (tx : Transaction) : string :=
  let category := effectiveCategory tx in
  let description := toLowerCase (Description tx) in
  if Str.startsWith "Consultants" category
     || Str.includes "core maintainer stipend" description
  then "Paid Maintainers"
  else if Str.startsWith "Grants" category
          || Str.startsWith "Other, Support & Commu" category
          || Str.includes "community award" description
  then "Community Incentives"
  else if String.eqb category "EXPENSE"
          || String.eqb category "CONTRIBUTION"
          || Str.startsWith "Expenses - Donation" category
          || Str.startsWith "Expenses - Travel" category
          || Str.startsWith "Contributions - Hosted" category
  then "Miscellaneous"
  else if String.eqb category "HOST_FEE"
  then "OC Fees"
  else category.

Definition categoryStep (categoryMap : smap Tally.t) (tx : Transaction) : smap Tally.t :=
  if isReversedOrReverse tx then categoryMap
  else if negb (Direction_eqb (CreditDebit tx) DEBIT) then categoryMap
  else tallyInto (expenseCategory tx) (JS.Math.abs (AmountSingleColumn tx)) categoryMap.

Definition analyzeExpensesByCategory (transactions : list Transaction) : list SourceBreakdown.t :=
  toBreakdown (fold_left categoryStep transactions []).

Definition analyzeContributions (transactions : list Transaction) : ContributorAnalysis.t :=
  let '(recurringMap, oneTimeMap) := fold_left contributionStep transactions ([], []) in
  let recurringList := toBreakdown recurringMap in
  let oneTimeList := toBreakdown oneTimeMap in
  {| ContributorAnalysis.recurring := rollUp recurringList;
     ContributorAnalysis.oneTime := rollUp oneTimeList |}.

(** *** categorizeIncome *)

(** [tx["Opposite Account Name"] || tx["Opposite Account Handle"] || ""] *)
Definition sourceOrEmpty (tx : Transaction) : string :=
  Str.orElse (Str.orElse (OppositeAccountName tx) (OppositeAccountHandle tx)) "".

(** [kind === "ADDED_FUNDS" && source.toLowerCase().includes("github")] *)
Definition isGithubSponsorship (kind source : string) : bool :=
  String.eqb kind "ADDED_FUNDS" && Str.includes "github" (toLowerCase source).

(** [slot.amount += amount; slot.count += 1] *)
Definition credit (slot : AmountCount.t) (amount : JS.number) : AmountCount.t :=
  {| AmountCount.amount := JS.add (AmountCount.amount slot) amount;
     AmountCount.count := AmountCount.count slot + 1 |}.

Definition categorizeStep (result : IncomeSourcesAnalysis.t) (tx : Transaction)
  : IncomeSourcesAnalysis.t :=
  if isReversedOrReverse tx then result
  else if negb (Direction_eqb (CreditDebit tx) CREDIT) then result
  else
    let amount := AmountSingleColumn tx in
    let kind := Kind tx in
    let source := sourceOrEmpty tx in
    let '(IncomeSourcesAnalysis.Build_t githubSponsors ocRecurring ocOneTime other total) :=
      result in
    let total := JS.add total amount in
    if isGithubSponsorship kind source
    then IncomeSourcesAnalysis.Build_t (credit githubSponsors amount) ocRecurring ocOneTime
                                       other total
    else if String.eqb kind "CONTRIBUTION"
    then if isRecurringContribution tx
         then IncomeSourcesAnalysis.Build_t githubSponsors (credit ocRecurring amount) ocOneTime
                                            other total
         else IncomeSourcesAnalysis.Build_t githubSponsors ocRecurring (credit ocOneTime amount)
                                            other total
    else IncomeSourcesAnalysis.Build_t githubSponsors ocRecurring ocOneTime
                                       (credit other amount) total.

(** [slot.amount = Math.round(slot.amount * 100) / 100] *)
Definition rounded (slot : AmountCount.t) : AmountCount.t :=
  {| AmountCount.amount := round2 (AmountCount.amount slot);
     AmountCount.count := AmountCount.count slot |}.

Definition categorizeIncome (transactions : list Transaction) : IncomeSourcesAnalysis.t :=
  let empty := AmountCount.Build_t zero 0 in
  let result :=
    fold_left categorizeStep transactions
              (IncomeSourcesAnalysis.Build_t empty empty empty empty zero) in
  {| IncomeSourcesAnalysis.githubSponsors :=
       rounded (IncomeSourcesAnalysis.githubSponsors result);
     IncomeSourcesAnalysis.ocRecurring := rounded (IncomeSourcesAnalysis.ocRecurring result);
     IncomeSourcesAnalysis.ocOneTime := rounded (IncomeSourcesAnalysis.ocOneTime result);
     IncomeSourcesAnalysis.other := rounded (IncomeSourcesAnalysis.other result);
     IncomeSourcesAnalysis.total := round2 (IncomeSourcesAnalysis.total result) |}.

(** *** categorizeMonthlyIncome *)

(** [contribs.set(source, (contribs.get(source) ?? 0) + amount)] *)
Definition contribute (source : string) (amount : JS.number) (contribs : smap JS.number)
  : smap JS.number :=
  map_set source (JS.add (map_getOr source zero contribs) amount) contribs.

Definition monthlyIncomeStep (monthlyMap : smap MonthIncome.t) (tx : Transaction)
  : smap MonthIncome.t :=
  if isReversedOrReverse tx then monthlyMap
  else if negb (Direction_eqb (CreditDebit tx) CREDIT) then monthlyMap
  else
    let month := getYearMonth (EffectiveDateTime tx) in
    let amount := AmountSingleColumn tx in
    let kind := Kind tx in
    let source := counterparty tx in
    let '(MonthIncome.Build_t githubSponsors ocRecurring ocOneTime other
                              recurringContribs oneTimeContribs) :=
      map_getOr month (MonthIncome.Build_t zero zero zero zero [] []) monthlyMap in
    let current :=
      if isGithubSponsorship kind source
      then MonthIncome.Build_t (JS.add githubSponsors amount) ocRecurring ocOneTime other
                               recurringContribs oneTimeContribs
      else if String.eqb kind "CONTRIBUTION"
      then if isRecurringContribution tx
           then MonthIncome.Build_t githubSponsors (JS.add ocRecurring amount) ocOneTime other
                                    (contribute source amount recurringContribs)
                                    oneTimeContribs
           else MonthIncome.Build_t githubSponsors ocRecurring (JS.add ocOneTime amount) other
                                    recurringContribs
                                    (contribute source amount oneTimeContribs)
      else MonthIncome.Build_t githubSponsors ocRecurring ocOneTime (JS.add other amount)
                               recurringContribs oneTimeContribs in
    map_set month current monthlyMap.

Definition namedAmount (entry : string * JS.number) : NamedAmount.t :=
  let '(name, amount) := entry in
  {| NamedAmount.name := name; NamedAmount.amount := round2 amount |}.

(** The local function [getTopContributors] of [categorizeMonthlyIncome]. *)
Definition monthTopContributors (contribs : smap JS.number) (limit : Z)
  : list NamedAmount.t :=
  sliceTo limit
    (sort (fun a b => afterAmount (NamedAmount.amount a) (NamedAmount.amount b))
          (map namedAmount contribs)).

(** The default of its parameter [limit]. *)
Definition defaultTopLimit : Z := 3.

Definition monthlyIncomeRow (entry : string * MonthIncome.t) : MonthlyIncomeData.t :=
  let '(month, data) := entry in
  {| MonthlyIncomeData.month := month;
     MonthlyIncomeData.githubSponsors := round2 (MonthIncome.githubSponsors data);
     MonthlyIncomeData.ocRecurring := round2 (MonthIncome.ocRecurring data);
     MonthlyIncomeData.ocOneTime := round2 (MonthIncome.ocOneTime data);
     MonthlyIncomeData.other := round2 (MonthIncome.other data);
     MonthlyIncomeData.topRecurring :=
       monthTopContributors (MonthIncome.recurringContribs data) defaultTopLimit;
     MonthlyIncomeData.topOneTime :=
       monthTopContributors (MonthIncome.oneTimeContribs data) defaultTopLimit |}.

Definition categorizeMonthlyIncome (transactions : list Transaction)
  : list MonthlyIncomeData.t :=
  sort (fun a b => afterMonth (MonthlyIncomeData.month a) (MonthlyIncomeData.month b))
       (map monthlyIncomeRow (fold_left monthlyIncomeStep transactions [])).

(** *** analyzeOtherIncome *)

(** The template literal [`${kind}::${source}`]. *)
Definition otherKey (kind source : string) : string :=
  String.append kind (String.append "::" source).

Definition otherStep (breakdownMap : smap OtherTally.t) (tx : Transaction)
  : smap OtherTally.t :=
  if isReversedOrReverse tx then breakdownMap
  else if negb (Direction_eqb (CreditDebit tx) CREDIT) then breakdownMap
  else
    let kind := Kind tx in
    let source := sourceOrEmpty tx in
    if isGithubSponsorship kind source then breakdownMap
    else if String.eqb kind "CONTRIBUTION" then breakdownMap
    else
      let key := otherKey kind source in
      let current := map_getOr key (OtherTally.Build_t zero 0 source) breakdownMap in
      map_set key
        (OtherTally.Build_t (JS.add (OtherTally.amount current) (AmountSingleColumn tx))
                            (OtherTally.count current + 1)
                            (OtherTally.source current))
        breakdownMap.

Definition otherRow (entry : string * OtherTally.t) : OtherIncomeBreakdown.t :=
  let '(key, data) := entry in
  {| OtherIncomeBreakdown.kind := hd "" (Str.splitOn "::" key);
     OtherIncomeBreakdown.source := OtherTally.source data;
     OtherIncomeBreakdown.amount := round2 (OtherTally.amount data);
     OtherIncomeBreakdown.count := OtherTally.count data |}.

Definition analyzeOtherIncome (transactions : list Transaction)
  : list OtherIncomeBreakdown.t :=
  sort (fun a b => afterAmount (OtherIncomeBreakdown.amount a) (OtherIncomeBreakdown.amount b))
       (map otherRow (fold_left otherStep transactions [])).

End Analysis.
End Full.

(** ** A concrete host and sample ledgers

    The host of the examples reads the calendar month off an ISO 8601
    timestamp ([YYYY-MM-...]), as an environment whose local time is UTC
    does, maps the letters [A-Z] to lower case and compares strings code unit
    by code unit. *)

Module Sample.

Definition isoLocalDate (s : string) : option (Z * Z) :=
  match Str.split "-" s with
  | year :: month :: _ =>
      match Str.digitsValue 0 year, Str.digitsValue 0 month with
      | Some y, Some m =>
          if (1 <=? m) && (m <=? 12) && negb (String.eqb year "") then Some (y, m - 1)
          else None
      | _, _ => None
      end
  | _ => None
  end.

Definition asciiLower (c : ascii) : ascii :=
  let n := nat_of_ascii c in
  if (65 <=? n)%nat && (n <=? 90)%nat then ascii_of_nat (n + 32) else c.

Fixpoint lower (s : string) : string :=
  match s with
  | EmptyString => EmptyString
  | String c rest => String (asciiLower c) (lower rest)
  end.

Definition codeUnitCompare (a b : string) : Z :=
  match String.compare a b with
  | Lt => -1
  | Eq => 0
  | Gt => 1
  end.

#[global] Instance host : Host :=
  {| localDate := isoLocalDate; toLowerCase := lower; localeCompare := codeUnitCompare |}.

(** A ledger row that is neither a reversal nor reversed. *)
Definition row (date description : string) (direction : Direction) (kind : string)
  (amount : JS.number) (name : string) (category : option string) : Transaction :=
  {| EffectiveDateTime := date;
     Description := description;
     CreditDebit := direction;
     Kind := kind;
     AmountSingleColumn := amount;
     IsReverse := None;
     IsReversed := None;
     ReverseTransactionID := None;
     OppositeAccountHandle := "";
     OppositeAccountName := name;
     AccountingCategoryName := category |}.

(** A credit of 0.125 and a debit of 0.0625 in one month. *)
Definition splitCents : list Transaction :=
  [ row "2024-01-10T12:00:00.000Z" "Donation" CREDIT "CONTRIBUTION"
        (JS.dyadic 1 (-3)) "Ada" None;
    row "2024-01-20T12:00:00.000Z" "Hosting invoice" DEBIT "EXPENSE"
        (JS.dyadic (-1) (-4)) "Host" None ].

(** A credit of 0.30 and a debit of 0.10 in one month, amounts in whole
    cents. *)
Definition thirtyCents : list Transaction :=
  [ row "2024-01-10T12:00:00.000Z" "Donation" CREDIT "CONTRIBUTION"
        (JS.div (JS.ofZ 3) (JS.ofZ 10)) "Ada" None;
    row "2024-01-20T12:00:00.000Z" "Hosting invoice" DEBIT "EXPENSE"
        (JS.div (JS.ofZ (-1)) (JS.ofZ 10)) "Host" None ].

(** A single debit of 0.125: the month's net is -0.125, half way between
    -0.13 and -0.12. *)
Definition negativeTie : list Transaction :=
  [ row "2024-02-15T12:00:00.000Z" "Hosting invoice" DEBIT "EXPENSE"
        (JS.dyadic (-1) (-3)) "Host" None ].

(** Two months that end 200 below zero, losing 100 a month on average. *)
Definition deficit : list Transaction :=
  [ row "2024-01-10T12:00:00.000Z" "Donation" CREDIT "CONTRIBUTION"
        (JS.ofZ 100) "Ada" None;
    row "2024-01-20T12:00:00.000Z" "Hosting invoice" DEBIT "EXPENSE"
        (JS.ofZ (-250)) "Host" None;
    row "2024-02-20T12:00:00.000Z" "Hosting invoice" DEBIT "EXPENSE"
        (JS.ofZ (-50)) "Host" None ].

(** A single debit of 2^1023, a finite double whose hundredfold is not. *)
Definition hugeDebit : list Transaction :=
  [ row "2024-03-15T12:00:00.000Z" "Hosting invoice" DEBIT "EXPENSE"
        (JS.dyadic (-1) 1023) "Host" None ].

Definition monthly (date name : string) (amount : Z) : Transaction :=
  row date "Monthly contribution from a backer" CREDIT "CONTRIBUTION"
      (JS.ofZ amount) name None.

Definition gift (date name : string) (amount : Z) : Transaction :=
  row date "Financial contribution to the collective" CREDIT "CONTRIBUTION"
      (JS.ofZ amount) name None.

(** Seven recurring contributions and three one-time ones, of which one
    alone ranks among the five largest of all. *)
Definition tenContributions : list Transaction :=
  [ monthly "2024-01-03T12:00:00.000Z" "Ada" 700;
    gift    "2024-01-05T12:00:00.000Z" "Grace" 450;
    monthly "2024-01-07T12:00:00.000Z" "Alan" 900;
    monthly "2024-01-09T12:00:00.000Z" "Edsger" 300;
    gift    "2024-01-11T12:00:00.000Z" "Barbara" 850;
    monthly "2024-01-13T12:00:00.000Z" "Donald" 600;
    monthly "2024-01-15T12:00:00.000Z" "Tony" 800;
    gift    "2024-01-17T12:00:00.000Z" "Leslie" 100;
    monthly "2024-01-19T12:00:00.000Z" "Robin" 500;
    monthly "2024-01-21T12:00:00.000Z" "Niklaus" 400 ].

(** One thousand recurring contributions of 2 and a one-time one of 1. *)
Definition crowded : list Transaction :=
  repeat (monthly "2024-01-03T12:00:00.000Z" "Ada" 2) 1000
  ++ [gift "2024-01-05T12:00:00.000Z" "Grace" 1].

(** A consultant's invoice whose description mentions a community award. *)
Definition consultantAward : Transaction :=
  row "2024-04-15T12:00:00.000Z" "Community Award for the docs sprint" DEBIT "EXPENSE"
      (JS.ofZ (-250)) "Grace" (Some "Consultants - Documentation").

(** A host fee, and a ledger without one. *)
Definition hostFee : Transaction :=
  row "2024-04-16T12:00:00.000Z" "Host fee" DEBIT "HOST_FEE" (JS.ofZ (-12)) "Host" None.

Definition aprilExpenses : list Transaction :=
  [ consultantAward;
    row "2024-04-18T12:00:00.000Z" "Travel to the conference" DEBIT "EXPENSE"
        (JS.ofZ (-400)) "Alan" (Some "Expenses - Travel");
    row "2024-04-20T12:00:00.000Z" "Domain renewal" DEBIT "EXPENSE"
        (JS.ofZ (-30)) "Registrar" (Some "Software & Hosting") ].

(** A maintainer paid 50 in January and 50 in March, and nothing in
    February. *)
Definition januaryAndMarch : list Transaction :=
  [ row "2024-01-15T12:00:00.000Z" "Core maintainer stipend" DEBIT "EXPENSE"
        (JS.ofZ (-50)) "Grace" None;
    row "2024-03-15T12:00:00.000Z" "Core maintainer stipend" DEBIT "EXPENSE"
        (JS.ofZ (-50)) "Grace" None ].

(** A stipend whose timestamp is no date. *)
Definition undated : list Transaction :=
  [ row "to be confirmed" "Core maintainer stipend" DEBIT "EXPENSE"
        (JS.ofZ (-50)) "Grace" None ].

(** A thousand received in January and a hundred spent in February. *)
Definition reserve : list Transaction :=
  [ row "2024-01-10T12:00:00.000Z" "Donation" CREDIT "CONTRIBUTION"
        (JS.ofZ 1000) "Ada" None;
    row "2024-02-20T12:00:00.000Z" "Hosting invoice" DEBIT "EXPENSE"
        (JS.ofZ (-100)) "Host" None ].

(** Added funds of two kinds, one of them from the same source twice. *)
Definition addedFunds : list Transaction :=
  [ row "2024-05-02T12:00:00.000Z" "Grant" CREDIT "ADDED_FUNDS"
        (JS.ofZ 500) "Foundation" None;
    row "2024-05-09T12:00:00.000Z" "Refund" CREDIT "EXPENSE"
        (JS.ofZ 20) "Registrar" None;
    row "2024-06-02T12:00:00.000Z" "Grant" CREDIT "ADDED_FUNDS"
        (JS.ofZ 700) "Foundation" None ].

(** An expense whose category name is the empty text. *)
Definition blankCategory : Transaction :=
  row "2024-04-22T12:00:00.000Z" "Stickers" DEBIT "EXPENSE"
      (JS.ofZ (-40)) "Printer" (Some "").

(** A maintainer paid 0.0078125 in January and 0.0009765625 in February:
    0.0087890625 over two months. *)
Definition fractionsOfACent : list Transaction :=
  [ row "2024-01-15T12:00:00.000Z" "Core maintainer stipend" DEBIT "EXPENSE"
        (JS.dyadic (-1) (-7)) "Grace" None;
    row "2024-02-15T12:00:00.000Z" "Core maintainer stipend" DEBIT "EXPENSE"
        (JS.dyadic (-1) (-10)) "Grace" None ].

End Sample.

(** * Vocabulary of the specification *)

(** ** Grouping by key *)

Section GroupBy.
Variables X V : Type.
Variable key : X -> string.
Variable init : X -> V.
Variable upd : V -> X -> V.

(** The loop body [current = map.get(k) ?? init; update current;
    map.set(k, current)]. *)
Definition upsert (m : smap V) (x : X) : smap V :=
  map_set (key x) (upd (map_getOr (key x) (init x) m) x) m.

Definition addKey (ks : list string) (k : string) : list string :=
  if existsb (String.eqb k) ks then ks else ks ++ [k].

(** The distinct keys of [l], in the order of their first occurrence. *)
Definition keysOf (l : list X) : list string := fold_left addKey (map key l) [].

(** The elements of [l] filed under [k], in the order of [l]. *)
Definition bucket (k : string) (l : list X) : list X :=
  filter (fun x => String.eqb (key x) k) l.

(** What the loop holds for a bucket: the update folded over it, starting
    from the initial value its first element sets up. *)
Definition foldFrom (d : V) (b : list X) : V :=
  match b with
  | [] => d
  | x :: _ => fold_left upd b (init x)
  end.

(** The map [k1 -> g k1, ..., kn -> g kn]. *)
Definition tabulate (g : string -> V) (ks : list string) : smap V :=
  map (fun k => (k, g k)) ks.
End GroupBy.

(** The sum of a list of numbers, added up from the left starting at [0]. *)
Definition total (l : list JS.number) : JS.number := fold_left JS.add l zero.

Section Vocabulary.
Context {host : Host}.

(** The input with every reversal and every reversed transaction removed. *)
Definition withoutReversals (transactions : list Transaction) : list Transaction :=
  filter (fun tx => negb (isReversedOrReverse tx)) transactions.

Definition monthOf (tx : Transaction) : string := getYearMonth (EffectiveDateTime tx).

Definition isCredit (tx : Transaction) : bool := Direction_eqb (CreditDebit tx) CREDIT.
Definition isDebit (tx : Transaction) : bool := Direction_eqb (CreditDebit tx) DEBIT.

(** The sum of the CREDIT amounts of [l], in ledger order. *)
Definition creditTotal (l : list Transaction) : JS.number :=
  total (map AmountSingleColumn (filter isCredit l)).

(** The sum of the absolute values of the DEBIT amounts of [l]. *)
Definition debitTotal (l : list Transaction) : JS.number :=
  total (map (fun tx => JS.Math.abs (AmountSingleColumn tx)) (filter isDebit l)).

(** The non-excluded transactions of month [m]. *)
Definition monthTransactions (m : string) (transactions : list Transaction)
  : list Transaction :=
  bucket monthOf m (withoutReversals transactions).

(** The distinct month keys of the non-excluded transactions. *)
Definition monthKeys (transactions : list Transaction) : list string :=
  keysOf monthOf (withoutReversals transactions).

Definition flowUpdate (current : Flow.t) (tx : Transaction) : Flow.t :=
  match CreditDebit tx with
  | CREDIT =>
      Flow.Build_t (JS.add (Flow.income current) (AmountSingleColumn tx))
                   (Flow.expenses current)
  | DEBIT =>
      Flow.Build_t (Flow.income current)
                   (JS.add (Flow.expenses current) (JS.Math.abs (AmountSingleColumn tx)))
  end.

(** The row the summary holds for month [m]. *)
Definition summaryRow (transactions : list Transaction) (m : string) : MonthlyData.t :=
  let credits := creditTotal (monthTransactions m transactions) in
  let debits := debitTotal (monthTransactions m transactions) in
  {| MonthlyData.month := m;
     MonthlyData.income := round2 credits;
     MonthlyData.expenses := round2 debits;
     MonthlyData.net := round2 (JS.sub credits debits) |}.

(** The non-excluded CREDIT transactions as single contributions, in ledger
    order. *)
Definition creditContributions (transactions : list Transaction)
  : list SingleContribution.t :=
  map contributionOf
      (filter (fun tx => negb (isReversedOrReverse tx) && isCredit tx) transactions).

Definition isOneTime (c : SingleContribution.t) : bool :=
  negb (SingleContribution.isRecurring c).

End Vocabulary.

(** ** The category rules as an ordered table *)

(** A rule: a test on the category and the lower-cased description, and the
    label it assigns. *)
Definition Rule : Type := ((string -> string -> bool) * string)%type.

(** The label of the first rule that matches, the category itself when none
    does. *)
Fixpoint firstMatch (rules : list Rule) (category description : string) : string :=
  match rules with
  | [] => category
  | (test, label) :: rest =>
      if test category description then label else firstMatch rest category description
  end.

Definition paidMaintainers : Rule :=
  (fun category description =>
     Str.startsWith "Consultants" category
     || Str.includes "core maintainer stipend" description,
   "Paid Maintainers").

Definition communityIncentives : Rule :=
  (fun category description =>
     Str.startsWith "Grants" category
     || Str.startsWith "Other, Support & Commu" category
     || Str.includes "community award" description,
   "Community Incentives").

Definition miscellaneous : Rule :=
  (fun category _ =>
     String.eqb category "EXPENSE"
     || String.eqb category "CONTRIBUTION"
     || Str.startsWith "Expenses - Donation" category
     || Str.startsWith "Expenses - Travel" category
     || Str.startsWith "Contributions - Hosted" category,
   "Miscellaneous").

Definition ocFees : Rule :=
  (fun category _ => String.eqb category "HOST_FEE", "OC Fees").

(** The sum of a list of counts. *)
Definition sumZ (l : list Z) : Z := fold_right Z.add 0 l.

(** ** Salary-like payments and month keys *)

Section SalaryVocabulary.
Context {host : Host}.

(** The transactions that pass the guards of [analyzeSalariedExpenses]. *)
Definition isSalaryPayment (tx : Transaction) : bool :=
  negb (isReversedOrReverse tx) && isDebit tx
  && String.eqb (Kind tx) "EXPENSE" && isSalaryLike tx.

Definition salaryPayments (transactions : list Transaction) : list Transaction :=
  filter isSalaryPayment transactions.

(** The salary-like payments made to [recipient], in ledger order. *)
Definition paymentsTo (recipient : string) (transactions : list Transaction)
  : list Transaction :=
  bucket counterparty recipient (salaryPayments transactions).

(** The sum of the absolute amounts of [l]. *)
Definition paidTotal (l : list Transaction) : JS.number :=
  total (map (fun tx => JS.Math.abs (AmountSingleColumn tx)) l).

Definition payrollInit (tx : Transaction) : Payroll.t :=
  Payroll.Build_t zero 0 (monthOf tx) (monthOf tx) (Description tx).

Definition payrollUpdate (current : Payroll.t) (tx : Transaction) : Payroll.t :=
  Payroll.Build_t
    (JS.add (Payroll.total current) (JS.Math.abs (AmountSingleColumn tx)))
    (Payroll.paymentCount current + 1)
    (if String.ltb (monthOf tx) (Payroll.earliestMonth current) then monthOf tx
     else Payroll.earliestMonth current)
    (if String.ltb (Payroll.latestMonth current) (monthOf tx) then monthOf tx
     else Payroll.latestMonth current)
    (Payroll.description current).

(** The timestamp is a valid date of a year written with four digits. *)
Definition validDate (tx : Transaction) : Prop :=
  exists y m, localDate (EffectiveDateTime tx) = Some (y, m)
              /\ 1000 <= y <= 9999 /\ 0 <= m <= 11.

(** The calendar month of a transaction, counted from year 0. *)
Definition monthNumber (tx : Transaction) : Z :=
  match localDate (EffectiveDateTime tx) with
  | Some (y, m) => y * 12 + m
  | None => 0
  end.
(** The least and the greatest month key of [l] by code units, starting
    from [first]. *)
Definition earliestOf (first : string) (l : list Transaction) : string :=
  fold_left (fun e tx => if String.ltb (monthOf tx) e then monthOf tx else e) l first.

Definition latestOf (first : string) (l : list Transaction) : string :=
  fold_left (fun e tx => if String.ltb e (monthOf tx) then monthOf tx else e) l first.
End SalaryVocabulary.

(** Month keys of valid dates, checked over the years of four digits:
    their two numerals have a fixed width, hold no hyphen, read back as the
    numbers they were written from, and grow with them. *)

Fixpoint zrange (start : Z) (n : nat) : list Z :=
  match n with
  | O => []
  | S n' => start :: zrange (start + 1) n'
  end.

Fixpoint noDash (s : string) : bool :=
  match s with
  | EmptyString => true
  | String c rest => negb (Ascii.eqb c "-") && noDash rest
  end.

Definition yearText (y : Z) : string := Str.ofInteger y.
Definition monthText (m : Z) : string := Str.padStart2 (Str.ofInteger (m + 1)).

Definition yearOk (y : Z) : bool :=
  (String.length (yearText y) =? 4)%nat
  && noDash (yearText y)
  && match Str.digitsValue 0 (yearText y) with Some v => v =? y | None => false end
  && ((y =? 9999)
      || match String.compare (yearText y) (yearText (y + 1)) with Lt => true | _ => false end).

Definition monthOk (m : Z) : bool :=
  (String.length (monthText m) =? 2)%nat
  && noDash (monthText m)
  && match Str.digitsValue 0 (monthText m) with Some v => v =? m + 1 | None => false end
  && match String.compare (monthText m) (monthText (m + 1)) with Lt => true | _ => false end.

(** ** Rounding as the specification words it *)

(** The integral double closest to [x], of two equally close ones the one
    farther from zero. *)
Definition roundHalfAwayFromZero (x : JS.number) : JS.number :=
  match x with
  | S754_finite s m e =>
      if 0 <=? e then x
      else
        let magnitude := (2 * Z.pos m + 2 ^ (- e)) / 2 ^ (1 - e) in
        JS.integral s (if s then - magnitude else magnitude)
  | _ => x
  end.

(** [x] rounded to cents, ties away from zero. *)
Definition roundCentsAwayFromZero (x : JS.number) : JS.number :=
  JS.div (roundHalfAwayFromZero (JS.mul x (JS.ofZ 100))) (JS.ofZ 100).

(** ** Doubles that need no rounding *)

(** [c * 2^E] is the normal form of [p * 2^e]: a mantissa of 53 digits and
    an exponent in range. *)
Definition normalOf (p : positive) (e : Z) (c : positive) (E : Z) : Prop :=
  Z.pos (digits2_pos c) = 53 /\ -1074 <= E <= 971
  /\ ((E <= e /\ Z.pos c = Z.pos p * 2 ^ (e - E))
      \/ (e <= E /\ Z.pos p = Z.pos c * 2 ^ (E - e))).

(** An integer every double operation represents exactly. *)
Definition small (z : Z) : Prop := Z.abs z < 2 ^ 53.

(** Mantissa and exponent of the double of a small non-zero integer. *)
Definition mantissaOf (z : Z) : positive :=
  Z.to_pos (Z.abs z * 2 ^ (53 - Z.log2 (Z.abs z) - 1)).
Definition exponentOf (z : Z) : Z := Z.log2 (Z.abs z) + 1 - 53.

(** [x] is negative, [-0] or [NaN]: what dividing a negative number by a
    magnitude can give. *)
Definition negativeOrNaN (x : JS.number) : Prop :=
  x = S754_nan \/ x = S754_infinity true \/ x = S754_zero true
  \/ exists m e, x = S754_finite true m e.

(** An integer that is not above zero. *)
Definition nonPositiveInteger (x : JS.number) : Prop :=
  JS.isInteger x = true /\ JS.ge zero x = true.

(** * Vocabulary of the further properties *)

(** ** The transactions a report accounts for *)

Section Tallies.
Variable X : Type.
Variable value : X -> JS.number.

(** What a breakdown holds for the elements [l] filed under one key: the
    sum of their values, added up in ledger order, and their number. *)
Definition tallyOf (l : list X) : Tally.t :=
  {| Tally.amount := total (map value l); Tally.count := Z.of_nat (List.length l) |}.

Definition tallyUpdate (current : Tally.t) (x : X) : Tally.t :=
  {| Tally.amount := JS.add (Tally.amount current) (value x);
     Tally.count := Tally.count current + 1 |}.
End Tallies.

Section ReportVocabulary.
Context {host : Host}.

Definition isLive (tx : Transaction) : bool := negb (isReversedOrReverse tx).

(** The non-excluded CREDIT and DEBIT transactions, in ledger order. *)
Definition liveCredits (transactions : list Transaction) : list Transaction :=
  filter (fun tx => isLive tx && isCredit tx) transactions.

Definition liveDebits (transactions : list Transaction) : list Transaction :=
  filter (fun tx => isLive tx && isDebit tx) transactions.

(** The credits received from [source] and the debits paid to [recipient]. *)
Definition creditsFrom (source : string) (transactions : list Transaction)
  : list Transaction :=
  bucket counterparty source (liveCredits transactions).

Definition debitsTo (recipient : string) (transactions : list Transaction)
  : list Transaction :=
  bucket counterparty recipient (liveDebits transactions).

(** The debits a variant of the category rules files under [category]. *)
Definition debitsUnder (rules : Transaction -> string) (category : string)
  (transactions : list Transaction) : list Transaction :=
  bucket rules category (liveDebits transactions).

(** The non-excluded credits of kind CONTRIBUTION. *)
Definition isContribution (tx : Transaction) : bool :=
  isLive tx && isCredit tx && String.eqb (Kind tx) "CONTRIBUTION".

(** The sum of the amounts of [l], in ledger order. *)
Definition amountTotal (l : list Transaction) : JS.number :=
  total (map AmountSingleColumn l).

End ReportVocabulary.

Section ContributionSides.
Context {host : Host}.

(** The loop of [analyzeContributions] as one of its two maps sees it:
    [recurring] tells which of the two. *)
Definition sideStep (recurring : bool) (m : smap Tally.t) (tx : Transaction)
  : smap Tally.t :=
  if isContribution tx && Bool.eqb (isRecurringContribution tx) recurring
  then tallyInto (counterparty tx) (AmountSingleColumn tx) m
  else m.

(** The contributions of one side. *)
Definition sideContributions (recurring : bool) (transactions : list Transaction)
  : list Transaction :=
  filter (fun tx => isContribution tx && Bool.eqb (isRecurringContribution tx) recurring)
         transactions.

End ContributionSides.

Section MonthlyContributionVocabulary.
Context {host : Host}.

(** The non-excluded contributions of month [m], in ledger order. *)
Definition contributionsOfMonth (m : string) (transactions : list Transaction)
  : list Transaction :=
  bucket monthOf m (filter isContribution transactions).

Definition isOneTimeContribution (tx : Transaction) : bool :=
  negb (isRecurringContribution tx).

Definition splitUpdate (current : Split.t) (tx : Transaction) : Split.t :=
  if isRecurringContribution tx
  then Split.Build_t (JS.add (Split.recurring current) (AmountSingleColumn tx))
                     (Split.oneTime current)
  else Split.Build_t (Split.recurring current)
                     (JS.add (Split.oneTime current) (AmountSingleColumn tx)).

End MonthlyContributionVocabulary.

(** [x] is positive, a zero or [NaN]: what dividing a number that is not
    below zero by a magnitude can give. *)
Definition nonNegativeOrNaN (x : JS.number) : Prop :=
  x = S754_nan \/ x = S754_infinity false \/ (exists s, x = S754_zero s)
  \/ exists m e, x = S754_finite false m e.

(** An integer that is not below zero. *)
Definition nonNegativeInteger (x : JS.number) : Prop :=
  JS.isInteger x = true /\ JS.ge x zero = true.

(** The projection of a ledger without a single non-excluded transaction. *)
Definition emptyProjection : RunwayProjection.t :=
  {| RunwayProjection.currentBalance := zero;
     RunwayProjection.averageMonthlyExpenses := JS.NaN;
     RunwayProjection.averageMonthlyIncome := JS.NaN;
     RunwayProjection.averageMonthlyNet := JS.NaN;
     RunwayProjection.monthsOfRunway := JS.NaN;
     RunwayProjection.requiredMonthlyContribution := zero |}.

Definition emptyPercentage : SalaryPercentage.t :=
  {| SalaryPercentage.monthlySalaryExpenses := zero;
     SalaryPercentage.avgMonthlyIncome := JS.NaN;
     SalaryPercentage.avgMonthlyRecurringIncome := JS.NaN;
     SalaryPercentage.percentageOfTotalIncome := zero;
     SalaryPercentage.percentageOfRecurringIncome := zero |}.

(** ** The classes of income of the full variant *)

Section IncomeVocabulary.
Context {host : Host}.

(** The non-excluded credits [categorizeIncome] counts as GitHub
    sponsorships, and those it counts as other income. *)
Definition isSponsorship (tx : Transaction) : bool :=
  isLive tx && isCredit tx && Full.isGithubSponsorship (Kind tx) (Full.sourceOrEmpty tx).

Definition isOtherIncome (tx : Transaction) : bool :=
  isLive tx && isCredit tx
  && negb (Full.isGithubSponsorship (Kind tx) (Full.sourceOrEmpty tx))
  && negb (String.eqb (Kind tx) "CONTRIBUTION").

Definition sponsorships (transactions : list Transaction) : list Transaction :=
  filter isSponsorship transactions.

Definition otherIncome (transactions : list Transaction) : list Transaction :=
  filter isOtherIncome transactions.

(** The rounded sum and the number of [l]. *)
Definition slotOf (l : list Transaction) : AmountCount.t :=
  {| AmountCount.amount := round2 (amountTotal l);
     AmountCount.count := Z.of_nat (List.length l) |}.

End IncomeVocabulary.

Section MonthlyIncomeVocabulary.
Context {host : Host}.

(** The non-excluded credits of month [m], in ledger order. *)
Definition creditsOfMonth (m : string) (transactions : list Transaction)
  : list Transaction :=
  bucket monthOf m (liveCredits transactions).

(** The tests by which [categorizeMonthlyIncome] sorts a credit. *)
Definition sponsoredInMonth (tx : Transaction) : bool :=
  Full.isGithubSponsorship (Kind tx) (counterparty tx).

Definition contributedInMonth (recurring : bool) (tx : Transaction) : bool :=
  negb (sponsoredInMonth tx) && String.eqb (Kind tx) "CONTRIBUTION"
  && Bool.eqb (isRecurringContribution tx) recurring.

Definition otherInMonth (tx : Transaction) : bool :=
  negb (sponsoredInMonth tx) && negb (String.eqb (Kind tx) "CONTRIBUTION").

(** What the loop does to the entry of a credit's month. *)
Definition monthIncomeUpdate (current : MonthIncome.t) (tx : Transaction) : MonthIncome.t :=
  let amount := AmountSingleColumn tx in
  let source := counterparty tx in
  let '(MonthIncome.Build_t githubSponsors ocRecurring ocOneTime other
                            recurringContribs oneTimeContribs) := current in
  if Full.isGithubSponsorship (Kind tx) source
  then MonthIncome.Build_t (JS.add githubSponsors amount) ocRecurring ocOneTime other
                           recurringContribs oneTimeContribs
  else if String.eqb (Kind tx) "CONTRIBUTION"
  then if isRecurringContribution tx
       then MonthIncome.Build_t githubSponsors (JS.add ocRecurring amount) ocOneTime other
                                (Full.contribute source amount recurringContribs)
                                oneTimeContribs
       else MonthIncome.Build_t githubSponsors ocRecurring (JS.add ocOneTime amount) other
                                recurringContribs
                                (Full.contribute source amount oneTimeContribs)
  else MonthIncome.Build_t githubSponsors ocRecurring ocOneTime (JS.add other amount)
                           recurringContribs oneTimeContribs.

(** The sums of the amounts of [l] by counterparty, in order of first
    occurrence. *)
Definition contributorTotals (l : list Transaction) : smap JS.number :=
  tabulate (fun s => amountTotal (bucket counterparty s l)) (keysOf counterparty l).

(** The entry of a month whose credits are [credits]. *)
Definition monthIncomeOf (credits : list Transaction) : MonthIncome.t :=
  {| MonthIncome.githubSponsors := amountTotal (filter sponsoredInMonth credits);
     MonthIncome.ocRecurring := amountTotal (filter (contributedInMonth true) credits);
     MonthIncome.ocOneTime := amountTotal (filter (contributedInMonth false) credits);
     MonthIncome.other := amountTotal (filter otherInMonth credits);
     MonthIncome.recurringContribs :=
       contributorTotals (filter (contributedInMonth true) credits);
     MonthIncome.oneTimeContribs :=
       contributorTotals (filter (contributedInMonth false) credits) |}.

End MonthlyIncomeVocabulary.

Section OtherIncomeVocabulary.
Context {host : Host}.

(** The key under which [analyzeOtherIncome] files a credit, the entry a
    first credit sets up and what a credit does to its entry. *)
Definition otherKeyOf (tx : Transaction) : string :=
  Full.otherKey (Kind tx) (Full.sourceOrEmpty tx).

Definition otherInit (tx : Transaction) : OtherTally.t :=
  OtherTally.Build_t zero 0 (Full.sourceOrEmpty tx).

Definition otherUpdate (current : OtherTally.t) (tx : Transaction) : OtherTally.t :=
  OtherTally.Build_t (JS.add (OtherTally.amount current) (AmountSingleColumn tx))
                     (OtherTally.count current + 1)
                     (OtherTally.source current).

(** The other income of kind [kind] received from [source]. *)
Definition otherIncomeOf (kind source : string) (transactions : list Transaction)
  : list Transaction :=
  filter (fun tx => String.eqb (Kind tx) kind && String.eqb (Full.sourceOrEmpty tx) source)
         (otherIncome transactions).

End OtherIncomeVocabulary.

(** The text holds no colon. *)
Fixpoint noColon (s : string) : bool :=
  match s with
  | EmptyString => true
  | String c rest => negb (Ascii.eqb c ":") && noColon rest
  end.

(** ** The order of finite doubles *)

(** [x] is a finite double: a zero, or a mantissa with an exponent that is
    not below the one of the least positive double. *)
Definition finiteDouble (x : JS.number) : bool :=
  match x with
  | S754_zero _ => true
  | S754_finite _ _ e => -1074 <=? e
  | _ => false
  end.

(** The value of a finite double, counted in units of the least positive
    one, [2^-1074]. *)
Definition scaled (x : JS.number) : Z :=
  match x with
  | S754_finite s m e => JS.signed s m * 2 ^ (e + 1074)
  | _ => 0
  end.

(** [Number.isFinite(x)] *)
Definition isFiniteNumber (x : JS.number) : bool :=
  match x with
  | S754_zero _ | S754_finite _ _ _ => true
  | _ => false
  end.

(** The rows [l] are in descending order of [amount]. *)
Definition descending (A : Type) (amount : A -> JS.number) (l : list A) : Prop :=
  StronglySorted (fun a b => scaled (amount b) <= scaled (amount a)) l.

(** No row of [rest] has a greater amount than a row of [top]. *)
Definition outranks (A : Type) (amount : A -> JS.number) (top rest : list A) : Prop :=
  forall a b, In a top -> In b rest -> scaled (amount b) <= scaled (amount a).

(** The text holds no [c]. *)
Fixpoint lacks (c : ascii) (s : string) : bool :=
  match s with
  | EmptyString => true
  | String c' rest => negb (Ascii.eqb c' c) && lacks c rest
  end.

(** * Facts about doubles *)

Module Double.

Lemma shr_1_nonneg mrs : 0 <= shr_m mrs -> 0 <= shr_m (shr_1 mrs).
Proof.
  destruct mrs as [m r s]. simpl.
  destruct m as [|p|p]; [simpl; lia | | lia].
  intros _. destruct p; simpl; lia.
Qed.

Lemma iter_pos_shr_1_nonneg n mrs :
  0 <= shr_m mrs -> 0 <= shr_m (iter_pos shr_1 n mrs).
Proof.
  revert mrs. induction n as [n IH | n IH |]; intros mrs H; simpl.
  - apply IH, IH, shr_1_nonneg, H.
  - apply IH, IH, H.
  - apply shr_1_nonneg, H.
Qed.

Lemma shr_nonneg mrs e n : 0 <= shr_m mrs -> 0 <= shr_m (fst (shr mrs e n)).
Proof.
  intro H. destruct n; simpl; try assumption.
  now apply iter_pos_shr_1_nonneg.
Qed.

Lemma shr_exponent mrs e n : e <= snd (shr mrs e n).
Proof. destruct n; simpl; lia. Qed.

Lemma shr_m_of_loc m l : shr_m (shr_record_of_loc m l) = m.
Proof. destruct l as [|[]]; reflexivity. Qed.

Lemma shr_fexp_nonneg m e l :
  0 <= m -> 0 <= shr_m (fst (shr_fexp JS.prec JS.emax m e l)).
Proof.
  intro H. unfold shr_fexp. apply shr_nonneg. now rewrite shr_m_of_loc.
Qed.

Lemma shr_fexp_exponent m e l : e <= snd (shr_fexp JS.prec JS.emax m e l).
Proof. unfold shr_fexp. apply shr_exponent. Qed.

Lemma round_nearest_even_nonneg m l : 0 <= m -> 0 <= round_nearest_even m l.
Proof.
  intro H. destruct l as [|[]]; simpl; try lia.
  destruct (Z.even m); lia.
Qed.

(** Rounding keeps the sign, and never lowers the exponent. *)
Lemma binary_round_aux_shape s m e l :
  0 <= m ->
  let x := binary_round_aux JS.prec JS.emax s m e l in
  x = S754_zero s \/ x = S754_infinity s \/ exists m' e', x = S754_finite s m' e' /\ e <= e'.
Proof.
  intros H x. subst x. unfold binary_round_aux.
  pose proof (shr_fexp_nonneg e l H) as H1.
  pose proof (shr_fexp_exponent m e l) as E1.
  destruct (shr_fexp JS.prec JS.emax m e l) as [mrs' e'] eqn:S1. simpl in H1, E1.
  pose proof (shr_fexp_nonneg e' loc_Exact
                (round_nearest_even_nonneg (loc_of_shr_record mrs') H1)) as H2.
  pose proof (shr_fexp_exponent (round_nearest_even (shr_m mrs') (loc_of_shr_record mrs')) e' loc_Exact) as E2.
  destruct (shr_fexp JS.prec JS.emax _ e' loc_Exact) as [mrs'' e''] eqn:S2. simpl in H2, E2.
  destruct (shr_m mrs'') as [|p|p]; [now left | | lia].
  destruct (e'' <=? JS.emax - JS.prec); [|right; now left].
  right; right. exists p, e''. split; [reflexivity | lia].
Qed.

(** *** Values that need no rounding *)

Lemma digits2_pos_log2 p : Z.pos (digits2_pos p) = Z.log2 (Z.pos p) + 1.
Proof.
  assert (Hsize : forall q, digits2_pos q = Pos.size q).
  { induction q; simpl; congruence. }
  destruct p; simpl; rewrite ?Hsize; lia.
Qed.

Lemma digits2_pos_bounds p :
  2 ^ (Z.pos (digits2_pos p) - 1) <= Z.pos p < 2 ^ Z.pos (digits2_pos p).
Proof.
  rewrite digits2_pos_log2.
  replace (Z.log2 (Z.pos p) + 1 - 1) with (Z.log2 (Z.pos p)) by lia.
  apply Z.log2_spec. lia.
Qed.

Lemma digits2_pos_shift p j q :
  0 <= j -> Z.pos q = Z.pos p * 2 ^ j ->
  Z.pos (digits2_pos q) = Z.pos (digits2_pos p) + j.
Proof.
  intros Hj Hq. rewrite !digits2_pos_log2, Hq.
  rewrite Z.log2_mul_pow2 by lia. lia.
Qed.

Lemma iter_xO p n : Z.pos (Pos.iter xO p n) = Z.pos p * 2 ^ Z.pos n.
Proof.
  induction n as [|n IH] using Pos.peano_ind.
  - simpl. lia.
  - rewrite Pos.iter_succ, Pos2Z.inj_succ, Z.pow_succ_r by lia.
    change (Z.pos (Pos.iter xO p n)~0) with (2 * Z.pos (Pos.iter xO p n)).
    rewrite IH. lia.
Qed.

Lemma shr_1_double m :
  shr_1 (Build_shr_record (2 * m) false false) = Build_shr_record m false false.
Proof. destruct m; reflexivity. Qed.

Lemma iter_pos_shr_1_exact n m :
  iter_pos shr_1 n (Build_shr_record (m * 2 ^ Z.pos n) false false)
  = Build_shr_record m false false.
Proof.
  revert m. induction n as [n IH | n IH |]; intro m; cbn [iter_pos].
  - replace (m * 2 ^ Z.pos n~1) with (2 * ((m * 2 ^ Z.pos n) * 2 ^ Z.pos n)).
    + rewrite shr_1_double. now rewrite !IH.
    + change (Z.pos n~1) with (2 * Z.pos n + 1).
      rewrite Z.pow_add_r, Z.pow_twice_r by lia. lia.
  - replace (m * 2 ^ Z.pos n~0) with ((m * 2 ^ Z.pos n) * 2 ^ Z.pos n).
    + now rewrite !IH.
    + change (Z.pos n~0) with (2 * Z.pos n).
      rewrite Z.pow_twice_r. lia.
  - replace (m * 2 ^ 1) with (2 * m) by lia. apply shr_1_double.
Qed.

Lemma fexp_normal x : -1074 <= x - 53 -> fexp JS.prec JS.emax x = x - 53.
Proof. unfold fexp, emin, JS.prec, JS.emax. lia. Qed.

(** A mantissa of 53 digits followed by [j] zero bits is shifted back
    without loss. *)
Lemma binary_round_aux_exact s c j p e :
  Z.pos (digits2_pos c) = 53 -> 0 <= j -> Z.pos p = Z.pos c * 2 ^ j ->
  -1074 <= e + j <= 971 ->
  binary_round_aux JS.prec JS.emax s (Z.pos p) e loc_Exact = S754_finite s c (e + j).
Proof.
  intros Hc Hj Hp He.
  pose proof (digits2_pos_shift c Hj Hp) as Hd. rewrite Hc in Hd.
  assert (Hfirst : shr_fexp JS.prec JS.emax (Z.pos p) e loc_Exact
                   = (Build_shr_record (Z.pos c) false false, e + j)).
  { unfold shr_fexp. simpl Zdigits2. rewrite Hd.
    rewrite fexp_normal by lia.
    replace (53 + j + e - 53 - e) with j by lia.
    destruct j as [|n|n]; simpl shr.
    - simpl in Hp. f_equal; [|lia]. f_equal. lia.
    - rewrite Hp. now rewrite iter_pos_shr_1_exact.
    - lia. }
  unfold binary_round_aux. rewrite Hfirst. simpl loc_of_shr_record.
  simpl round_nearest_even.
  assert (Hsecond : shr_fexp JS.prec JS.emax (Z.pos c) (e + j) loc_Exact
                    = (Build_shr_record (Z.pos c) false false, e + j)).
  { unfold shr_fexp. simpl Zdigits2. rewrite Hc.
    rewrite fexp_normal by lia.
    replace (53 + (e + j) - 53 - (e + j)) with 0 by lia. reflexivity. }
  rewrite Hsecond. simpl shr_m.
  replace (e + j <=? JS.emax - JS.prec) with true; [reflexivity|].
  symmetry. apply Z.leb_le. unfold JS.emax, JS.prec. lia.
Qed.

Lemma binary_round_exact s p e c E :
  normalOf p e c E -> binary_round JS.prec JS.emax s p e = S754_finite s c E.
Proof.
  intros [Hc [HE Hval]]. unfold binary_round.
  assert (Hd : Z.pos (digits2_pos p) + e = 53 + E).
  { destruct Hval as [[Hle Hv] | [Hle Hv]].
    - pose proof (@digits2_pos_shift p (e - E) c ltac:(lia) Hv). lia.
    - pose proof (@digits2_pos_shift c (E - e) p ltac:(lia) Hv). lia. }
  rewrite Hd, fexp_normal by lia.
  replace (53 + E - 53) with E by lia.
  unfold shl_align.
  destruct (E - e) as [|n|n] eqn:Hdiff.
  - replace (S754_finite s c E) with (S754_finite s c (e + 0)) by (f_equal; lia).
    apply binary_round_aux_exact; try lia.
    destruct Hval as [[_ Hv] | [_ Hv]].
    + replace (e - E) with 0 in Hv by lia. simpl in Hv. lia.
    + simpl in Hv. lia.
  - replace (S754_finite s c E) with (S754_finite s c (e + Z.pos n)) by (f_equal; lia).
    apply binary_round_aux_exact; lia.
  - replace (S754_finite s c E) with (S754_finite s c (E + 0)) by (f_equal; lia).
    apply binary_round_aux_exact; try lia.
    rewrite iter_xO.
    destruct Hval as [[_ Hv] | [Hle _]]; [|lia].
    replace (e - E) with (Z.pos n) in Hv by lia. lia.
Qed.

(** *** Integers as doubles *)

Lemma small_log2 z : z <> 0 -> small z -> 0 <= Z.log2 (Z.abs z) < 53.
Proof.
  intros Hz Hs. split; [apply Z.log2_nonneg|].
  apply Z.log2_lt_pow2; [lia | exact Hs].
Qed.

Lemma mantissaOf_spec z :
  z <> 0 -> small z ->
  Z.pos (mantissaOf z) = Z.abs z * 2 ^ (- exponentOf z)
  /\ Z.pos (digits2_pos (mantissaOf z)) = 53
  /\ -52 <= exponentOf z <= 0.
Proof.
  intros Hz Hs. pose proof (small_log2 Hz Hs) as Hl.
  unfold mantissaOf, exponentOf.
  assert (Hpos : 0 < Z.abs z * 2 ^ (53 - Z.log2 (Z.abs z) - 1)).
  { apply Z.mul_pos_pos; [lia | apply Z.pow_pos_nonneg; lia]. }
  rewrite Z2Pos.id by exact Hpos.
  split; [f_equal; f_equal; lia|]. split; [|lia].
  destruct (Z.abs z * 2 ^ (53 - Z.log2 (Z.abs z) - 1)) as [|q|q] eqn:Hq; try lia.
  simpl Z.to_pos. rewrite digits2_pos_log2, <- Hq.
  rewrite Z.log2_mul_pow2 by lia. lia.
Qed.

Lemma normalOf_integer z p e :
  z <> 0 -> small z -> e <= 0 -> -1074 <= e -> Z.pos p = Z.abs z * 2 ^ (- e) ->
  normalOf p e (mantissaOf z) (exponentOf z).
Proof.
  intros Hz Hs He Hmin Hp.
  destruct (mantissaOf_spec Hz Hs) as [Hm [Hd HE]].
  split; [exact Hd|]. split; [lia|].
  destruct (Z_le_gt_dec (exponentOf z) e) as [Hle | Hgt].
  - left. split; [exact Hle|]. rewrite Hm, Hp, <- Z.mul_assoc, <- Z.pow_add_r by lia.
    f_equal. f_equal. lia.
  - right. split; [lia|]. rewrite Hm, Hp, <- Z.mul_assoc, <- Z.pow_add_r by lia.
    f_equal. f_equal. lia.
Qed.

Lemma binary_normalize_integer z M e :
  small z -> e <= 0 -> -1074 <= e -> M = z * 2 ^ (- e) ->
  binary_normalize JS.prec JS.emax M e false =
  match z with
  | Z0 => S754_zero false
  | _ => S754_finite (z <? 0) (mantissaOf z) (exponentOf z)
  end.
Proof.
  intros Hs He Hmin HM.
  assert (Hpow : 0 < 2 ^ (- e)) by (apply Z.pow_pos_nonneg; lia).
  destruct z as [|q|q].
  - subst M. reflexivity.
  - destruct M as [|P|P]; try nia.
    simpl binary_normalize. apply binary_round_exact.
    apply normalOf_integer; try assumption; try lia.
  - destruct M as [|P|P]; try nia.
    simpl binary_normalize. apply binary_round_exact.
    apply normalOf_integer; try assumption; try lia.
Qed.

Lemma ofZ_small z :
  small z ->
  JS.ofZ z =
  match z with
  | Z0 => S754_zero false
  | _ => S754_finite (z <? 0) (mantissaOf z) (exponentOf z)
  end.
Proof.
  intro Hs. unfold JS.ofZ, JS.dyadic.
  apply binary_normalize_integer; try assumption; try lia.
Qed.

Lemma shl_align_fst m e e' :
  e' <= e -> Z.pos (fst (shl_align m e e')) = Z.pos m * 2 ^ (e - e').
Proof.
  intro Hle. unfold shl_align.
  destruct (e' - e) as [|d|d] eqn:Hd; simpl fst.
  - replace (e - e') with 0 by lia. simpl. lia.
  - lia.
  - rewrite iter_xO. f_equal. f_equal. lia.
Qed.

Lemma cond_Zopp_abs z x : z <> 0 -> cond_Zopp (z <? 0) (Z.abs z * x) = z * x.
Proof.
  intro Hz. unfold cond_Zopp. destruct (z <? 0) eqn:E.
  - apply Z.ltb_lt in E. rewrite Z.abs_neq by lia. lia.
  - apply Z.ltb_ge in E. rewrite Z.abs_eq by lia. lia.
Qed.

(** The mantissa of an integer, aligned to the exponent [e], with its sign. *)
Lemma aligned_integer z e :
  z <> 0 -> small z -> e <= exponentOf z ->
  cond_Zopp (z <? 0) (Z.pos (fst (shl_align (mantissaOf z) (exponentOf z) e)))
  = z * 2 ^ (- e).
Proof.
  intros Hz Hs He.
  destruct (mantissaOf_spec Hz Hs) as [Hm [_ HE]].
  rewrite shl_align_fst by exact He.
  rewrite Hm, <- Z.mul_assoc, <- Z.pow_add_r by lia.
  replace (- exponentOf z + (exponentOf z - e)) with (- e) by lia.
  now apply cond_Zopp_abs.
Qed.

Lemma ofZ_nonzero z :
  z <> 0 -> small z -> JS.ofZ z = S754_finite (z <? 0) (mantissaOf z) (exponentOf z).
Proof. intros Hz Hs. rewrite (ofZ_small Hs). now destruct z. Qed.

Lemma ofZ_opp z : small z -> JS.ofZ (- z) = SFopp (JS.ofZ z) \/ z = 0.
Proof.
  intro Hs. destruct (Z.eq_dec z 0) as [-> | Hz]; [now right | left].
  assert (Hs' : small (- z)) by (unfold small in *; lia).
  rewrite (ofZ_nonzero Hz Hs), (@ofZ_nonzero (- z)) by (try assumption; lia).
  simpl. unfold mantissaOf, exponentOf. rewrite !Z.abs_opp.
  f_equal. destruct (z <? 0) eqn:E1, (- z <? 0) eqn:E2; try reflexivity.
  - apply Z.ltb_lt in E1, E2. lia.
  - apply Z.ltb_ge in E1, E2. lia.
Qed.

(** Sums, differences and products of integers are exact as long as the
    result stays below [2^53] in magnitude. *)
Lemma add_ofZ a b :
  small a -> small b -> small (a + b) ->
  JS.add (JS.ofZ a) (JS.ofZ b) = JS.ofZ (a + b).
Proof.
  intros Ha Hb Hab.
  destruct (Z.eq_dec a 0) as [-> | Hna].
  { rewrite (ofZ_small Ha). simpl Z.add.
    rewrite (ofZ_small Hb). now destruct b. }
  destruct (Z.eq_dec b 0) as [-> | Hnb].
  { rewrite Z.add_0_r, (ofZ_small Hb), (ofZ_nonzero Hna Ha). reflexivity. }
  rewrite (ofZ_nonzero Hna Ha), (ofZ_nonzero Hnb Hb), (ofZ_small Hab).
  unfold JS.add, SFadd.
  destruct (mantissaOf_spec Hna Ha) as [_ [_ HEa]].
  destruct (mantissaOf_spec Hnb Hb) as [_ [_ HEb]].
  apply binary_normalize_integer; try assumption; try lia.
  rewrite !aligned_integer by (try assumption; lia). lia.
Qed.

Lemma sub_ofZ a b :
  small a -> small b -> small (a - b) ->
  JS.sub (JS.ofZ a) (JS.ofZ b) = JS.ofZ (a - b).
Proof.
  intros Ha Hb Hab.
  destruct (Z.eq_dec b 0) as [-> | Hnb].
  { rewrite Z.sub_0_r, (ofZ_small Hb), (ofZ_small Ha). now destruct a. }
  destruct (Z.eq_dec a 0) as [-> | Hna].
  { simpl Z.sub. destruct (ofZ_opp Hb) as [-> | ?]; [|contradiction].
    rewrite (ofZ_small Ha), (ofZ_nonzero Hnb Hb). reflexivity. }
  rewrite (ofZ_nonzero Hna Ha), (ofZ_nonzero Hnb Hb), (ofZ_small Hab).
  unfold JS.sub, SFsub.
  destruct (mantissaOf_spec Hna Ha) as [_ [_ HEa]].
  destruct (mantissaOf_spec Hnb Hb) as [_ [_ HEb]].
  apply binary_normalize_integer; try assumption; try lia.
  rewrite !aligned_integer by (try assumption; lia). lia.
Qed.

Lemma mul_ofZ a b :
  a <> 0 -> b <> 0 -> small (a * b) ->
  JS.mul (JS.ofZ a) (JS.ofZ b) = JS.ofZ (a * b).
Proof.
  intros Hna Hnb Hab.
  assert (Ha : small a) by (unfold small in *; nia).
  assert (Hb : small b) by (unfold small in *; nia).
  assert (Hnab : a * b <> 0) by nia.
  rewrite (ofZ_nonzero Hna Ha), (ofZ_nonzero Hnb Hb), (ofZ_nonzero Hnab Hab).
  destruct (mantissaOf_spec Hna Ha) as [Hma [_ HEa]].
  destruct (mantissaOf_spec Hnb Hb) as [Hmb [_ HEb]].
  destruct (mantissaOf_spec Hnab Hab) as [Hmab [Hdab HEab]].
  assert (Hlog : Z.log2 (Z.abs a) + Z.log2 (Z.abs b) <= Z.log2 (Z.abs (a * b))).
  { rewrite Z.abs_mul. apply Z.log2_mul_below; lia. }
  assert (Hsign : xorb (a <? 0) (b <? 0) = (a * b <? 0)).
  { destruct (a <? 0) eqn:E1, (b <? 0) eqn:E2, (a * b <? 0) eqn:E3; try reflexivity;
      rewrite ?Z.ltb_lt, ?Z.ltb_ge in *; nia. }
  set (j := exponentOf (a * b) - exponentOf a - exponentOf b).
  assert (Hj : 0 <= j) by (unfold j, exponentOf in *; lia).
  assert (Hval : Z.pos (mantissaOf a * mantissaOf b) = Z.pos (mantissaOf (a * b)) * 2 ^ j).
  { rewrite Pos2Z.inj_mul, Hma, Hmb, Hmab, Z.abs_mul.
    assert (Hp : 2 ^ (- exponentOf (a * b)) * 2 ^ j
                 = 2 ^ (- exponentOf a) * 2 ^ (- exponentOf b)).
    { rewrite <- !Z.pow_add_r by lia. f_equal. unfold j. lia. }
    transitivity (Z.abs a * Z.abs b * (2 ^ (- exponentOf (a * b)) * 2 ^ j));
      [rewrite Hp|]; ring. }
  unfold JS.mul, SFmul. rewrite Hsign.
  rewrite (@binary_round_aux_exact (a * b <? 0) _ j _ (exponentOf a + exponentOf b) Hdab Hj Hval)
    by (unfold j; lia).
  f_equal. unfold j. lia.
Qed.

(** *** Quotients, [Math.floor] and [Math.round] *)

Lemma div_core_nonneg mx ex my ey :
  0 <= fst (fst (SFdiv_core_binary JS.prec JS.emax (Z.pos mx) ex (Z.pos my) ey)).
Proof.
  unfold SFdiv_core_binary.
  set (m' := match _ - _ - _ with Z.pos _ => _ | Z0 => _ | Zneg _ => _ end).
  assert (Hm' : 0 <= m').
  { subst m'. destruct (_ - _ - _); try lia. apply Z.shiftl_nonneg. lia. }
  pose proof (Z_div_mod m' (Z.pos my) ltac:(lia)) as Hdiv.
  destruct (Z.div_eucl m' (Z.pos my)) as [q r]. simpl. nia.
Qed.

Lemma div_negative_by_magnitude x y :
  JS.lt x zero = true -> negativeOrNaN (JS.div x (JS.Math.abs y)).
Proof.
  intro Hx. unfold negativeOrNaN, JS.div, JS.Math.abs.
  destruct x as [sx | sx | | sx mx ex]; try discriminate Hx;
    destruct sx; try discriminate Hx.
  - destruct y as [sy | sy | | sy my ey]; simpl; auto.
  - destruct y as [sy | sy | | sy my ey]; simpl SFabs; unfold SFdiv; simpl xorb; auto.
    pose proof (div_core_nonneg mx ex my ey) as Hq.
    destruct (SFdiv_core_binary JS.prec JS.emax (Z.pos mx) ex (Z.pos my) ey)
      as [[q e'] l]. simpl in Hq.
    destruct (binary_round_aux_shape true e' l Hq) as [H | [H | [m'' [e'' [H _]]]]];
      rewrite H; eauto 6.
Qed.

Lemma shl_align_none m e e' : e <= e' -> shl_align m e e' = (m, e).
Proof. intro H. unfold shl_align. destruct (e' - e) eqn:E; try reflexivity. lia. Qed.

(** The double of a negative integer is an integer not above zero, or
    [-Infinity]. *)
Lemma ofZ_negative n :
  n < 0 -> JS.ofZ n = S754_infinity true \/ nonPositiveInteger (JS.ofZ n).
Proof.
  intro Hn. destruct (Z_lt_ge_dec (Z.abs n) (2 ^ 53)) as [Hs | Hbig].
  - right. rewrite (@ofZ_nonzero n) by (try assumption; lia).
    destruct (@mantissaOf_spec n ltac:(lia) Hs) as [Hm [_ HE]].
    replace (n <? 0) with true by (symmetry; now apply Z.ltb_lt).
    split; [|reflexivity]. simpl. rewrite Hm.
    rewrite Z.mod_mul by (apply Z.pow_nonzero; lia).
    apply orb_true_r.
  - destruct n as [|p|p]; try lia. unfold JS.ofZ, JS.dyadic. simpl binary_normalize.
    unfold binary_round.
    assert (Hd : 54 <= Z.pos (digits2_pos p)).
    { rewrite digits2_pos_log2.
      assert (53 <= Z.log2 (Z.pos p)); [|lia].
      apply Z.log2_le_pow2; lia. }
    rewrite shl_align_none.
    + destruct (binary_round_aux_shape true 0 loc_Exact (Pos2Z.is_nonneg p))
        as [H | [H | [m' [e' [H He']]]]]; rewrite H.
      * right. now split.
      * now left.
      * right. split; [|reflexivity]. simpl.
        replace (0 <=? e') with true by (symmetry; now apply Z.leb_le). reflexivity.
    + rewrite Z.add_0_r, fexp_normal by lia. lia.
Qed.

(** The floor of a negative number, of [-0] or of [NaN]. *)
Lemma floor_negative x :
  negativeOrNaN x ->
  JS.Math.floor x = S754_nan \/ JS.Math.floor x = S754_infinity true
  \/ nonPositiveInteger (JS.Math.floor x).
Proof.
  intros [-> | [-> | [-> | [m [e ->]]]]]; simpl; auto.
  - right; right. now split.
  - destruct (0 <=? e) eqn:He.
    + right; right. split; [|reflexivity]. simpl. now rewrite He.
    + apply Z.leb_gt in He. right.
      assert (Hneg : Z.neg m / 2 ^ (- e) < 0).
      { apply Z.div_lt_upper_bound; [apply Z.pow_pos_nonneg; lia | lia]. }
      unfold JS.integral. destruct (Z.neg m / 2 ^ (- e)) as [|q|q] eqn:Hq; try lia.
      rewrite <- Hq in *. now apply ofZ_negative.
Qed.

Lemma normalOf_shift p e c E t :
  normalOf p e c E -> -1074 <= E + t <= 971 -> normalOf p (e + t) c (E + t).
Proof.
  intros [Hc [HE Hval]] Ht. split; [exact Hc|]. split; [exact Ht|].
  replace (e + t - (E + t)) with (e - E) by lia.
  replace (E + t - (e + t)) with (E - e) by lia.
  destruct Hval as [[Hle Hv] | [Hle Hv]]; [left | right]; split; (lia || exact Hv).
Qed.

Lemma signed_mantissaOf z :
  z <> 0 -> small z -> JS.signed (z <? 0) (mantissaOf z) = z * 2 ^ (- exponentOf z).
Proof.
  intros Hz Hs. destruct (mantissaOf_spec Hz Hs) as [Hm _].
  rewrite <- (cond_Zopp_abs _ Hz), <- Hm.
  unfold JS.signed, cond_Zopp. now destruct (z <? 0).
Qed.

(** Halves of odd integers: [w / 2] is a double as it stands. *)
Lemma dyadic_half w :
  w <> 0 -> small w ->
  JS.dyadic w (-1) = S754_finite (w <? 0) (mantissaOf w) (exponentOf w - 1).
Proof.
  intros Hw Hs. destruct (mantissaOf_spec Hw Hs) as [_ [_ HE]].
  assert (Hn : forall p, Z.pos p = Z.abs w ->
                         normalOf p (-1) (mantissaOf w) (exponentOf w - 1)).
  { intros p Hp.
    replace (-1) with (0 + -1) by lia.
    replace (exponentOf w - 1) with (exponentOf w + -1) by lia.
    apply normalOf_shift; [|lia].
    apply normalOf_integer; try assumption; try lia. }
  unfold JS.dyadic.
  destruct w as [|p|p]; [contradiction | |]; simpl binary_normalize;
    apply binary_round_exact, Hn; reflexivity.
Qed.

(** [Math.round] sends [k + 1/2] to [k + 1] for every integer [k], negative
    ones included: ties go towards +Infinity. *)
Lemma round_half_integer k :
  small (2 * k + 1) ->
  JS.Math.round (JS.dyadic (2 * k + 1) (-1)) = JS.integral (k <? 0) (k + 1).
Proof.
  intro Hs. assert (Hw : 2 * k + 1 <> 0) by lia.
  destruct (mantissaOf_spec Hw Hs) as [_ [_ HE]].
  rewrite (dyadic_half Hw Hs). unfold JS.Math.round.
  replace (0 <=? exponentOf (2 * k + 1) - 1) with false by (symmetry; apply Z.leb_gt; lia).
  rewrite (signed_mantissaOf Hw Hs).
  replace (2 * k + 1 <? 0) with (k <? 0)
    by (destruct (k <? 0) eqn:E1, (2 * k + 1 <? 0) eqn:E2; try reflexivity;
        rewrite ?Z.ltb_lt, ?Z.ltb_ge in *; lia).
  f_equal.
  set (E := exponentOf (2 * k + 1)) in *.
  replace (- (E - 1)) with (- E + 1) by lia.
  replace (1 - (E - 1)) with (- E + 1 + 1) by lia.
  rewrite !Z.pow_add_r by lia. change (2 ^ 1) with 2.
  replace (2 * ((2 * k + 1) * 2 ^ (- E)) + 2 ^ (- E) * 2)
    with ((k + 1) * (2 ^ (- E) * 2 * 2)) by ring.
  apply Z.div_mul. assert (0 < 2 ^ (- E)) by (apply Z.pow_pos_nonneg; lia). lia.
Qed.

End Double.

(** * Facts about lists, maps and sorting *)

Lemma fold_left_ext_in (S X : Type) (f g : S -> X -> S) (l : list X) :
  (forall s x, In x l -> f s x = g s x) ->
  forall s, fold_left f l s = fold_left g l s.
Proof.
  induction l as [|x l IH]; intros H s; simpl; [reflexivity|].
  rewrite H by now left.
  apply IH. intros s' y Hy. apply H. now right.
Qed.

Lemma fold_left_map (S X Y : Type) (f : S -> Y -> S) (g : X -> Y) (l : list X) (s : S) :
  fold_left (fun acc x => f acc (g x)) l s = fold_left f (map g l) s.
Proof. revert s. induction l as [|x l IH]; intro s; simpl; [reflexivity | apply IH]. Qed.

Lemma StronglySorted_impl (A : Type) (R R' : A -> A -> Prop) (l : list A) :
  (forall a b, R a b -> R' a b) -> StronglySorted R l -> StronglySorted R' l.
Proof.
  intros Himpl. induction 1 as [|x l Hs IH Hall]; constructor; [assumption|].
  eapply Forall_impl; [|exact Hall]. intros b Hb. now apply Himpl.
Qed.

Lemma firstn_all_le (A : Type) (n : nat) (l : list A) :
  (List.length l <= n)%nat -> firstn n l = l.
Proof. intro H. now apply firstn_all2. Qed.

Lemma In_firstn (A : Type) (n : nat) (l : list A) (x : A) :
  In x (firstn n l) -> In x l.
Proof.
  revert l. induction n as [|n IH]; intros [|y l]; simpl; try contradiction.
  intros [-> | H]; [now left | right; now apply IH].
Qed.

Lemma sliceTo_firstn (A : Type) (n : nat) (l : list A) :
  sliceTo (Z.of_nat n) l = firstn n l.
Proof.
  unfold sliceTo, relativeIndex.
  destruct (Z.of_nat n <? 0) eqn:E; [apply Z.ltb_lt in E; lia|].
  destruct (Nat.le_gt_cases n (List.length l)) as [Hle | Hgt].
  - f_equal. lia.
  - rewrite !firstn_all_le by lia. reflexivity.
Qed.

Section GroupByFacts.
Variables X V : Type.
Variable key : X -> string.
Variable init : X -> V.
Variable upd : V -> X -> V.

Lemma existsb_eqb_In (k : string) (ks : list string) :
  existsb (String.eqb k) ks = true <-> In k ks.
Proof.
  rewrite existsb_exists. split.
  - intros [k' [Hin Heq]]. apply String.eqb_eq in Heq. now subst.
  - intro Hin. exists k. split; [assumption | apply String.eqb_refl].
Qed.

Lemma keysOf_snoc (l : list X) (x : X) :
  keysOf key (l ++ [x]) = addKey (keysOf key l) (key x).
Proof. unfold keysOf. now rewrite map_app, fold_left_app. Qed.

Lemma In_keysOf (l : list X) (k : string) :
  In k (keysOf key l) <-> exists x, In x l /\ key x = k.
Proof.
  revert k.
  induction l as [|x l IH] using rev_ind; intro k.
  - simpl. split; [contradiction | intros [x [[] _]]].
  - rewrite keysOf_snoc. unfold addKey.
    destruct (existsb (String.eqb (key x)) (keysOf key l)) eqn:E.
    + rewrite IH. apply existsb_eqb_In in E. apply IH in E.
      split.
      * intros [y [Hy Hk]]. exists y. split; [apply in_or_app; now left | assumption].
      * intros [y [Hy Hk]]. apply in_app_or in Hy. destruct Hy as [Hy | [Hy | []]].
        -- now exists y.
        -- subst y. destruct E as [z [Hz Hkz]]. exists z. split; congruence.
    + rewrite in_app_iff, IH. simpl. split.
      * intros [[y [Hy Hk]] | [Hk | []]].
        -- exists y. split; [apply in_or_app; now left | assumption].
        -- exists x. split; [apply in_or_app; right; now left | assumption].
      * intros [y [Hy Hk]]. apply in_app_or in Hy. destruct Hy as [Hy | [Hy | []]].
        -- left. now exists y.
        -- subst y. right. now left.
Qed.

Lemma NoDup_keysOf (l : list X) : NoDup (keysOf key l).
Proof.
  induction l as [|x l IH] using rev_ind.
  - constructor.
  - rewrite keysOf_snoc. unfold addKey.
    destruct (existsb (String.eqb (key x)) (keysOf key l)) eqn:E; [assumption|].
    apply NoDup_app; [assumption | repeat constructor; intros [] |].
    intros k Hin [<- | []]. apply existsb_eqb_In in Hin. congruence.
Qed.

Lemma bucket_snoc (k : string) (l : list X) (x : X) :
  bucket key k (l ++ [x])
  = if String.eqb (key x) k then bucket key k l ++ [x] else bucket key k l.
Proof.
  unfold bucket. rewrite filter_app. simpl.
  destruct (String.eqb (key x) k); [reflexivity | apply app_nil_r].
Qed.

Lemma bucket_absent (k : string) (l : list X) :
  ~ In k (keysOf key l) -> bucket key k l = [].
Proof.
  intro Hnot. unfold bucket.
  induction l as [|x l IH]; simpl; [reflexivity|].
  destruct (String.eqb (key x) k) eqn:E.
  - exfalso. apply Hnot. apply In_keysOf. exists x. split; [now left|].
    now apply String.eqb_eq.
  - apply IH. intro Hin. apply Hnot. apply In_keysOf. apply In_keysOf in Hin.
    destruct Hin as [y [Hy Hk]]. exists y. split; [now right | assumption].
Qed.

Lemma bucket_present (k : string) (l : list X) :
  In k (keysOf key l) -> bucket key k l <> [].
Proof.
  intro Hin. apply In_keysOf in Hin. destruct Hin as [x [Hx Hk]].
  assert (Hb : In x (bucket key k l)).
  { apply filter_In. split; [assumption | now apply String.eqb_eq]. }
  intro Hnil. now rewrite Hnil in Hb.
Qed.

Lemma map_get_tabulate_in (g : string -> V) ks k :
  In k ks -> map_get k (tabulate g ks) = Some (g k).
Proof.
  induction ks as [|k' ks IH]; simpl; [contradiction|].
  intros [-> | Hin].
  - now rewrite String.eqb_refl.
  - destruct (String.eqb k k') eqn:E; [|now apply IH].
    apply String.eqb_eq in E. now subst.
Qed.

Lemma map_get_tabulate_out (g : string -> V) ks k :
  ~ In k ks -> map_get k (tabulate g ks) = None.
Proof.
  induction ks as [|k' ks IH]; simpl; [reflexivity|].
  intro Hnot. destruct (String.eqb k k') eqn:E.
  - apply String.eqb_eq in E. subst. exfalso. apply Hnot. now left.
  - apply IH. intro Hin. apply Hnot. now right.
Qed.

Lemma tabulate_ext (g g' : string -> V) ks :
  (forall k, In k ks -> g k = g' k) -> tabulate g ks = tabulate g' ks.
Proof.
  intro H. unfold tabulate. apply map_ext_in. intros k Hin. now rewrite H.
Qed.

Lemma map_set_tabulate_out (g : string -> V) ks k v :
  ~ In k ks -> map_set k v (tabulate g ks) = tabulate g ks ++ [(k, v)].
Proof.
  induction ks as [|k' ks IH]; simpl; [reflexivity|].
  intro Hnot. destruct (String.eqb k k') eqn:E.
  - apply String.eqb_eq in E. subst. exfalso. apply Hnot. now left.
  - f_equal. apply IH. intro Hin. apply Hnot. now right.
Qed.

Lemma map_set_tabulate_in (g g' : string -> V) ks k v :
  NoDup ks -> In k ks -> g' k = v -> (forall k', k' <> k -> g' k' = g k') ->
  map_set k v (tabulate g ks) = tabulate g' ks.
Proof.
  intros Hnd Hin Hk Hother.
  induction ks as [|k' ks IH]; simpl; [contradiction|].
  inversion Hnd as [|? ? Hnotin Hnd']; subst.
  destruct (String.eqb k k') eqn:E.
  - apply String.eqb_eq in E. subst k'. f_equal.
    apply tabulate_ext. intros k1 H1. symmetry. apply Hother.
    intro; subst. contradiction.
  - apply String.eqb_neq in E. f_equal.
    + f_equal. symmetry. apply Hother. congruence.
    + apply IH; [assumption|].
      destruct Hin as [Heq | Hin]; [congruence | assumption].
Qed.

Lemma foldFrom_snoc (d : V) (b : list X) (x : X) :
  b <> [] -> foldFrom init upd d (b ++ [x]) = upd (foldFrom init upd d b) x.
Proof.
  destruct b as [|y b]; [congruence|]. intros _.
  simpl. now rewrite fold_left_app.
Qed.

(** One pass of [upsert] over [l] files every element under its key and
    folds the update over each bucket, keys in order of first occurrence. *)
Lemma fold_left_upsert (d : V) (l : list X) :
  fold_left (upsert key init upd) l [] =
  tabulate (fun k => foldFrom init upd d (bucket key k l)) (keysOf key l).
Proof.
  induction l as [|x l IH] using rev_ind; [reflexivity|].
  rewrite fold_left_app. simpl. rewrite IH. unfold upsert, map_getOr.
  rewrite keysOf_snoc. unfold addKey.
  destruct (existsb (String.eqb (key x)) (keysOf key l)) eqn:E.
  - apply existsb_eqb_In in E.
    rewrite (map_get_tabulate_in _ _ _ E).
    apply map_set_tabulate_in; [apply NoDup_keysOf | assumption | |].
    + rewrite bucket_snoc, String.eqb_refl.
      rewrite foldFrom_snoc by now apply bucket_present. reflexivity.
    + intros k' Hne. rewrite bucket_snoc.
      destruct (String.eqb (key x) k') eqn:E'; [|reflexivity].
      apply String.eqb_eq in E'. congruence.
  - assert (Hnot : ~ In (key x) (keysOf key l)).
    { intro Hin. apply existsb_eqb_In in Hin. congruence. }
    rewrite (map_get_tabulate_out _ _ _ Hnot).
    rewrite (map_set_tabulate_out _ _ _ _ Hnot).
    unfold tabulate. rewrite map_app. simpl. f_equal.
    + apply map_ext_in. intros k' Hin. rewrite bucket_snoc.
      destruct (String.eqb (key x) k') eqn:E'; [|reflexivity].
      apply String.eqb_eq in E'. congruence.
    + rewrite bucket_snoc, String.eqb_refl.
      rewrite (bucket_absent _ l Hnot). reflexivity.
Qed.
End GroupByFacts.

Section SortFacts.
Variable A : Type.
Variable after : A -> A -> bool.

Lemma insert_Permutation (x : A) (l : list A) : Permutation (x :: l) (insert after x l).
Proof.
  induction l as [|y l IH]; simpl; [reflexivity|].
  destruct (after x y); [|reflexivity].
  rewrite perm_swap. now constructor.
Qed.

Lemma sort_Permutation (l : list A) : Permutation l (sort after l).
Proof.
  induction l as [|x l IH]; simpl; [constructor|].
  rewrite <- insert_Permutation. now constructor.
Qed.

Lemma sort_In (l : list A) (x : A) : In x (sort after l) <-> In x l.
Proof.
  split; apply Permutation_in; [symmetry|]; apply sort_Permutation.
Qed.

Lemma sort_length (l : list A) : List.length (sort after l) = List.length l.
Proof. symmetry. apply Permutation_length, sort_Permutation. Qed.

Lemma sort_Forall (P : A -> Prop) (l : list A) : Forall P l -> Forall P (sort after l).
Proof. apply Permutation_Forall, sort_Permutation. Qed.

(** A comparator that is consistent, never positive both ways and with a
    transitive "not after", leaves the list in order. *)
Lemma insert_StronglySorted (x : A) (l : list A) :
  (forall a b, after a b = true -> after b a = false) ->
  (forall a b c, after a b = false -> after b c = false -> after a c = false) ->
  StronglySorted (fun a b => after a b = false) l ->
  StronglySorted (fun a b => after a b = false) (insert after x l).
Proof.
  intros after_asym before_trans.
  induction 1 as [|y l Hs IH Hall]; simpl.
  - repeat constructor.
  - destruct (after x y) eqn:E.
    + constructor; [assumption|].
      apply (Permutation_Forall (insert_Permutation x l)).
      constructor; [now apply after_asym | assumption].
    + constructor; [now constructor|].
      constructor; [assumption|].
      eapply Forall_impl; [|exact Hall].
      intros z Hz. now apply before_trans with y.
Qed.

Lemma sort_StronglySorted (l : list A) :
  (forall a b, after a b = true -> after b a = false) ->
  (forall a b c, after a b = false -> after b c = false -> after a c = false) ->
  StronglySorted (fun a b => after a b = false) (sort after l).
Proof.
  intros after_asym before_trans.
  induction l as [|x l IH]; simpl; [constructor|].
  now apply insert_StronglySorted.
Qed.
End SortFacts.

(** * Facts about the order of strings *)

Lemma ascii_compare_refl (a : ascii) : Ascii.compare a a = Eq.
Proof. unfold Ascii.compare. apply N.compare_refl. Qed.

Lemma ascii_compare_lt_trans (a b c : ascii) :
  Ascii.compare a b = Lt -> Ascii.compare b c = Lt -> Ascii.compare a c = Lt.
Proof.
  unfold Ascii.compare. rewrite !N.compare_lt_iff. apply N.lt_trans.
Qed.

Lemma string_compare_refl (s : string) : String.compare s s = Eq.
Proof. induction s as [|a s IH]; simpl; [reflexivity|]. now rewrite ascii_compare_refl. Qed.

Lemma string_compare_lt_trans (s1 s2 s3 : string) :
  String.compare s1 s2 = Lt -> String.compare s2 s3 = Lt -> String.compare s1 s3 = Lt.
Proof.
  revert s2 s3. induction s1 as [|a s1 IH]; intros [|b s2] [|c s3]; simpl;
    try congruence.
  destruct (Ascii.compare a b) eqn:Eab; try discriminate;
    destruct (Ascii.compare b c) eqn:Ebc; try discriminate; intros H12 H23.
  - apply Ascii.compare_eq_iff in Eab, Ebc. subst.
    rewrite ascii_compare_refl. now apply IH with s2.
  - apply Ascii.compare_eq_iff in Eab. subst. now rewrite Ebc.
  - apply Ascii.compare_eq_iff in Ebc. subst. now rewrite Eab.
  - now rewrite (ascii_compare_lt_trans _ _ _ Eab Ebc).
Qed.

Lemma string_compare_le_trans (s1 s2 s3 : string) :
  String.compare s1 s2 <> Gt -> String.compare s2 s3 <> Gt -> String.compare s1 s3 <> Gt.
Proof.
  intros H12 H23.
  destruct (String.compare s1 s2) eqn:E12; [| |congruence].
  - apply String.compare_eq_iff in E12. now subst.
  - destruct (String.compare s2 s3) eqn:E23; [| |congruence].
    + apply String.compare_eq_iff in E23. subst. now rewrite E12.
    + now rewrite (string_compare_lt_trans _ _ _ E12 E23).
Qed.

Lemma codeUnitCompare_asym (a b : string) :
  0 < Sample.codeUnitCompare a b -> Sample.codeUnitCompare b a <= 0.
Proof.
  unfold Sample.codeUnitCompare. rewrite (String.compare_antisym b a).
  destruct (String.compare a b); simpl; lia.
Qed.

Lemma codeUnitCompare_trans (a b c : string) :
  Sample.codeUnitCompare a b <= 0 -> Sample.codeUnitCompare b c <= 0 ->
  Sample.codeUnitCompare a c <= 0.
Proof.
  unfold Sample.codeUnitCompare. intros Hab Hbc.
  assert (H : String.compare a c <> Gt).
  { apply string_compare_le_trans with b.
    - destruct (String.compare a b); [congruence | congruence | lia].
    - destruct (String.compare b c); [congruence | congruence | lia]. }
  destruct (String.compare a c); [lia | lia | congruence].
Qed.

(** * Reversed transactions contribute nothing *)

Section Reversals.
Context {host : Host}.

(** The exclusion test holds exactly when one of the three markers is
    present: a flag that reads ["true"], or a truthy reference. *)
Lemma isReversedOrReverse_iff (tx : Transaction) :
  isReversedOrReverse tx = true <->
  IsReverse tx = Some "true" \/ IsReversed tx = Some "true"
  \/ Boolean (ReverseTransactionID tx) = true.
Proof.
  unfold isReversedOrReverse, isTrue.
  rewrite !orb_true_iff.
  destruct (IsReverse tx) as [a|], (IsReversed tx) as [b|];
    rewrite ?String.eqb_eq; intuition (try congruence).
Qed.

Lemma fold_left_withoutReversals (S : Type) (step : S -> Transaction -> S) :
  (forall s tx, isReversedOrReverse tx = true -> step s tx = s) ->
  forall transactions s,
    fold_left step (withoutReversals transactions) s = fold_left step transactions s.
Proof.
  intros step_skips transactions.
  induction transactions as [|tx rest IH]; intro s; simpl.
  - reflexivity.
  - destruct (isReversedOrReverse tx) eqn:E; simpl.
    + rewrite (step_skips s tx E). apply IH.
    + apply IH.
Qed.

Lemma monthlyStep_skips s tx : isReversedOrReverse tx = true -> monthlyStep s tx = s.
Proof. intro E. unfold monthlyStep. now rewrite E. Qed.

Lemma incomeStep_skips s tx : isReversedOrReverse tx = true -> incomeStep s tx = s.
Proof. intro E. unfold incomeStep. now rewrite E. Qed.

Lemma expenseStep_skips s tx : isReversedOrReverse tx = true -> expenseStep s tx = s.
Proof. intro E. unfold expenseStep. now rewrite E. Qed.

Lemma categoryStep_skips s tx : isReversedOrReverse tx = true -> categoryStep s tx = s.
Proof. intro E. unfold categoryStep. now rewrite E. Qed.

Lemma contributionStep_skips s tx : isReversedOrReverse tx = true -> contributionStep s tx = s.
Proof. intro E. unfold contributionStep. destruct s. now rewrite E. Qed.

Lemma recurringStep_skips s tx : isReversedOrReverse tx = true -> recurringStep s tx = s.
Proof. intro E. unfold recurringStep. now rewrite E. Qed.

Lemma salaryStep_skips s tx : isReversedOrReverse tx = true -> salaryStep s tx = s.
Proof. intro E. unfold salaryStep. now rewrite E. Qed.

Lemma largestStep_skips s tx : isReversedOrReverse tx = true -> largestStep s tx = s.
Proof. intro E. unfold largestStep. now rewrite E. Qed.

Lemma calculateMonthlyData_withoutReversals transactions :
  calculateMonthlyData (withoutReversals transactions) = calculateMonthlyData transactions.
Proof.
  unfold calculateMonthlyData.
  now rewrite (fold_left_withoutReversals _ monthlyStep_skips).
Qed.

Lemma getLargestSingleContributions_withoutReversals transactions limit :
  getLargestSingleContributions (withoutReversals transactions) limit
  = getLargestSingleContributions transactions limit.
Proof.
  unfold getLargestSingleContributions.
  now rewrite (fold_left_withoutReversals _ largestStep_skips).
Qed.

(** C1. For every transaction list and every report function, removing all
    transactions that are reversals or have been reversed (flag
    ["Is Reverse"] or ["Is Reversed"] set, or a reverse-transaction
    reference present) leaves the output identical: such transactions
    contribute to no aggregate. *)
Theorem reversed_transactions_contribute_nothing
  (transactions : list Transaction) (monthsToAverage limit : Z) :
  calculateMonthlyData (withoutReversals transactions)
    = calculateMonthlyData transactions
  /\ analyzeIncomeSources (withoutReversals transactions)
    = analyzeIncomeSources transactions
  /\ analyzeExpenses (withoutReversals transactions)
    = analyzeExpenses transactions
  /\ analyzeExpensesByCategory (withoutReversals transactions)
    = analyzeExpensesByCategory transactions
  /\ analyzeContributions (withoutReversals transactions)
    = analyzeContributions transactions
  /\ analyzeMonthlyRecurringContributions (withoutReversals transactions)
    = analyzeMonthlyRecurringContributions transactions
  /\ analyzeSalariedExpenses (withoutReversals transactions)
    = analyzeSalariedExpenses transactions
  /\ calculateRunwayProjection (withoutReversals transactions) monthsToAverage
    = calculateRunwayProjection transactions monthsToAverage
  /\ getLargestSingleContributions (withoutReversals transactions) limit
    = getLargestSingleContributions transactions limit
  /\ getLargestOneTimeContributions (withoutReversals transactions) limit
    = getLargestOneTimeContributions transactions limit.
Proof.
  repeat split.
  - apply calculateMonthlyData_withoutReversals.
  - unfold analyzeIncomeSources.
    now rewrite (fold_left_withoutReversals _ incomeStep_skips).
  - unfold analyzeExpenses.
    now rewrite (fold_left_withoutReversals _ expenseStep_skips).
  - unfold analyzeExpensesByCategory.
    now rewrite (fold_left_withoutReversals _ categoryStep_skips).
  - unfold analyzeContributions.
    now rewrite (fold_left_withoutReversals _ contributionStep_skips).
  - unfold analyzeMonthlyRecurringContributions.
    now rewrite (fold_left_withoutReversals _ recurringStep_skips).
  - unfold analyzeSalariedExpenses.
    now rewrite (fold_left_withoutReversals _ salaryStep_skips).
  - unfold calculateRunwayProjection, currentBalance, averageMonthlyNet,
      averageMonthlyIncome, averageMonthlyExpenses, recentMonths.
    now rewrite calculateMonthlyData_withoutReversals.
  - apply getLargestSingleContributions_withoutReversals.
  - unfold getLargestOneTimeContributions.
    now rewrite getLargestSingleContributions_withoutReversals.
Qed.

End Reversals.

(** * The monthly summary *)

Section MonthlySummary.
Context {host : Host}.

Lemma fold_left_flowUpdate (l : list Transaction) (i e : JS.number) :
  fold_left flowUpdate l (Flow.Build_t i e) =
  Flow.Build_t
    (fold_left JS.add (map AmountSingleColumn (filter isCredit l)) i)
    (fold_left JS.add (map (fun tx => JS.Math.abs (AmountSingleColumn tx)) (filter isDebit l)) e).
Proof.
  revert i e.
  induction l as [|tx l IH]; intros i e; simpl; [reflexivity|].
  unfold flowUpdate at 2, isCredit, isDebit.
  destruct (CreditDebit tx); simpl; apply IH.
Qed.

Lemma foldFrom_flowUpdate (b : list Transaction) :
  foldFrom (fun _ => Flow.Build_t zero zero) flowUpdate (Flow.Build_t zero zero) b
  = Flow.Build_t (creditTotal b) (debitTotal b).
Proof.
  unfold foldFrom, creditTotal, debitTotal, total.
  destruct b as [|tx b]; [reflexivity|]. apply fold_left_flowUpdate.
Qed.

(** The map the loop of [calculateMonthlyData] builds. *)
Lemma monthlyMap_spec (transactions : list Transaction) :
  fold_left monthlyStep transactions [] =
  tabulate
    (fun m => Flow.Build_t (creditTotal (monthTransactions m transactions))
                           (debitTotal (monthTransactions m transactions)))
    (monthKeys transactions).
Proof.
  rewrite <- (fold_left_withoutReversals _ monthlyStep_skips).
  rewrite fold_left_ext_in
    with (g := upsert monthOf (fun _ => Flow.Build_t zero zero) flowUpdate).
  - rewrite (fold_left_upsert _ _ _ (Flow.Build_t zero zero)).
    apply tabulate_ext. intros m _. apply foldFrom_flowUpdate.
  - intros s tx Hin. apply filter_In in Hin. destruct Hin as [_ Hlive].
    apply negb_true_iff in Hlive. unfold monthlyStep. rewrite Hlive. reflexivity.
Qed.

Lemma calculateMonthlyData_spec (transactions : list Transaction) :
  calculateMonthlyData transactions =
  sort (fun a b => afterMonth (MonthlyData.month a) (MonthlyData.month b))
       (map (summaryRow transactions) (monthKeys transactions)).
Proof.
  unfold calculateMonthlyData. rewrite monthlyMap_spec.
  unfold tabulate. now rewrite map_map.
Qed.

Lemma months_of_summary (transactions : list Transaction) :
  Permutation (monthKeys transactions)
              (map MonthlyData.month (calculateMonthlyData transactions)).
Proof.
  rewrite calculateMonthlyData_spec.
  rewrite <- sort_Permutation, map_map. simpl. now rewrite map_id.
Qed.

Lemma summary_row_of (transactions : list Transaction) (r : MonthlyData.t) :
  In r (calculateMonthlyData transactions) ->
  r = summaryRow transactions (MonthlyData.month r).
Proof.
  rewrite calculateMonthlyData_spec. intro H. apply sort_In in H.
  apply in_map_iff in H. destruct H as [m [<- _]]. reflexivity.
Qed.

(** C2, as amended. [calculateMonthlyData] returns one row per distinct
    month key of the non-excluded transactions; a row's income is the sum of
    the month's CREDIT amounts rounded to cents, its expenses the sum of the
    absolute values of the month's DEBIT amounts rounded to cents, and its
    net the difference of the two unrounded sums, rounded to cents; with a
    consistent collation the rows are in ascending order of month key. *)
Theorem monthly_summary_rows (transactions : list Transaction)
  (collation_asym : forall a b, 0 < localeCompare a b -> localeCompare b a <= 0)
  (collation_trans : forall a b c,
      localeCompare a b <= 0 -> localeCompare b c <= 0 -> localeCompare a c <= 0) :
  let rows := calculateMonthlyData transactions in
  NoDup (map MonthlyData.month rows)
  /\ (forall m, In m (map MonthlyData.month rows) <->
                exists tx, In tx transactions
                           /\ isReversedOrReverse tx = false /\ monthOf tx = m)
  /\ (forall r, In r rows ->
        let credits := creditTotal (monthTransactions (MonthlyData.month r) transactions) in
        let debits := debitTotal (monthTransactions (MonthlyData.month r) transactions) in
        MonthlyData.income r = round2 credits
        /\ MonthlyData.expenses r = round2 debits
        /\ MonthlyData.net r = round2 (JS.sub credits debits))
  /\ StronglySorted
       (fun a b => localeCompare (MonthlyData.month a) (MonthlyData.month b) <= 0) rows.
Proof.
  intro rows. split; [|split; [|split]].
  - apply (Permutation_NoDup (months_of_summary transactions)), NoDup_keysOf.
  - intro m. split.
    + intro Hin.
      apply (Permutation_in _ (Permutation_sym (months_of_summary transactions))) in Hin.
      apply In_keysOf in Hin. destruct Hin as [tx [Htx Hm]].
      apply filter_In in Htx. destruct Htx as [Htx Hlive].
      exists tx. repeat split; [assumption | now apply negb_true_iff | assumption].
    + intros [tx [Htx [Hlive Hm]]].
      apply (Permutation_in _ (months_of_summary transactions)).
      apply In_keysOf. exists tx. split; [|assumption].
      apply filter_In. split; [assumption | now apply negb_true_iff].
  - intros r Hr credits debits. subst credits debits.
    rewrite (summary_row_of _ _ Hr). simpl. auto.
  - subst rows. unfold calculateMonthlyData.
    eapply StronglySorted_impl; [| apply sort_StronglySorted].
    + intros a b Hab. unfold afterMonth in Hab. apply Z.ltb_ge in Hab. exact Hab.
    + intros a b Hab. unfold afterMonth in *. apply Z.ltb_lt in Hab.
      apply Z.ltb_ge. now apply collation_asym.
    + intros a b c Hab Hbc. unfold afterMonth in *.
      apply Z.ltb_ge in Hab, Hbc. apply Z.ltb_ge.
      now apply collation_trans with (MonthlyData.month b).
Qed.

End MonthlySummary.

(** The monthly summary of the sample ledger [Sample.splitCents]: income
    0.13, expenses 0.06 and net 0.06, one cent less than their difference.
    On [Sample.thirtyCents], whose amounts are whole cents, the net is 0.2
    and the difference of income 0.3 and expenses 0.1, taken as the code
    would take it, is the neighbouring double 0.19999999999999998. *)
Lemma monthly_net_differs_from_income_minus_expenses :
  (exists r, In r (calculateMonthlyData Sample.splitCents)
             /\ MonthlyData.income r = JS.div (JS.ofZ 13) (JS.ofZ 100)
             /\ MonthlyData.expenses r = JS.div (JS.ofZ 6) (JS.ofZ 100)
             /\ MonthlyData.net r = JS.div (JS.ofZ 6) (JS.ofZ 100)
             /\ MonthlyData.net r <> JS.sub (MonthlyData.income r) (MonthlyData.expenses r))
  /\ (exists r, In r (calculateMonthlyData Sample.thirtyCents)
                /\ MonthlyData.income r = JS.div (JS.ofZ 3) (JS.ofZ 10)
                /\ MonthlyData.expenses r = JS.div (JS.ofZ 1) (JS.ofZ 10)
                /\ MonthlyData.net r = JS.div (JS.ofZ 2) (JS.ofZ 10)
                /\ JS.lt (JS.sub (MonthlyData.income r) (MonthlyData.expenses r))
                         (MonthlyData.net r) = true).
Proof.
  split.
  - eexists. split; [left; reflexivity|].
    repeat split; try (vm_compute; reflexivity).
    vm_compute. discriminate.
  - eexists. split; [left; reflexivity|].
    repeat split; vm_compute; reflexivity.
Qed.

Lemma monthly_summary_rows_witness :
  let rows := calculateMonthlyData Sample.splitCents in
  NoDup (map MonthlyData.month rows)
  /\ (forall m, In m (map MonthlyData.month rows) <->
                exists tx, In tx Sample.splitCents
                           /\ isReversedOrReverse tx = false /\ monthOf tx = m)
  /\ (forall r, In r rows ->
        let credits := creditTotal (monthTransactions (MonthlyData.month r) Sample.splitCents) in
        let debits := debitTotal (monthTransactions (MonthlyData.month r) Sample.splitCents) in
        MonthlyData.income r = round2 credits
        /\ MonthlyData.expenses r = round2 debits
        /\ MonthlyData.net r = round2 (JS.sub credits debits))
  /\ StronglySorted
       (fun a b => localeCompare (MonthlyData.month a) (MonthlyData.month b) <= 0) rows.
Proof.
  exact (monthly_summary_rows Sample.splitCents codeUnitCompare_asym codeUnitCompare_trans).
Defined.

(** * The runway projection *)

Section Runway.
Context {host : Host}.

(** C6. The [currentBalance] of the runway projection is the sum of the net
    values of all the rows of the monthly summary, whatever the averaging
    window, rounded to cents. *)
Theorem runway_balance_is_sum_of_all_monthly_nets
  (transactions : list Transaction) (monthsToAverage : Z) :
  RunwayProjection.currentBalance (calculateRunwayProjection transactions monthsToAverage)
  = round2 (total (map MonthlyData.net (calculateMonthlyData transactions))).
Proof.
  simpl. f_equal. unfold currentBalance, sumOver, total.
  apply fold_left_map.
Qed.

End Runway.

(** * The largest contributions *)

Section Largest.
Context {host : Host}.

Lemma largestStep_spec (transactions : list Transaction) :
  fold_left largestStep transactions [] = creditContributions transactions.
Proof.
  unfold creditContributions.
  induction transactions as [|tx l IH] using rev_ind; [reflexivity|].
  rewrite fold_left_app, filter_app, map_app, IH. simpl.
  unfold largestStep, isCredit.
  destruct (isReversedOrReverse tx); simpl; [now rewrite app_nil_r|].
  destruct (Direction_eqb (CreditDebit tx) CREDIT); simpl; [reflexivity|].
  now rewrite app_nil_r.
Qed.

Lemma filter_length_Permutation (A : Type) (f : A -> bool) (l l' : list A) :
  Permutation l l' -> List.length (filter f l) = List.length (filter f l').
Proof.
  induction 1 as [| x l l' _ IH | x y l | l l' l'' _ IH1 _ IH2]; simpl.
  - reflexivity.
  - destruct (f x); simpl; congruence.
  - destruct (f x), (f y); reflexivity.
  - congruence.
Qed.

(** C5. [getLargestOneTimeContributions] takes the 1000 largest non-excluded
    CREDIT transactions by descending amount, keeps the non-recurring ones
    among them and then the first [N] of those; so when there are at most
    1000 such transactions and at most [N] one-time ones, as with 3 one-time
    and 7 recurring contributions and the limit 5, it returns exactly the
    one-time contributions in descending order of amount. *)
Theorem largest_one_time_is_limited_then_filtered
  (transactions : list Transaction) (N : nat) :
  getLargestOneTimeContributions transactions (Z.of_nat N)
  = firstn N (filter isOneTime
                (firstn 1000 (byAmountDescending (creditContributions transactions))))
  /\ ((List.length (creditContributions transactions) <= 1000)%nat ->
      (List.length (filter isOneTime (creditContributions transactions)) <= N)%nat ->
      getLargestOneTimeContributions transactions (Z.of_nat N)
      = filter isOneTime (byAmountDescending (creditContributions transactions)))
  /\ map (fun c => (SingleContribution.source c, SingleContribution.amount c))
         (getLargestOneTimeContributions (host := Sample.host) Sample.tenContributions 5)
     = [("Barbara", JS.ofZ 850); ("Grace", JS.ofZ 450); ("Leslie", JS.ofZ 100)].
Proof.
  assert (Hgen : getLargestOneTimeContributions transactions (Z.of_nat N)
                 = firstn N (filter isOneTime
                      (firstn 1000 (byAmountDescending (creditContributions transactions))))).
  { unfold getLargestOneTimeContributions, getLargestSingleContributions.
    rewrite largestStep_spec, sliceTo_firstn.
    change 1000 with (Z.of_nat 1000). now rewrite sliceTo_firstn. }
  split; [exact Hgen|]. split.
  - intros Hcap HN. rewrite Hgen.
    rewrite (firstn_all_le (n := 1000)).
    + apply firstn_all_le.
      unfold byAmountDescending.
      now rewrite <- (filter_length_Permutation _ (sort_Permutation _ _)).
    + unfold byAmountDescending. now rewrite sort_length.
  - vm_compute. reflexivity.
Qed.

End Largest.

Lemma largest_one_time_is_limited_then_filtered_witness :
  getLargestOneTimeContributions Sample.tenContributions (Z.of_nat 5)
  = filter isOneTime (byAmountDescending (creditContributions Sample.tenContributions)).
Proof.
  apply (proj1 (proj2 (largest_one_time_is_limited_then_filtered Sample.tenContributions 5)));
    vm_compute; lia.
Defined.

(** With more than a thousand larger recurring contributions ahead of it, a
    one-time contribution is cut off by the intermediate limit: filtering
    the whole list first would have kept it. *)
Lemma intermediate_limit_cuts_off :
  getLargestOneTimeContributions Sample.crowded 5 = []
  /\ List.length (filter isOneTime (byAmountDescending (creditContributions Sample.crowded)))
     = 1%nat.
Proof. split; vm_compute; reflexivity. Qed.

(** * Expense categories *)

Section Categories.
Context {host : Host}.

(** Both variants evaluate their rules in a fixed order, the first match
    deciding; the full variant has one rule more, at the end. *)
Lemma expenseCategory_firstMatch (tx : Transaction) :
  expenseCategory tx
  = firstMatch [paidMaintainers; communityIncentives; miscellaneous]
               (effectiveCategory tx) (toLowerCase (Description tx)).
Proof. reflexivity. Qed.

Lemma full_expenseCategory_firstMatch (tx : Transaction) :
  Full.expenseCategory tx
  = firstMatch [paidMaintainers; communityIncentives; miscellaneous; ocFees]
               (effectiveCategory tx) (toLowerCase (Description tx)).
Proof. reflexivity. Qed.

Lemma categoryStep_live_debit (m : smap Tally.t) (tx : Transaction) :
  isReversedOrReverse tx = false -> CreditDebit tx = DEBIT ->
  categoryStep m tx
  = tallyInto (expenseCategory tx) (JS.Math.abs (AmountSingleColumn tx)) m.
Proof. intros Hlive Hdebit. unfold categoryStep. now rewrite Hlive, Hdebit. Qed.

Lemma full_categoryStep_live_debit (m : smap Tally.t) (tx : Transaction) :
  isReversedOrReverse tx = false -> CreditDebit tx = DEBIT ->
  Full.categoryStep m tx
  = tallyInto (Full.expenseCategory tx) (JS.Math.abs (AmountSingleColumn tx)) m.
Proof. intros Hlive Hdebit. unfold Full.categoryStep. now rewrite Hlive, Hdebit. Qed.

(** C8. The classification is a function that tries its rules in a fixed
    order, the first match deciding: a non-excluded DEBIT transaction whose
    effective category starts with ["Consultants"] and whose lower-cased
    description contains ["community award"] is filed under
    ["Paid Maintainers"] by [analyzeExpensesByCategory], in either variant,
    and never under ["Community Incentives"]. *)
Theorem consultants_win_over_community_award
  (tx : Transaction) (categoryMap : smap Tally.t)
  (Hlive : isReversedOrReverse tx = false)
  (Hdebit : CreditDebit tx = DEBIT)
  (Hcategory : Str.startsWith "Consultants" (effectiveCategory tx) = true)
  (Hdescription : Str.includes "community award" (toLowerCase (Description tx)) = true) :
  expenseCategory tx
    = firstMatch [paidMaintainers; communityIncentives; miscellaneous]
                 (effectiveCategory tx) (toLowerCase (Description tx))
  /\ expenseCategory tx = "Paid Maintainers"
  /\ expenseCategory tx <> "Community Incentives"
  /\ Full.expenseCategory tx = "Paid Maintainers"
  /\ categoryStep categoryMap tx
     = tallyInto "Paid Maintainers" (JS.Math.abs (AmountSingleColumn tx)) categoryMap
  /\ map SourceBreakdown.source (analyzeExpensesByCategory [tx]) = ["Paid Maintainers"]
  /\ map SourceBreakdown.source (Full.analyzeExpensesByCategory [tx]) = ["Paid Maintainers"].
Proof.
  assert (H : expenseCategory tx = "Paid Maintainers").
  { unfold expenseCategory. now rewrite Hcategory. }
  assert (HF : Full.expenseCategory tx = "Paid Maintainers").
  { unfold Full.expenseCategory. now rewrite Hcategory. }
  split; [reflexivity|]. split; [exact H|]. split; [rewrite H; discriminate|].
  split; [exact HF|]. split; [|split].
  - now rewrite categoryStep_live_debit, H.
  - unfold analyzeExpensesByCategory. simpl fold_left.
    rewrite categoryStep_live_debit, H by assumption. reflexivity.
  - unfold Full.analyzeExpensesByCategory. simpl fold_left.
    rewrite full_categoryStep_live_debit, HF by assumption. reflexivity.
Qed.

Lemma expenseCategory_variants_agree (tx : Transaction) :
  effectiveCategory tx <> "HOST_FEE" -> Full.expenseCategory tx = expenseCategory tx.
Proof.
  intro Hne. apply String.eqb_neq in Hne.
  unfold Full.expenseCategory, expenseCategory. now rewrite Hne.
Qed.

(** C9. The two variants of [analyzeExpensesByCategory] differ in the
    HOST_FEE rule alone: on a transaction list without a non-excluded DEBIT
    transaction whose effective category is exactly ["HOST_FEE"] they
    return equal outputs, and such a transaction, when no earlier rule
    matches it, is filed under ["OC Fees"] by the full variant and under
    ["HOST_FEE"] by the abridged one. *)
Theorem variants_differ_in_the_host_fee_rule_only :
  (forall transactions : list Transaction,
      (forall tx, In tx transactions -> isReversedOrReverse tx = false ->
                  CreditDebit tx = DEBIT -> effectiveCategory tx <> "HOST_FEE") ->
      Full.analyzeExpensesByCategory transactions = analyzeExpensesByCategory transactions)
  /\ (forall (tx : Transaction) (categoryMap : smap Tally.t),
         isReversedOrReverse tx = false -> CreditDebit tx = DEBIT ->
         effectiveCategory tx = "HOST_FEE" ->
         Str.includes "core maintainer stipend" (toLowerCase (Description tx)) = false ->
         Str.includes "community award" (toLowerCase (Description tx)) = false ->
         Full.expenseCategory tx = "OC Fees"
         /\ expenseCategory tx = "HOST_FEE"
         /\ Full.categoryStep categoryMap tx
            = tallyInto "OC Fees" (JS.Math.abs (AmountSingleColumn tx)) categoryMap
         /\ categoryStep categoryMap tx
            = tallyInto "HOST_FEE" (JS.Math.abs (AmountSingleColumn tx)) categoryMap).
Proof.
  split.
  - intros transactions Hnone.
    unfold Full.analyzeExpensesByCategory, analyzeExpensesByCategory. f_equal.
    apply fold_left_ext_in. intros m tx Hin.
    unfold Full.categoryStep, categoryStep.
    destruct (isReversedOrReverse tx) eqn:Hlive; [reflexivity|].
    destruct (CreditDebit tx) eqn:Hdir; simpl; [reflexivity|].
    rewrite expenseCategory_variants_agree; [reflexivity|].
    now apply Hnone.
  - intros tx categoryMap Hlive Hdebit Hcat Hstipend Haward.
    assert (HF : Full.expenseCategory tx = "OC Fees").
    { unfold Full.expenseCategory. rewrite Hcat, Hstipend, Haward. reflexivity. }
    assert (HA : expenseCategory tx = "HOST_FEE").
    { unfold expenseCategory. rewrite Hcat, Hstipend, Haward. reflexivity. }
    repeat split; try assumption.
    + now rewrite full_categoryStep_live_debit, HF.
    + now rewrite categoryStep_live_debit, HA.
Qed.

End Categories.

Lemma consultants_win_over_community_award_witness :
  expenseCategory Sample.consultantAward
    = firstMatch [paidMaintainers; communityIncentives; miscellaneous]
                 (effectiveCategory Sample.consultantAward)
                 (toLowerCase (Description Sample.consultantAward))
  /\ expenseCategory Sample.consultantAward = "Paid Maintainers"
  /\ expenseCategory Sample.consultantAward <> "Community Incentives"
  /\ Full.expenseCategory Sample.consultantAward = "Paid Maintainers"
  /\ categoryStep [] Sample.consultantAward
     = tallyInto "Paid Maintainers"
                 (JS.Math.abs (AmountSingleColumn Sample.consultantAward)) []
  /\ map SourceBreakdown.source (analyzeExpensesByCategory [Sample.consultantAward])
     = ["Paid Maintainers"]
  /\ map SourceBreakdown.source (Full.analyzeExpensesByCategory [Sample.consultantAward])
     = ["Paid Maintainers"].
Proof.
  apply (consultants_win_over_community_award Sample.consultantAward []); reflexivity.
Defined.

Lemma variants_differ_in_the_host_fee_rule_only_witness :
  Full.analyzeExpensesByCategory Sample.aprilExpenses
    = analyzeExpensesByCategory Sample.aprilExpenses
  /\ Full.expenseCategory Sample.hostFee = "OC Fees"
  /\ expenseCategory Sample.hostFee = "HOST_FEE".
Proof.
  split.
  - apply (proj1 variants_differ_in_the_host_fee_rule_only).
    intros tx [<- | [<- | [<- | []]]] _ _; vm_compute; discriminate.
  - destruct (proj2 variants_differ_in_the_host_fee_rule_only Sample.hostFee [])
      as [H1 [H2 _]]; try reflexivity.
    now split.
Defined.

(** * The contribution analysis *)

Section Contributions.
Context {host : Host}.

Lemma fold_left_Zadd (A : Type) (f : A -> Z) (l : list A) (a : Z) :
  fold_left (fun sum c => sum + f c) l a = a + sumZ (map f l).
Proof.
  revert a. induction l as [|x l IH]; intro a; simpl; [lia|].
  rewrite IH. unfold sumZ. lia.
Qed.

Lemma rollUp_spec (l : list SourceBreakdown.t) :
  ContributorAnalysis.count (rollUp l) = sumZ (map SourceBreakdown.count l)
  /\ ContributorAnalysis.amount (rollUp l) = round2 (total (map SourceBreakdown.amount l))
  /\ ContributorAnalysis.contributors (rollUp l) = l.
Proof.
  unfold rollUp, sumCount, sumAmount, total. simpl. repeat split.
  - now rewrite fold_left_Zadd.
  - f_equal. apply fold_left_map.
Qed.

(** C10. In the result of [analyzeContributions], of either variant, each
    side rolls up its contributors: its count is the sum of their counts,
    and its amount the sum of their amounts, rounded to cents. *)
Theorem contribution_sides_roll_up (transactions : list Transaction) :
  let rolledUp (side : ContributorAnalysis.side) :=
    ContributorAnalysis.count side
      = sumZ (map SourceBreakdown.count (ContributorAnalysis.contributors side))
    /\ ContributorAnalysis.amount side
      = round2 (total (map SourceBreakdown.amount (ContributorAnalysis.contributors side))) in
  rolledUp (ContributorAnalysis.recurring (analyzeContributions transactions))
  /\ rolledUp (ContributorAnalysis.oneTime (analyzeContributions transactions))
  /\ rolledUp (ContributorAnalysis.recurring (Full.analyzeContributions transactions))
  /\ rolledUp (ContributorAnalysis.oneTime (Full.analyzeContributions transactions)).
Proof.
  intro rolledUp. subst rolledUp.
  unfold analyzeContributions, Full.analyzeContributions.
  destruct (fold_left contributionStep transactions ([], [])) as [recurringMap oneTimeMap].
  cbv beta. simpl ContributorAnalysis.recurring. simpl ContributorAnalysis.oneTime.
  pose proof (rollUp_spec (toBreakdown recurringMap)) as [Hc [Ha Hl]].
  pose proof (rollUp_spec (toBreakdown oneTimeMap)) as [Hc' [Ha' Hl']].
  rewrite Hl, Hl'. auto 10.
Qed.

End Contributions.

(** * Month keys *)

Lemma years_ok : forallb yearOk (zrange 1000 (Z.to_nat 9000)) = true.
Proof. vm_compute. reflexivity. Qed.

Lemma months_ok : forallb monthOk (zrange 0 (Z.to_nat 12)) = true.
Proof. vm_compute. reflexivity. Qed.

Lemma In_zrange (n : nat) (start y : Z) :
  start <= y < start + Z.of_nat n -> In y (zrange start n).
Proof.
  revert start. induction n as [|n IH]; intros start H.
  - simpl in H. lia.
  - simpl. destruct (Z.eq_dec start y) as [-> | Hne]; [now left | right].
    apply IH. lia.
Qed.

Lemma year_checked (y : Z) : 1000 <= y <= 9999 -> yearOk y = true.
Proof.
  intro H. pose proof years_ok as Hall. rewrite forallb_forall in Hall.
  apply Hall, In_zrange. lia.
Qed.

Lemma month_checked (m : Z) : 0 <= m <= 11 -> monthOk m = true.
Proof.
  intro H. pose proof months_ok as Hall. rewrite forallb_forall in Hall.
  apply Hall, In_zrange. lia.
Qed.

Lemma year_facts (y : Z) :
  1000 <= y <= 9999 ->
  String.length (yearText y) = 4%nat
  /\ noDash (yearText y) = true
  /\ Str.digitsValue 0 (yearText y) = Some y
  /\ (y < 9999 -> String.compare (yearText y) (yearText (y + 1)) = Lt).
Proof.
  intro H. pose proof (year_checked H) as Hok. unfold yearOk in Hok.
  rewrite !andb_true_iff in Hok. destruct Hok as [[[Hlen Hdash] Hval] Hnext].
  split; [now apply Nat.eqb_eq|]. split; [assumption|]. split.
  - destruct (Str.digitsValue 0 (yearText y)) as [v|]; [|discriminate].
    apply Z.eqb_eq in Hval. now subst.
  - intro Hlt. apply orb_true_iff in Hnext. destruct Hnext as [Hlast | Hnext].
    + apply Z.eqb_eq in Hlast. lia.
    + now destruct (String.compare (yearText y) (yearText (y + 1))).
Qed.

Lemma month_facts (m : Z) :
  0 <= m <= 11 ->
  String.length (monthText m) = 2%nat
  /\ noDash (monthText m) = true
  /\ Str.digitsValue 0 (monthText m) = Some (m + 1)
  /\ String.compare (monthText m) (monthText (m + 1)) = Lt.
Proof.
  intro H. pose proof (month_checked H) as Hok. unfold monthOk in Hok.
  rewrite !andb_true_iff in Hok. destruct Hok as [[[Hlen Hdash] Hval] Hnext].
  split; [now apply Nat.eqb_eq|]. split; [assumption|]. split.
  - destruct (Str.digitsValue 0 (monthText m)) as [v|]; [|discriminate].
    apply Z.eqb_eq in Hval. now subst.
  - now destruct (String.compare (monthText m) (monthText (m + 1))).
Qed.

(** Texts that grow along a chain of integers are ordered like the integers. *)
Lemma chain_compare (text : Z -> string) (lo hi : Z) :
  (forall y, lo <= y < hi -> String.compare (text y) (text (y + 1)) = Lt) ->
  forall y1 y2, lo <= y1 <= hi -> lo <= y2 <= hi ->
                String.compare (text y1) (text y2) = (y1 ?= y2).
Proof.
  intros Hnext.
  assert (Hlt : forall n y, lo <= y -> y + 1 + Z.of_nat n <= hi ->
                            String.compare (text y) (text (y + 1 + Z.of_nat n)) = Lt).
  { induction n as [|n IH]; intros y Hlo Hhi.
    - rewrite Z.add_0_r. apply Hnext. lia.
    - apply string_compare_lt_trans with (text (y + 1 + Z.of_nat n)).
      + apply IH; lia.
      + replace (y + 1 + Z.of_nat (S n)) with (y + 1 + Z.of_nat n + 1) by lia.
        apply Hnext. lia. }
  assert (Hlt' : forall y1 y2, lo <= y1 -> y1 < y2 -> y2 <= hi ->
                               String.compare (text y1) (text y2) = Lt).
  { intros y1 y2 H1 H12 H2.
    replace y2 with (y1 + 1 + Z.of_nat (Z.to_nat (y2 - y1 - 1))) by lia.
    apply Hlt; lia. }
  intros y1 y2 H1 H2. destruct (Z.compare_spec y1 y2) as [-> | Hc | Hc].
  - apply string_compare_refl.
  - apply Hlt'; lia.
  - rewrite String.compare_antisym, Hlt' by lia. reflexivity.
Qed.

Lemma year_compare (y1 y2 : Z) :
  1000 <= y1 <= 9999 -> 1000 <= y2 <= 9999 ->
  String.compare (yearText y1) (yearText y2) = (y1 ?= y2).
Proof.
  apply chain_compare. intros y Hy. apply year_facts; lia.
Qed.

Lemma month_compare (m1 m2 : Z) :
  0 <= m1 <= 11 -> 0 <= m2 <= 11 ->
  String.compare (monthText m1) (monthText m2) = (m1 ?= m2).
Proof.
  apply chain_compare. intros m Hm. apply month_facts; lia.
Qed.

Lemma compare_append (a b s t : string) :
  String.length a = String.length b ->
  String.compare (String.append a s) (String.append b t)
  = match String.compare a b with
    | Eq => String.compare s t
    | c => c
    end.
Proof.
  revert b. induction a as [|x a IH]; intros [|y b] Hlen; simpl in *; try discriminate.
  - reflexivity.
  - destruct (Ascii.compare x y); try reflexivity. apply IH. congruence.
Qed.

Lemma monthKey_compare (y1 m1 y2 m2 : Z) :
  1000 <= y1 <= 9999 -> 0 <= m1 <= 11 -> 1000 <= y2 <= 9999 -> 0 <= m2 <= 11 ->
  String.compare (monthKey y1 m1) (monthKey y2 m2) = (y1 * 12 + m1 ?= y2 * 12 + m2).
Proof.
  intros Hy1 Hm1 Hy2 Hm2. unfold monthKey.
  fold (yearText y1) (yearText y2) (monthText m1) (monthText m2).
  destruct (year_facts Hy1) as [L1 _]. destruct (year_facts Hy2) as [L2 _].
  rewrite compare_append by congruence.
  rewrite year_compare by assumption.
  destruct (Z.compare_spec y1 y2) as [Ey | Ey | Ey].
  - subst y2.
    change (String.append "-" (monthText m1)) with (String "-" (monthText m1)).
    change (String.append "-" (monthText m2)) with (String "-" (monthText m2)).
    cbn [String.compare]. rewrite ascii_compare_refl, month_compare by assumption.
    destruct (Z.compare_spec m1 m2) as [Em | Em | Em]; symmetry.
    + apply Z.compare_eq_iff. lia.
    + apply Z.compare_lt_iff. lia.
    + apply Z.compare_gt_iff. lia.
  - symmetry. apply Z.compare_lt_iff. lia.
  - symmetry. apply Z.compare_gt_iff. lia.
Qed.

Lemma monthKey_ltb (y1 m1 y2 m2 : Z) :
  1000 <= y1 <= 9999 -> 0 <= m1 <= 11 -> 1000 <= y2 <= 9999 -> 0 <= m2 <= 11 ->
  String.ltb (monthKey y1 m1) (monthKey y2 m2) = (y1 * 12 + m1 <? y2 * 12 + m2).
Proof.
  intros. unfold String.ltb, Z.ltb. now rewrite monthKey_compare.
Qed.

Lemma split_noDash (a : string) : noDash a = true -> Str.split "-" a <> [] /\
  forall t, Str.split "-" (String.append a (String "-" t)) = a :: Str.split "-" t.
Proof.
  induction a as [|c a IH]; simpl; intro H.
  - split; [discriminate | reflexivity].
  - apply andb_true_iff in H. destruct H as [Hc Ha]. apply negb_true_iff in Hc.
    rewrite Hc. destruct (IH Ha) as [Hne Happ]. split.
    + destruct (Str.split "-" a); discriminate.
    + intro t. now rewrite Happ.
Qed.

Lemma split_whole (a : string) : noDash a = true -> Str.split "-" a = [a].
Proof.
  induction a as [|c a IH]; simpl; intro H; [reflexivity|].
  apply andb_true_iff in H. destruct H as [Hc Ha]. apply negb_true_iff in Hc.
  now rewrite Hc, (IH Ha).
Qed.

Lemma monthKey_numbers (y m : Z) :
  1000 <= y <= 9999 -> 0 <= m <= 11 ->
  map Str.toNumber (Str.split "-" (monthKey y m)) = [JS.ofZ y; JS.ofZ (m + 1)].
Proof.
  intros Hy Hm. unfold monthKey. fold (yearText y) (monthText m).
  destruct (year_facts Hy) as [_ [Dy [Vy _]]].
  destruct (month_facts Hm) as [_ [Dm [Vm _]]].
  change (String.append "-" (monthText m)) with (String "-" (monthText m)).
  rewrite (proj2 (split_noDash _ Dy)), (split_whole _ Dm). simpl.
  unfold Str.toNumber. now rewrite Vy, Vm.
Qed.

Lemma small_below (z : Z) : Z.abs z < 1000000 -> small z.
Proof. unfold small. change (2 ^ 53) with 9007199254740992. lia. Qed.

Lemma mul_ofZ_12 (d : Z) : Z.abs d < 10000 -> JS.mul (JS.ofZ d) (JS.ofZ 12) = JS.ofZ (d * 12).
Proof.
  intro H. destruct (Z.eq_dec d 0) as [-> | Hne]; [reflexivity|].
  apply Double.mul_ofZ; try lia. apply small_below. lia.
Qed.

(** The span between two well-formed month keys is computed exactly. *)
Lemma monthsBetween_monthKey (y1 m1 y2 m2 : Z) :
  1000 <= y1 <= 9999 -> 0 <= m1 <= 11 -> 1000 <= y2 <= 9999 -> 0 <= m2 <= 11 ->
  monthsBetween (monthKey y1 m1) (monthKey y2 m2)
  = JS.ofZ ((y2 - y1) * 12 + (m2 - m1) + 1).
Proof.
  intros Hy1 Hm1 Hy2 Hm2. unfold monthsBetween.
  rewrite !monthKey_numbers by assumption. simpl nth.
  rewrite !Double.sub_ofZ by (apply small_below; lia).
  rewrite mul_ofZ_12 by lia.
  replace (m2 + 1 - (m1 + 1)) with (m2 - m1) by lia.
  rewrite !Double.add_ofZ by (apply small_below; lia).
  reflexivity.
Qed.

(** * Salaried expenses *)

Section Salaries.
Context {host : Host}.

Lemma fold_left_filter_skip (S X : Type) (step : S -> X -> S) (keep : X -> bool) :
  (forall s x, keep x = false -> step s x = s) ->
  forall l s, fold_left step (filter keep l) s = fold_left step l s.
Proof.
  intros Hskip l. induction l as [|x l IH]; intro s; simpl; [reflexivity|].
  destruct (keep x) eqn:E; simpl; [apply IH|].
  rewrite (Hskip s x E). apply IH.
Qed.

Lemma salaryStep_other (m : smap Payroll.t) (tx : Transaction) :
  isSalaryPayment tx = false -> salaryStep m tx = m.
Proof.
  unfold isSalaryPayment, salaryStep, isDebit. intro H.
  destruct (isReversedOrReverse tx); [reflexivity|].
  destruct (Direction_eqb (CreditDebit tx) DEBIT); [|reflexivity].
  destruct (String.eqb (Kind tx) "EXPENSE"); [|reflexivity].
  simpl in H. now rewrite H.
Qed.

Lemma salaryStep_payment (m : smap Payroll.t) (tx : Transaction) :
  isSalaryPayment tx = true ->
  salaryStep m tx = upsert counterparty payrollInit payrollUpdate m tx.
Proof.
  unfold isSalaryPayment, salaryStep, isDebit. intro H.
  rewrite !andb_true_iff in H. destruct H as [[[H1 H2] H3] H4].
  apply negb_true_iff in H1. rewrite H1, H2, H3, H4. reflexivity.
Qed.

(** The map the loop of [analyzeSalariedExpenses] builds. *)
Lemma salaryMap_spec (d : Payroll.t) (transactions : list Transaction) :
  fold_left salaryStep transactions [] =
  tabulate (fun c => foldFrom payrollInit payrollUpdate d (paymentsTo c transactions))
           (keysOf counterparty (salaryPayments transactions)).
Proof.
  rewrite <- (fold_left_filter_skip salaryStep isSalaryPayment salaryStep_other).
  rewrite fold_left_ext_in with (g := upsert counterparty payrollInit payrollUpdate).
  - apply fold_left_upsert.
  - intros s tx Hin. apply filter_In in Hin. now apply salaryStep_payment.
Qed.

Lemma salary_row_of (d : Payroll.t) (transactions : list Transaction)
  (r : SalaryAnalysis.t) :
  In r (analyzeSalariedExpenses transactions) ->
  paymentsTo (SalaryAnalysis.recipient r) transactions <> []
  /\ r = salaryRow (SalaryAnalysis.recipient r,
                    foldFrom payrollInit payrollUpdate d
                             (paymentsTo (SalaryAnalysis.recipient r) transactions)).
Proof.
  unfold analyzeSalariedExpenses. rewrite (salaryMap_spec d).
  intro H. apply sort_In, in_map_iff in H. destruct H as [[c data] [Hr Hin]].
  apply in_map_iff in Hin. destruct Hin as [c' [Heq Hc]].
  inversion Heq; subst c' data. subst r. simpl. split; [|reflexivity].
  now apply bucket_present.
Qed.

Lemma fold_left_payrollUpdate (l : list Transaction) (p : Payroll.t) :
  fold_left payrollUpdate l p =
  Payroll.Build_t
    (fold_left JS.add (map (fun tx => JS.Math.abs (AmountSingleColumn tx)) l) (Payroll.total p))
    (Payroll.paymentCount p + Z.of_nat (List.length l))
    (earliestOf (Payroll.earliestMonth p) l)
    (latestOf (Payroll.latestMonth p) l)
    (Payroll.description p).
Proof.
  revert p. induction l as [|tx l IH]; intro p.
  - destruct p. simpl. f_equal. lia.
  - cbn [fold_left]. rewrite IH. unfold payrollUpdate, earliestOf, latestOf.
    cbn [Payroll.total Payroll.paymentCount Payroll.earliestMonth Payroll.latestMonth
         Payroll.description fold_left map List.length].
    f_equal. lia.
Qed.

Lemma valid_monthOf (tx : Transaction) :
  validDate tx ->
  exists y m, monthOf tx = monthKey y m /\ monthNumber tx = y * 12 + m
              /\ 1000 <= y <= 9999 /\ 0 <= m <= 11.
Proof.
  intros [y [m [Hd [Hy Hm]]]]. exists y, m.
  unfold monthOf, getYearMonth, monthNumber. rewrite Hd. auto.
Qed.

Lemma earliestOf_valid (l : list Transaction) (yf mf : Z) :
  1000 <= yf <= 9999 -> 0 <= mf <= 11 -> Forall validDate l ->
  exists y m,
    earliestOf (monthKey yf mf) l = monthKey y m
    /\ 1000 <= y <= 9999 /\ 0 <= m <= 11
    /\ y * 12 + m <= yf * 12 + mf
    /\ (forall tx, In tx l -> y * 12 + m <= monthNumber tx)
    /\ (y * 12 + m = yf * 12 + mf \/ exists tx, In tx l /\ monthNumber tx = y * 12 + m).
Proof.
  revert yf mf. induction l as [|tx l IH]; intros yf mf Hyf Hmf Hall.
  - exists yf, mf. simpl. repeat split; try lia; try (intros tx []); now left.
  - inversion Hall as [|? ? Htx Hl]; subst.
    destruct (valid_monthOf Htx) as [yt [mt [Hkey [Hnum [Hyt Hmt]]]]].
    unfold earliestOf. cbn [fold_left]. rewrite Hkey, monthKey_ltb by assumption.
    fold (earliestOf (if yt * 12 + mt <? yf * 12 + mf then monthKey yt mt else monthKey yf mf) l).
    destruct (yt * 12 + mt <? yf * 12 + mf) eqn:E.
    + apply Z.ltb_lt in E.
      destruct (IH yt mt Hyt Hmt Hl) as [y [m [He [Hy [Hm [Hle [Hmin Hatt]]]]]]].
      exists y, m. repeat split; try assumption; try lia.
      * intros tx' [<- | Hin]; [lia | now apply Hmin].
      * right. destruct Hatt as [Heq | [tx' [Hin Hn]]].
        -- exists tx. split; [now left | lia].
        -- exists tx'. split; [now right | assumption].
    + apply Z.ltb_ge in E.
      destruct (IH yf mf Hyf Hmf Hl) as [y [m [He [Hy [Hm [Hle [Hmin Hatt]]]]]]].
      exists y, m. repeat split; try assumption; try lia.
      * intros tx' [<- | Hin]; [lia | now apply Hmin].
      * destruct Hatt as [Heq | [tx' [Hin Hn]]]; [now left | right].
        exists tx'. split; [now right | assumption].
Qed.

Lemma latestOf_valid (l : list Transaction) (yf mf : Z) :
  1000 <= yf <= 9999 -> 0 <= mf <= 11 -> Forall validDate l ->
  exists y m,
    latestOf (monthKey yf mf) l = monthKey y m
    /\ 1000 <= y <= 9999 /\ 0 <= m <= 11
    /\ yf * 12 + mf <= y * 12 + m
    /\ (forall tx, In tx l -> monthNumber tx <= y * 12 + m)
    /\ (y * 12 + m = yf * 12 + mf \/ exists tx, In tx l /\ monthNumber tx = y * 12 + m).
Proof.
  revert yf mf. induction l as [|tx l IH]; intros yf mf Hyf Hmf Hall.
  - exists yf, mf. simpl. repeat split; try lia; try (intros tx []); now left.
  - inversion Hall as [|? ? Htx Hl]; subst.
    destruct (valid_monthOf Htx) as [yt [mt [Hkey [Hnum [Hyt Hmt]]]]].
    unfold latestOf. cbn [fold_left]. rewrite Hkey, monthKey_ltb by assumption.
    fold (latestOf (if yf * 12 + mf <? yt * 12 + mt then monthKey yt mt else monthKey yf mf) l).
    destruct (yf * 12 + mf <? yt * 12 + mt) eqn:E.
    + apply Z.ltb_lt in E.
      destruct (IH yt mt Hyt Hmt Hl) as [y [m [He [Hy [Hm [Hle [Hmax Hatt]]]]]]].
      exists y, m. repeat split; try assumption; try lia.
      * intros tx' [<- | Hin]; [lia | now apply Hmax].
      * right. destruct Hatt as [Heq | [tx' [Hin Hn]]].
        -- exists tx. split; [now left | lia].
        -- exists tx'. split; [now right | assumption].
    + apply Z.ltb_ge in E.
      destruct (IH yf mf Hyf Hmf Hl) as [y [m [He [Hy [Hm [Hle [Hmax Hatt]]]]]]].
      exists y, m. repeat split; try assumption; try lia.
      * intros tx' [<- | Hin]; [lia | now apply Hmax].
      * destruct Hatt as [Heq | [tx' [Hin Hn]]]; [now left | right].
        exists tx'. split; [now right | assumption].
Qed.

End Salaries.

(** * Further properties of the reports *)

(** * Breakdowns by counterparty and by category *)

Lemma sumZ_app (l l' : list Z) : sumZ (l ++ l') = sumZ l + sumZ l'.
Proof. unfold sumZ. induction l as [|x l IH]; simpl; [reflexivity | rewrite IH; lia]. Qed.

Lemma sumZ_Permutation (l l' : list Z) : Permutation l l' -> sumZ l = sumZ l'.
Proof.
  unfold sumZ. induction 1 as [| x l l' _ IH | x y l | l l' l'' _ IH1 _ IH2]; simpl; lia.
Qed.

Lemma filter_filter (A : Type) (f g : A -> bool) (l : list A) :
  filter f (filter g l) = filter (fun x => g x && f x) l.
Proof.
  induction l as [|x l IH]; simpl; [reflexivity|].
  destruct (g x); simpl; [destruct (f x)|]; now rewrite IH.
Qed.

Lemma filter_none (A : Type) (f : A -> bool) (l : list A) :
  (forall x, In x l -> f x = false) -> filter f l = [].
Proof.
  induction l as [|x l IH]; intro H; [reflexivity|].
  simpl. rewrite (H x) by now left. apply IH. intros y Hy. apply H. now right.
Qed.

Lemma NoDup_map_in (A B : Type) (f : A -> B) (l : list A) :
  (forall x y, In x l -> In y l -> f x = f y -> x = y) -> NoDup l -> NoDup (map f l).
Proof.
  intros Hinj Hnd. induction Hnd as [|x l Hnot Hnd IH]; simpl; constructor.
  - intro Hin. apply in_map_iff in Hin. destruct Hin as [y [Heq Hy]].
    assert (y = x) by (apply Hinj; [now right | now left | assumption]).
    now subst.
  - apply IH. intros a b Ha Hb. apply Hinj; now right.
Qed.

Lemma orElse_filled (a b : string) : b <> "" -> Str.orElse a b <> "".
Proof. intro Hb. destruct a; simpl; [assumption | discriminate]. Qed.

Section TallyFacts.
Variable X : Type.
Variable key : X -> string.
Variable value : X -> JS.number.

Lemma fold_left_tallyUpdate (l : list X) (a : JS.number) (c : Z) :
  fold_left (tallyUpdate value) l (Tally.Build_t a c)
  = Tally.Build_t (fold_left JS.add (map value l) a) (c + Z.of_nat (List.length l)).
Proof.
  revert a c. induction l as [|x l IH]; intros a c.
  - simpl. f_equal. lia.
  - cbn [fold_left map List.length]. unfold tallyUpdate at 2. cbn [Tally.amount Tally.count].
    rewrite IH. f_equal. lia.
Qed.

Lemma foldFrom_tallyUpdate (b : list X) :
  foldFrom (fun _ => Tally.Build_t zero 0) (tallyUpdate value) (Tally.Build_t zero 0) b
  = tallyOf value b.
Proof.
  unfold foldFrom, tallyOf, total.
  destruct b as [|x b]; [reflexivity|]. now rewrite fold_left_tallyUpdate.
Qed.

(** A loop that tallies the elements passing [guard] under their key leaves
    one entry per key, in order of first occurrence, holding the tally of
    the key's elements. *)
Lemma tally_loop (guard : X -> bool) (step : smap Tally.t -> X -> smap Tally.t)
  (l : list X) :
  (forall m x, guard x = false -> step m x = m) ->
  (forall m x, guard x = true -> step m x = tallyInto (key x) (value x) m) ->
  fold_left step l []
  = tabulate (fun k => tallyOf value (bucket key k (filter guard l)))
             (keysOf key (filter guard l)).
Proof.
  intros Hskip Hkeep.
  rewrite <- (fold_left_filter_skip step guard Hskip).
  rewrite fold_left_ext_in
    with (g := upsert key (fun _ => Tally.Build_t zero 0) (tallyUpdate value)).
  - rewrite (fold_left_upsert _ _ _ (Tally.Build_t zero 0)).
    apply tabulate_ext. intros k _. apply foldFrom_tallyUpdate.
  - intros m x Hin. apply filter_In in Hin. now apply Hkeep.
Qed.

Lemma bucket_members (ks : list string) (l : list X) :
  NoDup ks ->
  sumZ (map (fun k => Z.of_nat (List.length (bucket key k l))) ks)
  = Z.of_nat (List.length (filter (fun x => existsb (String.eqb (key x)) ks) l)).
Proof.
  induction 1 as [|k ks Hnot Hnd IH]; simpl.
  - induction l as [|x l IHl]; simpl; [reflexivity | exact IHl].
  - rewrite IH. clear IH. unfold bucket.
    induction l as [|x l IHl]; [reflexivity|].
    cbn [filter existsb].
    destruct (String.eqb (key x) k) eqn:E; cbn [orb].
    + apply String.eqb_eq in E. subst k.
      replace (existsb (String.eqb (key x)) ks) with false.
      * cbn [List.length]. rewrite !Nat2Z.inj_succ. lia.
      * symmetry. apply not_true_is_false. intro H. apply existsb_eqb_In in H. contradiction.
    + destruct (existsb (String.eqb (key x)) ks); cbn [List.length];
        rewrite ?Nat2Z.inj_succ; lia.
Qed.

(** Every element is filed under exactly one key. *)
Lemma buckets_partition (l : list X) :
  sumZ (map (fun k => Z.of_nat (List.length (bucket key k l))) (keysOf key l))
  = Z.of_nat (List.length l).
Proof.
  rewrite bucket_members by apply NoDup_keysOf.
  f_equal. f_equal. apply forallb_filter_id. apply forallb_forall.
  intros x Hx. apply existsb_eqb_In, In_keysOf. now exists x.
Qed.

End TallyFacts.

Section RowFacts.
Variables V R : Type.
Variable row : string * V -> R.
Variable name : R -> string.
Variable after : R -> R -> bool.
Hypothesis name_row : forall k v, name (row (k, v)) = k.

(** The rows made of a map and then sorted: one per key, each made of its
    key's entry. *)
Lemma rows_of_tabulate (g : string -> V) (ks : list string) :
  let rows := sort after (map row (tabulate g ks)) in
  Permutation ks (map name rows)
  /\ forall r, In r rows -> In (name r) ks /\ r = row (name r, g (name r)).
Proof.
  intro rows. split.
  - subst rows. rewrite <- sort_Permutation. unfold tabulate. rewrite !map_map.
    rewrite map_ext with (g := fun k => k); [now rewrite map_id|].
    intro k. apply name_row.
  - intros r Hr. subst rows. apply sort_In in Hr.
    unfold tabulate in Hr. rewrite map_map in Hr.
    apply in_map_iff in Hr. destruct Hr as [k [<- Hk]].
    rewrite name_row. now split.
Qed.

Lemma rows_total (count : R -> Z) (g : string -> V) (ks : list string) :
  sumZ (map count (sort after (map row (tabulate g ks))))
  = sumZ (map (fun k => count (row (k, g k))) ks).
Proof.
  rewrite <- (sumZ_Permutation (Permutation_map count (sort_Permutation after _))).
  unfold tabulate. now rewrite !map_map.
Qed.
End RowFacts.

Section Breakdowns.
Context {host : Host}.

Lemma isLive_false (tx : Transaction) : isLive tx = false -> isReversedOrReverse tx = true.
Proof. unfold isLive. now destruct (isReversedOrReverse tx). Qed.

Lemma not_credit_debit (tx : Transaction) : isCredit tx = negb (isDebit tx).
Proof. unfold isCredit, isDebit. now destruct (CreditDebit tx). Qed.

Lemma incomeStep_spec (transactions : list Transaction) :
  fold_left incomeStep transactions []
  = tabulate (fun s => tallyOf AmountSingleColumn (creditsFrom s transactions))
             (keysOf counterparty (liveCredits transactions)).
Proof.
  apply (tally_loop counterparty AmountSingleColumn (fun tx => isLive tx && isCredit tx)).
  - intros m tx H. unfold incomeStep, isLive, isCredit in *.
    destruct (isReversedOrReverse tx); [reflexivity|].
    destruct (Direction_eqb (CreditDebit tx) CREDIT); [discriminate | reflexivity].
  - intros m tx H. unfold incomeStep, isLive, isCredit in *.
    destruct (isReversedOrReverse tx); [discriminate|].
    destruct (Direction_eqb (CreditDebit tx) CREDIT); [reflexivity | discriminate].
Qed.

Lemma debit_tally_loop (rules : Transaction -> string)
  (step : smap Tally.t -> Transaction -> smap Tally.t) (transactions : list Transaction) :
  (forall m tx,
      step m tx
      = if isReversedOrReverse tx then m
        else if negb (Direction_eqb (CreditDebit tx) DEBIT) then m
        else tallyInto (rules tx) (JS.Math.abs (AmountSingleColumn tx)) m) ->
  fold_left step transactions []
  = tabulate (fun c => tallyOf (fun tx => JS.Math.abs (AmountSingleColumn tx))
                               (debitsUnder rules c transactions))
             (keysOf rules (liveDebits transactions)).
Proof.
  intro Hstep.
  apply (tally_loop rules (fun tx => JS.Math.abs (AmountSingleColumn tx))
                    (fun tx => isLive tx && isDebit tx)).
  - intros m tx H. rewrite Hstep. unfold isLive, isDebit in *.
    destruct (isReversedOrReverse tx); [reflexivity|].
    destruct (Direction_eqb (CreditDebit tx) DEBIT); [discriminate | reflexivity].
  - intros m tx H. rewrite Hstep. unfold isLive, isDebit in *.
    destruct (isReversedOrReverse tx); [discriminate|].
    destruct (Direction_eqb (CreditDebit tx) DEBIT); [reflexivity | discriminate].
Qed.

Lemma counterparty_filled (tx : Transaction) : counterparty tx <> "".
Proof. unfold counterparty. apply orElse_filled. discriminate. Qed.

Lemma In_liveCredits (transactions : list Transaction) (tx : Transaction) :
  In tx (liveCredits transactions)
  <-> In tx transactions /\ isReversedOrReverse tx = false /\ CreditDebit tx = CREDIT.
Proof.
  unfold liveCredits, isLive, isCredit. rewrite filter_In, andb_true_iff, negb_true_iff.
  destruct (CreditDebit tx); simpl; intuition congruence.
Qed.

Lemma In_liveDebits (transactions : list Transaction) (tx : Transaction) :
  In tx (liveDebits transactions)
  <-> In tx transactions /\ isReversedOrReverse tx = false /\ CreditDebit tx = DEBIT.
Proof.
  unfold liveDebits, isLive, isDebit. rewrite filter_In, andb_true_iff, negb_true_iff.
  destruct (CreditDebit tx); simpl; intuition congruence.
Qed.

Lemma bucket_length_positive (X : Type) (key : X -> string) (k : string) (l : list X) :
  In k (keysOf key l) -> 1 <= Z.of_nat (List.length (bucket key k l)).
Proof.
  intro Hin. apply bucket_present in Hin.
  destruct (bucket key k l); [congruence | simpl List.length; lia].
Qed.

(** X1. [analyzeIncomeSources] files every non-excluded credit under its
    counterparty: one row per counterparty, never an empty name, holding the
    rounded sum of the counterparty's credits and their number; the counts
    add up to the number of non-excluded credits. *)
Theorem income_sources_account_for_every_credit (transactions : list Transaction) :
  let rows := analyzeIncomeSources transactions in
  NoDup (map SourceBreakdown.source rows)
  /\ (forall s, In s (map SourceBreakdown.source rows) <->
                exists tx, In tx transactions /\ isReversedOrReverse tx = false
                           /\ CreditDebit tx = CREDIT /\ counterparty tx = s)
  /\ (forall r, In r rows ->
        let credits := creditsFrom (SourceBreakdown.source r) transactions in
        SourceBreakdown.source r <> ""
        /\ SourceBreakdown.amount r = round2 (amountTotal credits)
        /\ SourceBreakdown.count r = Z.of_nat (List.length credits)
        /\ 1 <= SourceBreakdown.count r)
  /\ sumZ (map SourceBreakdown.count rows) = Z.of_nat (List.length (liveCredits transactions)).
Proof.
  intro rows. subst rows. unfold analyzeIncomeSources, toBreakdown.
  rewrite incomeStep_spec.
  set (g := fun s => tallyOf AmountSingleColumn (creditsFrom s transactions)).
  set (ks := keysOf counterparty (liveCredits transactions)).
  destruct (rows_of_tabulate breakdownRow SourceBreakdown.source
              (fun a b => afterAmount (SourceBreakdown.amount a) (SourceBreakdown.amount b))
              (fun k v => eq_refl) g ks) as [Hperm Hrow].
  split; [|split; [|split]].
  - apply (Permutation_NoDup Hperm), NoDup_keysOf.
  - intro s. split.
    + intro Hin. apply (Permutation_in _ (Permutation_sym Hperm)), In_keysOf in Hin.
      destruct Hin as [tx [Htx Hs]]. apply In_liveCredits in Htx.
      exists tx. tauto.
    + intros [tx [Htx [Hlive [Hdir Hs]]]].
      apply (Permutation_in _ Hperm), In_keysOf. exists tx. split; [|assumption].
      apply In_liveCredits. tauto.
  - intros r Hr. set (credits := creditsFrom (SourceBreakdown.source r) transactions).
    destruct (Hrow r Hr) as [Hk Heq].
    assert (Hcount : SourceBreakdown.count r = Z.of_nat (List.length credits))
      by (rewrite Heq; reflexivity).
    split; [|split; [|split]].
    + apply In_keysOf in Hk. destruct Hk as [tx [_ <-]]. apply counterparty_filled.
    + rewrite Heq. reflexivity.
    + exact Hcount.
    + rewrite Hcount. now apply bucket_length_positive.
  - rewrite rows_total. apply (buckets_partition counterparty).
Qed.

Lemma expenseStep_spec (transactions : list Transaction) :
  fold_left expenseStep transactions []
  = tabulate (fun c => tallyOf (fun tx => JS.Math.abs (AmountSingleColumn tx))
                               (debitsTo c transactions))
             (keysOf counterparty (liveDebits transactions)).
Proof. apply (debit_tally_loop counterparty). reflexivity. Qed.

(** X2. [analyzeExpenses] files every non-excluded debit under its counterparty:
    one row per recipient, holding the rounded sum of the absolute amounts
    paid and the number of payments; the counts add up to the number of
    non-excluded debits. *)
Theorem expenses_account_for_every_debit (transactions : list Transaction) :
  let rows := analyzeExpenses transactions in
  NoDup (map ExpenseBreakdown.recipient rows)
  /\ (forall s, In s (map ExpenseBreakdown.recipient rows) <->
                exists tx, In tx transactions /\ isReversedOrReverse tx = false
                           /\ CreditDebit tx = DEBIT /\ counterparty tx = s)
  /\ (forall r, In r rows ->
        let debits := debitsTo (ExpenseBreakdown.recipient r) transactions in
        ExpenseBreakdown.recipient r <> ""
        /\ ExpenseBreakdown.amount r = round2 (paidTotal debits)
        /\ ExpenseBreakdown.count r = Z.of_nat (List.length debits)
        /\ 1 <= ExpenseBreakdown.count r)
  /\ sumZ (map ExpenseBreakdown.count rows) = Z.of_nat (List.length (liveDebits transactions)).
Proof.
  intro rows. subst rows. unfold analyzeExpenses.
  rewrite expenseStep_spec.
  set (g := fun c => tallyOf (fun tx => JS.Math.abs (AmountSingleColumn tx))
                             (debitsTo c transactions)).
  set (ks := keysOf counterparty (liveDebits transactions)).
  destruct (rows_of_tabulate expenseRow ExpenseBreakdown.recipient
              (fun a b => afterAmount (ExpenseBreakdown.amount a) (ExpenseBreakdown.amount b))
              (fun k v => eq_refl) g ks) as [Hperm Hrow].
  split; [|split; [|split]].
  - apply (Permutation_NoDup Hperm), NoDup_keysOf.
  - intro s. split.
    + intro Hin. apply (Permutation_in _ (Permutation_sym Hperm)), In_keysOf in Hin.
      destruct Hin as [tx [Htx Hs]]. apply In_liveDebits in Htx.
      exists tx. tauto.
    + intros [tx [Htx [Hlive [Hdir Hs]]]].
      apply (Permutation_in _ Hperm), In_keysOf. exists tx. split; [|assumption].
      apply In_liveDebits. tauto.
  - intros r Hr. set (debits := debitsTo (ExpenseBreakdown.recipient r) transactions).
    destruct (Hrow r Hr) as [Hk Heq].
    assert (Hcount : ExpenseBreakdown.count r = Z.of_nat (List.length debits))
      by (rewrite Heq; reflexivity).
    split; [|split; [|split]].
    + apply In_keysOf in Hk. destruct Hk as [tx [_ <-]]. apply counterparty_filled.
    + rewrite Heq. reflexivity.
    + exact Hcount.
    + rewrite Hcount. now apply bucket_length_positive.
  - rewrite rows_total. apply (buckets_partition counterparty).
Qed.

End Breakdowns.

Section CategoryAndContributionFacts.
Context {host : Host}.

Lemma effectiveCategory_filled (tx : Transaction) : effectiveCategory tx <> "".
Proof. unfold effectiveCategory. apply orElse_filled. discriminate. Qed.

Lemma expenseCategory_filled (tx : Transaction) : expenseCategory tx <> "".
Proof.
  unfold expenseCategory.
  repeat match goal with |- context [if ?c then _ else _] => destruct c end;
    try discriminate; apply effectiveCategory_filled.
Qed.

Lemma full_expenseCategory_filled (tx : Transaction) : Full.expenseCategory tx <> "".
Proof.
  unfold Full.expenseCategory.
  repeat match goal with |- context [if ?c then _ else _] => destruct c end;
    try discriminate; apply effectiveCategory_filled.
Qed.

Lemma expenses_count_total (transactions : list Transaction) :
  sumZ (map ExpenseBreakdown.count (analyzeExpenses transactions))
  = Z.of_nat (List.length (liveDebits transactions)).
Proof.
  unfold analyzeExpenses. rewrite expenseStep_spec, rows_total.
  apply (buckets_partition counterparty).
Qed.

(** The rows [toBreakdown] makes of the tallies of [l] by [key]. *)
Lemma breakdown_of_tallies (key : Transaction -> string) (value : Transaction -> JS.number)
  (l : list Transaction) :
  let rows := toBreakdown (tabulate (fun k => tallyOf value (bucket key k l)) (keysOf key l)) in
  NoDup (map SourceBreakdown.source rows)
  /\ (forall s, In s (map SourceBreakdown.source rows) <-> exists tx, In tx l /\ key tx = s)
  /\ (forall r, In r rows ->
        SourceBreakdown.amount r
        = round2 (total (map value (bucket key (SourceBreakdown.source r) l)))
        /\ SourceBreakdown.count r
           = Z.of_nat (List.length (bucket key (SourceBreakdown.source r) l))
        /\ 1 <= SourceBreakdown.count r)
  /\ sumZ (map SourceBreakdown.count rows) = Z.of_nat (List.length l).
Proof.
  intro rows. subst rows. unfold toBreakdown.
  set (g := fun k => tallyOf value (bucket key k l)).
  destruct (rows_of_tabulate breakdownRow SourceBreakdown.source
              (fun a b => afterAmount (SourceBreakdown.amount a) (SourceBreakdown.amount b))
              (fun k v => eq_refl) g (keysOf key l)) as [Hperm Hrow].
  split; [|split; [|split]].
  - apply (Permutation_NoDup Hperm), NoDup_keysOf.
  - intro s. rewrite <- In_keysOf. split; apply Permutation_in; [symmetry|]; exact Hperm.
  - intros r Hr. destruct (Hrow r Hr) as [Hk Heq].
    assert (Hcount : SourceBreakdown.count r
                     = Z.of_nat (List.length (bucket key (SourceBreakdown.source r) l)))
      by (rewrite Heq; reflexivity).
    split; [rewrite Heq; reflexivity|]. split; [exact Hcount|].
    rewrite Hcount. now apply bucket_length_positive.
  - rewrite rows_total. apply (buckets_partition key).
Qed.

(** X3. [analyzeExpensesByCategory], in either variant, files every non-excluded
    debit under the label its rules give it: one row per label, never an
    empty one, holding the rounded sum of the absolute amounts and the
    number of debits; its counts add up to those of [analyzeExpenses]. *)
Theorem expense_categories_account_for_every_debit (transactions : list Transaction) :
  let accountsFor (rules : Transaction -> string) (rows : list SourceBreakdown.t) :=
    NoDup (map SourceBreakdown.source rows)
    /\ (forall r, In r rows ->
          let debits := debitsUnder rules (SourceBreakdown.source r) transactions in
          SourceBreakdown.source r <> ""
          /\ SourceBreakdown.amount r = round2 (paidTotal debits)
          /\ SourceBreakdown.count r = Z.of_nat (List.length debits)
          /\ 1 <= SourceBreakdown.count r)
    /\ sumZ (map SourceBreakdown.count rows)
       = sumZ (map ExpenseBreakdown.count (analyzeExpenses transactions)) in
  accountsFor expenseCategory (analyzeExpensesByCategory transactions)
  /\ accountsFor Full.expenseCategory (Full.analyzeExpensesByCategory transactions).
Proof.
  intro accountsFor.
  assert (H : forall rules step,
             (forall tx, rules tx <> "") ->
             (forall m tx,
                 step m tx
                 = if isReversedOrReverse tx then m
                   else if negb (Direction_eqb (CreditDebit tx) DEBIT) then m
                   else tallyInto (rules tx) (JS.Math.abs (AmountSingleColumn tx)) m) ->
             accountsFor rules (toBreakdown (fold_left step transactions []))).
  { intros rules step Hfilled Hstep. subst accountsFor. cbv beta.
    rewrite (debit_tally_loop rules step transactions Hstep).
    destruct (breakdown_of_tallies rules (fun tx => JS.Math.abs (AmountSingleColumn tx))
                (liveDebits transactions)) as [Hnd [Hin [Hrow Hsum]]].
    split; [exact Hnd|]. split.
    - intros r Hr. destruct (Hrow r Hr) as [Ha [Hc Hp]].
      split; [|now split].
      assert (Hs : In (SourceBreakdown.source r)
                      (map SourceBreakdown.source
                         (toBreakdown
                            (tabulate
                               (fun k => tallyOf (fun tx => JS.Math.abs (AmountSingleColumn tx))
                                                 (bucket rules k (liveDebits transactions)))
                               (keysOf rules (liveDebits transactions))))))
        by now apply in_map.
      apply Hin in Hs. destruct Hs as [tx [_ <-]]. apply Hfilled.
    - rewrite expenses_count_total. exact Hsum. }
  split.
  - apply (H expenseCategory categoryStep expenseCategory_filled). reflexivity.
  - apply (H Full.expenseCategory Full.categoryStep full_expenseCategory_filled). reflexivity.
Qed.

Lemma sideStep_spec (recurring : bool) (transactions : list Transaction) :
  fold_left (sideStep recurring) transactions []
  = tabulate (fun s => tallyOf AmountSingleColumn
                               (bucket counterparty s (sideContributions recurring transactions)))
             (keysOf counterparty (sideContributions recurring transactions)).
Proof.
  apply (tally_loop counterparty AmountSingleColumn
           (fun tx => isContribution tx && Bool.eqb (isRecurringContribution tx) recurring));
    intros m tx H; unfold sideStep; now rewrite H.
Qed.

Lemma contributionStep_sides (transactions : list Transaction)
  (recurringMap oneTimeMap : smap Tally.t) :
  fold_left contributionStep transactions (recurringMap, oneTimeMap)
  = (fold_left (sideStep true) transactions recurringMap,
     fold_left (sideStep false) transactions oneTimeMap).
Proof.
  revert recurringMap oneTimeMap.
  induction transactions as [|tx l IH]; intros recurringMap oneTimeMap; [reflexivity|].
  cbn [fold_left]. 
  assert (Hstep : contributionStep (recurringMap, oneTimeMap) tx
                  = (sideStep true recurringMap tx, sideStep false oneTimeMap tx)).
  { unfold contributionStep, sideStep, isContribution, isLive, isCredit.
    destruct (isReversedOrReverse tx); [reflexivity|].
    destruct (Direction_eqb (CreditDebit tx) CREDIT); [|reflexivity].
    destruct (String.eqb (Kind tx) "CONTRIBUTION"); [|reflexivity].
    destruct (isRecurringContribution tx); reflexivity. }
  rewrite Hstep. apply IH.
Qed.

Lemma sides_partition (transactions : list Transaction) :
  Z.of_nat (List.length (sideContributions true transactions))
  + Z.of_nat (List.length (sideContributions false transactions))
  = Z.of_nat (List.length (filter isContribution transactions)).
Proof.
  unfold sideContributions.
  induction transactions as [|tx l IH]; [reflexivity|].
  cbn [filter].
  destruct (isContribution tx), (isRecurringContribution tx); cbn [andb Bool.eqb List.length];
    rewrite ?Nat2Z.inj_succ; lia.
Qed.

Lemma rollUp_count (l : list SourceBreakdown.t) :
  ContributorAnalysis.count (rollUp l) = sumZ (map SourceBreakdown.count l).
Proof. unfold rollUp, sumCount. cbn [ContributorAnalysis.count]. now rewrite fold_left_Zadd. Qed.

(** X4. [analyzeContributions] splits the non-excluded credits of kind
    CONTRIBUTION into the recurring and the one-time ones, by their
    description, and files each side by counterparty: a side's rows hold
    the rounded sums and the numbers of the counterparty's contributions of
    that side, its count is the number of contributions of that side, and
    the two counts add up to the number of all such contributions. *)
Theorem contributions_split_into_two_sides (transactions : list Transaction) :
  let a := analyzeContributions transactions in
  let filed (recurring : bool) (side : ContributorAnalysis.side) :=
    NoDup (map SourceBreakdown.source (ContributorAnalysis.contributors side))
    /\ (forall r, In r (ContributorAnalysis.contributors side) ->
          let given :=
            bucket counterparty (SourceBreakdown.source r)
                   (sideContributions recurring transactions) in
          SourceBreakdown.amount r = round2 (amountTotal given)
          /\ SourceBreakdown.count r = Z.of_nat (List.length given)
          /\ 1 <= SourceBreakdown.count r)
    /\ ContributorAnalysis.count side
       = Z.of_nat (List.length (sideContributions recurring transactions)) in
  filed true (ContributorAnalysis.recurring a)
  /\ filed false (ContributorAnalysis.oneTime a)
  /\ ContributorAnalysis.count (ContributorAnalysis.recurring a)
     + ContributorAnalysis.count (ContributorAnalysis.oneTime a)
     = Z.of_nat (List.length (filter isContribution transactions)).
Proof.
  intros a filed.
  assert (Hside : forall recurring,
             filed recurring (rollUp (toBreakdown (fold_left (sideStep recurring) transactions [])))).
  { intro recurring. subst filed. cbv beta. rewrite sideStep_spec.
    destruct (breakdown_of_tallies counterparty AmountSingleColumn
                (sideContributions recurring transactions)) as [Hnd [_ [Hrow Hsum]]].
    cbn [ContributorAnalysis.contributors rollUp].
    split; [exact Hnd|]. split; [exact Hrow|].
    rewrite rollUp_count. exact Hsum. }
  assert (Ha : a = {| ContributorAnalysis.recurring :=
                        rollUp (toBreakdown (fold_left (sideStep true) transactions []));
                      ContributorAnalysis.oneTime :=
                        rollUp (toBreakdown (fold_left (sideStep false) transactions [])) |}).
  { subst a. unfold analyzeContributions. now rewrite contributionStep_sides. }
  rewrite Ha. cbn [ContributorAnalysis.recurring ContributorAnalysis.oneTime].
  pose proof (Hside true) as Ht. pose proof (Hside false) as Hf.
  split; [exact Ht|]. split; [exact Hf|].
  destruct Ht as [_ [_ ->]]. destruct Hf as [_ [_ ->]]. apply sides_partition.
Qed.

End CategoryAndContributionFacts.

(** * Contributions month by month *)

Section MonthlyContributions.
Context {host : Host}.

Lemma fold_left_splitUpdate (l : list Transaction) (r o : JS.number) :
  fold_left splitUpdate l (Split.Build_t r o)
  = Split.Build_t
      (fold_left JS.add (map AmountSingleColumn (filter isRecurringContribution l)) r)
      (fold_left JS.add (map AmountSingleColumn (filter isOneTimeContribution l)) o).
Proof.
  revert r o. induction l as [|tx l IH]; intros r o; [reflexivity|].
  cbn [fold_left filter]. unfold splitUpdate at 2, isOneTimeContribution at 1.
  destruct (isRecurringContribution tx); cbn [negb map fold_left Split.recurring Split.oneTime];
    apply IH.
Qed.

Lemma recurringStep_spec (transactions : list Transaction) :
  fold_left recurringStep transactions []
  = tabulate
      (fun m =>
         Split.Build_t
           (amountTotal (filter isRecurringContribution (contributionsOfMonth m transactions)))
           (amountTotal (filter isOneTimeContribution (contributionsOfMonth m transactions))))
      (keysOf monthOf (filter isContribution transactions)).
Proof.
  rewrite <- (fold_left_filter_skip recurringStep isContribution).
  - rewrite fold_left_ext_in
      with (g := upsert monthOf (fun _ => Split.Build_t zero zero) splitUpdate).
    + rewrite (fold_left_upsert _ _ _ (Split.Build_t zero zero)).
      apply tabulate_ext. intros m _. unfold contributionsOfMonth, foldFrom, amountTotal, total.
      destruct (bucket monthOf m (filter isContribution transactions)) as [|tx b];
        [reflexivity | apply fold_left_splitUpdate].
    + intros s tx Hin. apply filter_In in Hin. destruct Hin as [_ H].
      unfold isContribution, isLive, isCredit in H.
      rewrite !andb_true_iff, negb_true_iff in H. destruct H as [[H1 H2] H3].
      unfold recurringStep, upsert, splitUpdate, monthOf. rewrite H1, H2, H3. cbn [negb].
      now destruct (isRecurringContribution tx).
  - intros s tx H. unfold isContribution, isLive, isCredit in H. unfold recurringStep.
    destruct (isReversedOrReverse tx); [reflexivity|].
    destruct (Direction_eqb (CreditDebit tx) CREDIT); [|reflexivity].
    destruct (String.eqb (Kind tx) "CONTRIBUTION"); [discriminate | reflexivity].
Qed.

(** X5. [analyzeMonthlyRecurringContributions] returns one row per month in
    which a non-excluded credit of kind CONTRIBUTION falls; the row holds
    the rounded sum of the month's recurring contributions and that of its
    one-time ones; with a consistent collation the rows are in ascending
    order of month key. *)
Theorem monthly_contribution_rows (transactions : list Transaction)
  (collation_asym : forall a b, 0 < localeCompare a b -> localeCompare b a <= 0)
  (collation_trans : forall a b c,
      localeCompare a b <= 0 -> localeCompare b c <= 0 -> localeCompare a c <= 0) :
  let rows := analyzeMonthlyRecurringContributions transactions in
  NoDup (map MonthlyContributions.month rows)
  /\ (forall m, In m (map MonthlyContributions.month rows) <->
                exists tx, In tx transactions /\ isContribution tx = true /\ monthOf tx = m)
  /\ (forall r, In r rows ->
        let given := contributionsOfMonth (MonthlyContributions.month r) transactions in
        MonthlyContributions.recurring r
        = round2 (amountTotal (filter isRecurringContribution given))
        /\ MonthlyContributions.oneTime r
           = round2 (amountTotal (filter isOneTimeContribution given)))
  /\ StronglySorted
       (fun a b => localeCompare (MonthlyContributions.month a) (MonthlyContributions.month b)
                   <= 0) rows.
Proof.
  intro rows.
  assert (Hsorted : StronglySorted
            (fun a b => localeCompare (MonthlyContributions.month a)
                                      (MonthlyContributions.month b) <= 0) rows).
  { subst rows. unfold analyzeMonthlyRecurringContributions.
    eapply StronglySorted_impl; [| apply sort_StronglySorted].
    + intros a b Hab. unfold afterMonth in Hab. apply Z.ltb_ge in Hab. exact Hab.
    + intros a b Hab. unfold afterMonth in *. apply Z.ltb_lt in Hab.
      apply Z.ltb_ge. now apply collation_asym.
    + intros a b c Hab Hbc. unfold afterMonth in *.
      apply Z.ltb_ge in Hab, Hbc. apply Z.ltb_ge.
      now apply collation_trans with (MonthlyContributions.month b). }
  subst rows. unfold analyzeMonthlyRecurringContributions in *.
  rewrite recurringStep_spec in *.
  match goal with
  | |- context [tabulate ?g0 ?ks0] =>
      destruct (rows_of_tabulate recurringRow MonthlyContributions.month
                  (fun a b => afterMonth (MonthlyContributions.month a)
                                         (MonthlyContributions.month b))
                  (fun k v => eq_refl) g0 ks0) as [Hperm Hrow]
  end.
  split; [|split; [|split]].
  - apply (Permutation_NoDup Hperm), NoDup_keysOf.
  - intro m. split.
    + intro Hin. apply (Permutation_in _ (Permutation_sym Hperm)), In_keysOf in Hin.
      destruct Hin as [tx [Htx Hm]]. apply filter_In in Htx. exists tx. tauto.
    + intros [tx [Htx [Hc Hm]]].
      apply (Permutation_in _ Hperm), In_keysOf. exists tx. split; [|assumption].
      apply filter_In. tauto.
  - intros r Hr. destruct (Hrow r Hr) as [_ Heq].
    split; rewrite Heq; reflexivity.
  - exact Hsorted.
Qed.

End MonthlyContributions.

(** The monthly contributions of the sample ledger [Sample.tenContributions],
    under the collation by code units. *)
Lemma monthly_contribution_rows_witness :
  let rows := analyzeMonthlyRecurringContributions Sample.tenContributions in
  NoDup (map MonthlyContributions.month rows)
  /\ (forall m, In m (map MonthlyContributions.month rows) <->
                exists tx, In tx Sample.tenContributions
                           /\ isContribution tx = true /\ monthOf tx = m)
  /\ (forall r, In r rows ->
        let given := contributionsOfMonth (MonthlyContributions.month r)
                                          Sample.tenContributions in
        MonthlyContributions.recurring r
        = round2 (amountTotal (filter isRecurringContribution given))
        /\ MonthlyContributions.oneTime r
           = round2 (amountTotal (filter isOneTimeContribution given)))
  /\ StronglySorted
       (fun a b => localeCompare (MonthlyContributions.month a) (MonthlyContributions.month b)
                   <= 0) rows.
Proof.
  exact (monthly_contribution_rows Sample.tenContributions
           codeUnitCompare_asym codeUnitCompare_trans).
Defined.

(** * Month keys as text *)

Lemma string_length_append (a b : string) :
  String.length (String.append a b) = (String.length a + String.length b)%nat.
Proof. induction a as [|c a IH]; simpl; [reflexivity | now rewrite IH]. Qed.

Lemma ofInteger_leading (n : Z) :
  exists c rest, Str.ofInteger n = String c rest /\ Ascii.compare c "N" = Lt.
Proof.
  unfold Str.ofInteger, NilZero.string_of_int.
  destruct (Z.to_int n) as [d | d].
  - destruct d; simpl; eexists; eexists; split; reflexivity.
  - eexists; eexists; split; reflexivity.
Qed.

(** The key of a valid date, whatever its year, sorts before the key
    ["NaN-NaN"] of an invalid one. *)
Lemma monthKey_below_undated (y m : Z) : String.compare (monthKey y m) "NaN-NaN" = Lt.
Proof.
  unfold monthKey. destruct (ofInteger_leading y) as [c [rest [-> Hc]]].
  simpl. now rewrite Hc.
Qed.

(** X6. Month keys of years of four digits have seven code units, are told
    apart by their dates and are ordered by code units as their months are
    in time; from the year 10000 on they are not. *)
Theorem month_keys_order_chronologically (y1 m1 y2 m2 : Z)
  (Hy1 : 1000 <= y1 <= 9999) (Hm1 : 0 <= m1 <= 11)
  (Hy2 : 1000 <= y2 <= 9999) (Hm2 : 0 <= m2 <= 11) :
  String.length (monthKey y1 m1) = 7%nat
  /\ String.compare (monthKey y1 m1) (monthKey y2 m2) = (y1 * 12 + m1 ?= y2 * 12 + m2)
  /\ (monthKey y1 m1 = monthKey y2 m2 -> y1 = y2 /\ m1 = m2)
  /\ String.ltb (monthKey y1 m1) (monthKey y2 m2) = (y1 * 12 + m1 <? y2 * 12 + m2)
  /\ String.ltb (monthKey 10000 0) (monthKey 9999 11) = true.
Proof.
  split; [|split; [|split; [|split]]].
  - unfold monthKey. fold (yearText y1) (monthText m1).
    destruct (year_facts Hy1) as [Ly _]. destruct (month_facts Hm1) as [Lm _].
    rewrite !string_length_append, Ly, Lm. reflexivity.
  - now apply monthKey_compare.
  - intro Heq.
    pose proof (monthKey_compare Hy1 Hm1 Hy2 Hm2) as Hc.
    rewrite Heq, string_compare_refl in Hc. symmetry in Hc.
    apply Z.compare_eq_iff in Hc. lia.
  - now apply monthKey_ltb.
  - vm_compute. reflexivity.
Qed.

Lemma month_keys_order_chronologically_witness :
  String.length (monthKey 2023 11) = 7%nat
  /\ String.compare (monthKey 2023 11) (monthKey 2024 0) = (2023 * 12 + 11 ?= 2024 * 12 + 0)
  /\ (monthKey 2023 11 = monthKey 2024 0 -> 2023 = 2024 /\ 11 = 0)
  /\ String.ltb (monthKey 2023 11) (monthKey 2024 0) = (2023 * 12 + 11 <? 2024 * 12 + 0)
  /\ String.ltb (monthKey 10000 0) (monthKey 9999 11) = true.
Proof. apply (@month_keys_order_chronologically 2023 11 2024 0); lia. Defined.

(** * Salary payments: counts, descriptions and undated payments *)

Section SalaryRows.
Context {host : Host}.

Lemma monthOf_cases (tx : Transaction) :
  monthOf tx = "NaN-NaN" \/ String.compare (monthOf tx) "NaN-NaN" = Lt.
Proof.
  unfold monthOf, getYearMonth.
  destruct (localDate (EffectiveDateTime tx)) as [[y m]|]; [right | now left].
  apply monthKey_below_undated.
Qed.

Lemma undated_not_below (tx : Transaction) : String.ltb "NaN-NaN" (monthOf tx) = false.
Proof.
  unfold String.ltb. destruct (monthOf_cases tx) as [-> | H]; [reflexivity|].
  rewrite String.compare_antisym, H. reflexivity.
Qed.

Lemma latestOf_undated_first (l : list Transaction) : latestOf "NaN-NaN" l = "NaN-NaN".
Proof.
  unfold latestOf. induction l as [|tx l IH]; [reflexivity|].
  cbn [fold_left]. now rewrite undated_not_below.
Qed.

Lemma latestOf_undated (l : list Transaction) (first : Transaction) :
  (exists tx, In tx l /\ localDate (EffectiveDateTime tx) = None) ->
  latestOf (monthOf first) l = "NaN-NaN".
Proof.
  revert first. induction l as [|tx l IH]; intros first [u [Hin Hu]]; [contradiction|].
  assert (Hstep : latestOf (monthOf first) (tx :: l)
                  = latestOf (if String.ltb (monthOf first) (monthOf tx)
                              then monthOf tx else monthOf first) l) by reflexivity.
  rewrite Hstep. destruct Hin as [-> | Hin].
  - assert (Hk : monthOf u = "NaN-NaN") by (unfold monthOf, getYearMonth; now rewrite Hu).
    rewrite Hk. unfold String.ltb.
    destruct (monthOf_cases first) as [-> | ->]; apply latestOf_undated_first.
  - destruct (String.ltb (monthOf first) (monthOf tx)); apply IH; now exists u.
Qed.

Lemma monthsBetween_undated (earliest : string) : monthsBetween earliest "NaN-NaN" = JS.NaN.
Proof.
  unfold monthsBetween.
  change (map Str.toNumber (Str.split "-" "NaN-NaN")) with [JS.NaN; JS.NaN].
  reflexivity.
Qed.

Lemma div_by_NaN (x : JS.number) : JS.div x JS.NaN = JS.NaN.
Proof. now destruct x. Qed.

Lemma salary_row_payments (transactions : list Transaction) (r : SalaryAnalysis.t) :
  In r (analyzeSalariedExpenses transactions) ->
  exists first rest,
    paymentsTo (SalaryAnalysis.recipient r) transactions = first :: rest
    /\ r = salaryRow (SalaryAnalysis.recipient r,
                      Payroll.Build_t
                        (paidTotal (first :: rest))
                        (Z.of_nat (List.length (first :: rest)))
                        (earliestOf (monthOf first) (first :: rest))
                        (latestOf (monthOf first) (first :: rest))
                        (Description first)).
Proof.
  intro Hrow.
  destruct (salary_row_of (Payroll.Build_t zero 0 "" "" "") _ _ Hrow) as [Hne Hr].
  destruct (paymentsTo (SalaryAnalysis.recipient r) transactions) as [|first rest];
    [congruence|].
  exists first, rest. split; [reflexivity|].
  cbn [foldFrom] in Hr. rewrite fold_left_payrollUpdate in Hr. exact Hr.
Qed.

(** X7. A recipient one of whose salary-like payments carries a timestamp that
    is no date is reported with the last payment month ["NaN-NaN"] and the
    monthly average [NaN]; the total paid is not affected. *)
Theorem undated_salary_payment_voids_the_average
  (transactions : list Transaction) (r : SalaryAnalysis.t)
  (Hrow : In r (analyzeSalariedExpenses transactions))
  (Hundated : exists tx, In tx (paymentsTo (SalaryAnalysis.recipient r) transactions)
                         /\ localDate (EffectiveDateTime tx) = None) :
  SalaryAnalysis.lastPayment r = "NaN-NaN"
  /\ SalaryAnalysis.monthlyAverage r = JS.NaN
  /\ SalaryAnalysis.totalPaid r
     = round2 (paidTotal (paymentsTo (SalaryAnalysis.recipient r) transactions)).
Proof.
  destruct (salary_row_payments _ _ Hrow) as [first [rest [Hp Hr]]].
  rewrite Hp in *.
  assert (Hlast : latestOf (monthOf first) (first :: rest) = "NaN-NaN")
    by now apply latestOf_undated.
  rewrite Hr. cbn [salaryRow SalaryAnalysis.lastPayment SalaryAnalysis.monthlyAverage
                   SalaryAnalysis.totalPaid Payroll.total Payroll.earliestMonth
                   Payroll.latestMonth].
  rewrite Hlast, monthsBetween_undated, div_by_NaN.
  repeat split.
Qed.

Lemma salaryMap_counts (transactions : list Transaction) :
  sumZ (map SalaryAnalysis.paymentCount (analyzeSalariedExpenses transactions))
  = Z.of_nat (List.length (salaryPayments transactions)).
Proof.
  unfold analyzeSalariedExpenses.
  rewrite (salaryMap_spec (Payroll.Build_t zero 0 "" "" "")), rows_total.
  rewrite <- (buckets_partition counterparty (salaryPayments transactions)).
  f_equal. apply map_ext_in. intros k Hk.
  unfold paymentsTo. pose proof (bucket_present _ _ _ Hk) as Hne.
  destruct (bucket counterparty k (salaryPayments transactions)) as [|first rest];
    [congruence|].
  cbn [foldFrom salaryRow SalaryAnalysis.paymentCount]. rewrite fold_left_payrollUpdate.
  reflexivity.
Qed.

(** X8. [analyzeSalariedExpenses] returns one row per recipient of a
    salary-like payment; the row counts the recipient's payments, carries
    the description of the first of them in the ledger, and the counts add
    up to the number of salary-like payments. *)
Theorem salary_rows_count_payments (transactions : list Transaction) :
  let rows := analyzeSalariedExpenses transactions in
  NoDup (map SalaryAnalysis.recipient rows)
  /\ (forall c, In c (map SalaryAnalysis.recipient rows) <->
                exists tx, In tx transactions /\ isSalaryPayment tx = true
                           /\ counterparty tx = c)
  /\ (forall r, In r rows ->
        exists first rest,
          paymentsTo (SalaryAnalysis.recipient r) transactions = first :: rest
          /\ SalaryAnalysis.description r = Description first
          /\ SalaryAnalysis.paymentCount r = 1 + Z.of_nat (List.length rest))
  /\ sumZ (map SalaryAnalysis.paymentCount rows)
     = Z.of_nat (List.length (salaryPayments transactions)).
Proof.
  intro rows. split; [|split; [|split]].
  - subst rows. unfold analyzeSalariedExpenses.
    rewrite (salaryMap_spec (Payroll.Build_t zero 0 "" "" "")).
    match goal with
    | |- context [tabulate ?g0 ?ks0] =>
        destruct (rows_of_tabulate salaryRow SalaryAnalysis.recipient
                    (fun a b => afterAmount (SalaryAnalysis.totalPaid a)
                                            (SalaryAnalysis.totalPaid b))
                    (fun k v => eq_refl) g0 ks0) as [Hperm _]
    end.
    apply (Permutation_NoDup Hperm), NoDup_keysOf.
  - intro c. subst rows. unfold analyzeSalariedExpenses.
    rewrite (salaryMap_spec (Payroll.Build_t zero 0 "" "" "")).
    match goal with
    | |- context [tabulate ?g0 ?ks0] =>
        destruct (rows_of_tabulate salaryRow SalaryAnalysis.recipient
                    (fun a b => afterAmount (SalaryAnalysis.totalPaid a)
                                            (SalaryAnalysis.totalPaid b))
                    (fun k v => eq_refl) g0 ks0) as [Hperm _]
    end.
    split.
    + intro Hin. apply (Permutation_in _ (Permutation_sym Hperm)), In_keysOf in Hin.
      destruct Hin as [tx [Htx Hc]]. apply filter_In in Htx. exists tx. tauto.
    + intros [tx [Htx [Hpay Hc]]].
      apply (Permutation_in _ Hperm), In_keysOf. exists tx. split; [|assumption].
      apply filter_In. tauto.
  - intros r Hr. destruct (salary_row_payments _ _ Hr) as [first [rest [Hp Heq]]].
    exists first, rest. split; [exact Hp|].
    split; rewrite Heq; cbn [salaryRow SalaryAnalysis.description SalaryAnalysis.paymentCount
                                Payroll.description Payroll.paymentCount List.length];
      [reflexivity | lia].
  - apply salaryMap_counts.
Qed.

End SalaryRows.

Lemma undated_salary_payment_voids_the_average_witness :
  exists r,
    In r (analyzeSalariedExpenses Sample.undated)
    /\ SalaryAnalysis.lastPayment r = "NaN-NaN"
    /\ SalaryAnalysis.monthlyAverage r = JS.NaN
    /\ SalaryAnalysis.totalPaid r
       = round2 (paidTotal (paymentsTo (SalaryAnalysis.recipient r) Sample.undated)).
Proof.
  eexists. split; [left; reflexivity|].
  apply (undated_salary_payment_voids_the_average Sample.undated).
  - left. reflexivity.
  - eexists. split; [left; reflexivity | reflexivity].
Defined.

(** * The runway projection: windows, empty ledgers and positive balances *)

Lemma div_nonnegative_by_magnitude (x y : JS.number) :
  JS.ge x zero = true -> nonNegativeOrNaN (JS.div x (JS.Math.abs y)).
Proof.
  intro Hx. unfold nonNegativeOrNaN, JS.div, JS.Math.abs.
  destruct x as [sx | sx | | sx mx ex]; try discriminate Hx.
  - destruct y as [sy | sy | | sy my ey]; simpl; eauto 6.
  - destruct sx; try discriminate Hx.
    destruct y as [sy | sy | | sy my ey]; simpl; eauto 6.
  - destruct sx; try discriminate Hx.
    destruct y as [sy | sy | | sy my ey]; simpl SFabs; unfold SFdiv; simpl xorb; eauto 6.
    pose proof (Double.div_core_nonneg mx ex my ey) as Hq.
    destruct (SFdiv_core_binary JS.prec JS.emax (Z.pos mx) ex (Z.pos my) ey)
      as [[q e'] l]. simpl in Hq.
    destruct (Double.binary_round_aux_shape false e' l Hq) as [H | [H | [m'' [e'' [H _]]]]];
      rewrite H; eauto 6.
Qed.

(** The double of a positive integer is an integer above zero, or
    [+Infinity]. *)
Lemma ofZ_positive (n : Z) :
  0 < n -> JS.ofZ n = S754_infinity false \/ nonNegativeInteger (JS.ofZ n).
Proof.
  intro Hn. destruct (Z_lt_ge_dec (Z.abs n) (2 ^ 53)) as [Hs | Hbig].
  - right. rewrite (@Double.ofZ_nonzero n) by (try assumption; lia).
    destruct (@Double.mantissaOf_spec n ltac:(lia) Hs) as [Hm [_ HE]].
    replace (n <? 0) with false by (symmetry; apply Z.ltb_ge; lia).
    split; [|reflexivity]. simpl. rewrite Hm.
    rewrite Z.mod_mul by (apply Z.pow_nonzero; lia).
    apply orb_true_r.
  - destruct n as [|p|p]; try lia. unfold JS.ofZ, JS.dyadic. simpl binary_normalize.
    unfold binary_round.
    assert (Hd : 54 <= Z.pos (digits2_pos p)).
    { rewrite Double.digits2_pos_log2.
      assert (53 <= Z.log2 (Z.pos p)); [|lia].
      apply Z.log2_le_pow2; lia. }
    rewrite Double.shl_align_none.
    + destruct (Double.binary_round_aux_shape false 0 loc_Exact (Pos2Z.is_nonneg p))
        as [H | [H | [m' [e' [H He']]]]]; rewrite H.
      * right. now split.
      * now left.
      * right. split; [|reflexivity]. simpl.
        replace (0 <=? e') with true by (symmetry; now apply Z.leb_le). reflexivity.
    + rewrite Z.add_0_r, Double.fexp_normal by lia. lia.
Qed.

(** ** The mantissa of a rounded double *)

Lemma shr_1_half mrs : 0 <= shr_m mrs -> shr_m (shr_1 mrs) = shr_m mrs / 2.
Proof.
  destruct mrs as [m r s]. cbn [shr_m]. intro H.
  destruct m as [|p|p]; [reflexivity | | lia].
  destruct p as [p | p |]; cbn [shr_1 shr_m].
  - change (Z.pos p~1) with (2 * Z.pos p + 1).
    apply Z.div_unique with 1; lia.
  - change (Z.pos p~0) with (2 * Z.pos p).
    apply Z.div_unique with 0; lia.
  - reflexivity.
Qed.

Lemma iter_pos_shr_1_div n mrs :
  0 <= shr_m mrs -> shr_m (iter_pos shr_1 n mrs) = shr_m mrs / 2 ^ Z.pos n.
Proof.
  revert mrs. induction n as [n IH | n IH |]; intros mrs H; cbn [iter_pos].
  - rewrite IH by (apply Double.iter_pos_shr_1_nonneg, Double.shr_1_nonneg, H).
    rewrite IH by (apply Double.shr_1_nonneg, H).
    rewrite shr_1_half by exact H.
    assert (Hp : 0 < 2 ^ Z.pos n) by (apply Z.pow_pos_nonneg; lia).
    rewrite !Z.div_div by lia.
    f_equal. change (Z.pos n~1) with (2 * Z.pos n + 1).
    rewrite Z.pow_add_r, Z.pow_twice_r by lia. lia.
  - rewrite IH by (apply Double.iter_pos_shr_1_nonneg, H).
    rewrite IH by exact H.
    assert (Hp : 0 < 2 ^ Z.pos n) by (apply Z.pow_pos_nonneg; lia).
    rewrite Z.div_div by lia.
    f_equal. change (Z.pos n~0) with (2 * Z.pos n).
    now rewrite Z.pow_twice_r.
  - now apply shr_1_half.
Qed.

Lemma Zdigits2_bound (m : Z) : 0 <= m -> m < 2 ^ Zdigits2 m /\ 0 <= Zdigits2 m.
Proof.
  intro H. destruct m as [|p|p]; [simpl; lia | | lia].
  cbn [Zdigits2]. pose proof (Double.digits2_pos_bounds p). lia.
Qed.

(** Shifting a mantissa into the format leaves at most 53 digits of it. *)
Lemma shr_fexp_bounded (m e : Z) (l : location) :
  0 <= m -> shr_m (fst (shr_fexp JS.prec JS.emax m e l)) < 2 ^ 53.
Proof.
  intro H. destruct (Zdigits2_bound H) as [Hm Hd].
  unfold shr_fexp.
  assert (Hf : Zdigits2 m + e - 53 <= fexp JS.prec JS.emax (Zdigits2 m + e))
    by (unfold fexp, JS.prec; lia).
  destruct (fexp JS.prec JS.emax (Zdigits2 m + e) - e) as [|n|n] eqn:Hn;
    cbn [shr fst].
  - rewrite Double.shr_m_of_loc.
    apply Z.lt_le_trans with (1 := Hm). apply Z.pow_le_mono_r; lia.
  - rewrite iter_pos_shr_1_div by (rewrite Double.shr_m_of_loc; exact H).
    rewrite Double.shr_m_of_loc.
    apply Z.div_lt_upper_bound; [apply Z.pow_pos_nonneg; lia|].
    rewrite <- Z.pow_add_r by lia.
    apply Z.lt_le_trans with (1 := Hm). apply Z.pow_le_mono_r; lia.
  - rewrite Double.shr_m_of_loc.
    apply Z.lt_le_trans with (1 := Hm). apply Z.pow_le_mono_r; lia.
Qed.

(** A finite double that comes out of a rounding has a mantissa of at most
    53 digits. *)
Lemma binary_round_aux_mantissa (s : bool) (m e : Z) (l : location)
  (s' : bool) (m' : positive) (e' : Z) :
  0 <= m ->
  binary_round_aux JS.prec JS.emax s m e l = S754_finite s' m' e' ->
  Z.pos m' < 2 ^ 53.
Proof.
  intro H. unfold binary_round_aux.
  pose proof (Double.shr_fexp_nonneg e l H) as H1.
  destruct (shr_fexp JS.prec JS.emax m e l) as [mrs1 e1]. cbn [fst] in H1.
  pose proof (shr_fexp_bounded e1 loc_Exact
                (Double.round_nearest_even_nonneg (loc_of_shr_record mrs1) H1)) as H2.
  destruct (shr_fexp JS.prec JS.emax _ e1 loc_Exact) as [mrs2 e2]. cbn [fst] in H2.
  destruct (shr_m mrs2) as [|p|p]; try discriminate.
  destruct (e2 <=? JS.emax - JS.prec); [|discriminate].
  intro Heq. injection Heq as _ <- _. exact H2.
Qed.

Lemma div_mantissa (x y : JS.number) (s : bool) (m : positive) (e : Z) :
  JS.div x y = S754_finite s m e -> Z.pos m < 2 ^ 53.
Proof.
  unfold JS.div.
  destruct x as [sx | sx | | sx mx ex], y as [sy | sy | | sy my ey]; cbn [SFdiv];
    try discriminate.
  pose proof (Double.div_core_nonneg mx ex my ey) as Hq.
  destruct (SFdiv_core_binary JS.prec JS.emax (Z.pos mx) ex (Z.pos my) ey) as [[q e'] l].
  cbn [fst] in Hq. now apply binary_round_aux_mantissa.
Qed.

(** The floor of a finite double that is negative, or [-0], is an integer
    not above zero; the floor of one that is positive, or a zero, is an
    integer not below zero. *)
Lemma floor_of_negative (m : positive) (e : Z) :
  Z.pos m < 2 ^ 53 -> nonPositiveInteger (JS.Math.floor (S754_finite true m e)).
Proof.
  intro Hm. cbn [JS.Math.floor]. destruct (0 <=? e) eqn:He.
  - split; [|reflexivity]. simpl. now rewrite He.
  - apply Z.leb_gt in He. cbn [JS.signed].
    assert (Hp : 0 < 2 ^ (- e)) by (apply Z.pow_pos_nonneg; lia).
    assert (Hneg : Z.neg m / 2 ^ (- e) < 0)
      by (apply Z.div_lt_upper_bound; lia).
    assert (Hlow : - 2 ^ 53 <= Z.neg m / 2 ^ (- e)).
    { apply Z.div_le_lower_bound; [exact Hp|].
      assert (1 <= 2 ^ (- e)) by lia. nia. }
    unfold JS.integral. destruct (Z.neg m / 2 ^ (- e)) as [|q|q] eqn:Hq; try lia.
    rewrite <- Hq in *.
    destruct (Z.eq_dec (Z.neg m / 2 ^ (- e)) (- 2 ^ 53)) as [Heq | Hne].
    + rewrite Heq. vm_compute. now split.
    + destruct (Double.ofZ_negative Hneg) as [Hinf | Hint]; [|exact Hint].
      rewrite (@Double.ofZ_nonzero (Z.neg m / 2 ^ (- e))) in Hinf;
        [discriminate | lia | unfold small; lia].
Qed.

Lemma floor_of_positive (m : positive) (e : Z) :
  Z.pos m < 2 ^ 53 -> nonNegativeInteger (JS.Math.floor (S754_finite false m e)).
Proof.
  intro Hm. cbn [JS.Math.floor]. destruct (0 <=? e) eqn:He.
  - split; [|reflexivity]. simpl. now rewrite He.
  - apply Z.leb_gt in He. cbn [JS.signed].
    assert (Hp : 0 < 2 ^ (- e)) by (apply Z.pow_pos_nonneg; lia).
    assert (Hlow : 0 <= Z.pos m / 2 ^ (- e)) by (apply Z.div_pos; lia).
    assert (Hhigh : Z.pos m / 2 ^ (- e) < 2 ^ 53).
    { apply Z.div_lt_upper_bound; [exact Hp|].
      assert (1 <= 2 ^ (- e)) by lia. nia. }
    unfold JS.integral. destruct (Z.pos m / 2 ^ (- e)) as [|q|q] eqn:Hq; try lia.
    + now split.
    + rewrite <- Hq in *.
      assert (Hpos : 0 < Z.pos m / 2 ^ (- e)) by lia.
      destruct (ofZ_positive Hpos) as [Hinf | Hint]; [|exact Hint].
      rewrite (@Double.ofZ_nonzero (Z.pos m / 2 ^ (- e))) in Hinf;
        [discriminate | lia | unfold small; lia].
Qed.

(** A quotient of a negative number by a magnitude: its floor is an integer
    not above zero when the quotient is finite, and [NaN] or [-Infinity]
    when it is not. *)
Lemma floor_of_negative_quotient (x y : JS.number) :
  JS.lt x zero = true ->
  let q := JS.div x (JS.Math.abs y) in
  (isFiniteNumber q = true -> nonPositiveInteger (JS.Math.floor q))
  /\ (isFiniteNumber q = false ->
      JS.Math.floor q = JS.NaN \/ JS.Math.floor q = JS.NegInfinity).
Proof.
  intros Hx q. pose proof (@Double.div_negative_by_magnitude x y Hx) as Hq.
  fold q in Hq. pose proof (@div_mantissa x (JS.Math.abs y)) as Hm. fold q in Hm.
  destruct Hq as [Hq | [Hq | [Hq | [m [e Hq]]]]]; rewrite Hq in *; cbn [isFiniteNumber].
  - split; [discriminate | now left].
  - split; [discriminate | now right].
  - split; [|discriminate]. intros _. now split.
  - split; [|discriminate]. intros _. apply floor_of_negative. now apply (Hm true m e).
Qed.

Lemma floor_of_nonnegative_quotient (x y : JS.number) :
  JS.ge x zero = true ->
  let q := JS.div x (JS.Math.abs y) in
  (isFiniteNumber q = true -> nonNegativeInteger (JS.Math.floor q))
  /\ (isFiniteNumber q = false ->
      JS.Math.floor q = JS.NaN \/ JS.Math.floor q = JS.Infinity).
Proof.
  intros Hx q. pose proof (@div_nonnegative_by_magnitude x y Hx) as Hq.
  fold q in Hq. pose proof (@div_mantissa x (JS.Math.abs y)) as Hm. fold q in Hm.
  destruct Hq as [Hq | [Hq | [[s Hq] | [m [e Hq]]]]]; rewrite Hq in *; cbn [isFiniteNumber].
  - split; [discriminate | now left].
  - split; [discriminate | now right].
  - split; [|discriminate]. intros _. destruct s; now split.
  - split; [|discriminate]. intros _. apply floor_of_positive. now apply (Hm false m e).
Qed.

Section SliceFacts.
Variable A : Type.

Lemma sliceFrom_all (n : Z) (l : list A) :
  n = 0 \/ Z.of_nat (List.length l) <= n -> sliceFrom (- n) l = l.
Proof.
  intro H. unfold sliceFrom, relativeIndex.
  destruct (- n <? 0) eqn:E.
  - apply Z.ltb_lt in E. replace (Z.to_nat _) with O by lia. reflexivity.
  - apply Z.ltb_ge in E. replace (Z.to_nat _) with O by lia. reflexivity.
Qed.

Lemma sliceFrom_last (n : Z) (l : list A) :
  0 < n <= Z.of_nat (List.length l) ->
  sliceFrom (- n) l = skipn (List.length l - Z.to_nat n) l
  /\ List.length (sliceFrom (- n) l) = Z.to_nat n
  /\ l = firstn (List.length l - Z.to_nat n) l ++ sliceFrom (- n) l.
Proof.
  intro H. unfold sliceFrom, relativeIndex.
  replace (- n <? 0) with true by (symmetry; apply Z.ltb_lt; lia).
  replace (Z.to_nat (Z.max (Z.of_nat (List.length l) + - n) 0))
    with (List.length l - Z.to_nat n)%nat by lia.
  split; [reflexivity|]. split.
  - rewrite length_skipn. lia.
  - symmetry. apply firstn_skipn.
Qed.

Lemma sliceFrom_drop (n : Z) (l : list A) :
  n < 0 -> sliceFrom (- n) l = skipn (Z.to_nat (- n)) l.
Proof.
  intro H. unfold sliceFrom, relativeIndex.
  replace (- n <? 0) with false by (symmetry; apply Z.ltb_ge; lia).
  destruct (Z_le_gt_dec (- n) (Z.of_nat (List.length l))) as [Hle | Hgt].
  - now rewrite Z.min_l by lia.
  - rewrite Z.min_r by lia. rewrite Nat2Z.id.
    rewrite !skipn_all2 by lia. reflexivity.
Qed.

Lemma sliceFrom_nil (n : Z) : sliceFrom n (@nil A) = [].
Proof. unfold sliceFrom. apply skipn_nil. Qed.
End SliceFacts.

Section RunwayWindows.
Context {host : Host}.

(** X9. The averaging window of [calculateRunwayProjection]: the last
    [monthsToAverage] months of the summary when there are that many; the
    whole summary when there are fewer and also when [monthsToAverage] is
    [0]; and, for a negative [monthsToAverage], all but the first
    [- monthsToAverage] months. *)
Theorem runway_window (transactions : list Transaction) (monthsToAverage : Z) :
  let rows := calculateMonthlyData transactions in
  let window := recentMonths transactions monthsToAverage in
  (0 < monthsToAverage <= Z.of_nat (List.length rows) ->
   List.length window = Z.to_nat monthsToAverage
   /\ exists older, rows = older ++ window)
  /\ (monthsToAverage = 0 \/ Z.of_nat (List.length rows) <= monthsToAverage ->
      window = rows
      /\ calculateRunwayProjection transactions monthsToAverage
         = calculateRunwayProjection transactions 0)
  /\ (monthsToAverage < 0 -> window = skipn (Z.to_nat (- monthsToAverage)) rows).
Proof.
  intros rows window. subst window. unfold recentMonths. fold rows.
  split; [|split].
  - intro H. destruct (sliceFrom_last rows H) as [_ [Hlen Happ]].
    split; [exact Hlen|]. eexists. exact Happ.
  - intro H. assert (Hall : sliceFrom (- monthsToAverage) rows = rows)
      by now apply sliceFrom_all.
    split; [exact Hall|].
    unfold calculateRunwayProjection, averageMonthlyNet, averageMonthlyIncome,
      averageMonthlyExpenses, recentMonths. fold rows.
    rewrite Hall. now rewrite (@sliceFrom_all _ 0 rows) by now left.
  - intro H. now apply sliceFrom_drop.
Qed.

Lemma no_live_transactions (transactions : list Transaction) :
  (forall tx, In tx transactions -> isReversedOrReverse tx = true) ->
  withoutReversals transactions = [].
Proof.
  intro H. unfold withoutReversals.
  induction transactions as [|tx l IH]; [reflexivity|].
  simpl. rewrite (H tx) by now left. simpl. apply IH.
  intros tx' Hin. apply H. now right.
Qed.

(** X10. On a ledger without a non-excluded transaction, the empty ledger among
    them, the projection has a balance of zero, averages that are [NaN]
    (nothing divided by no months), a runway of [NaN] months and a required
    contribution of zero. *)
Theorem runway_of_a_ledger_without_transactions
  (transactions : list Transaction) (monthsToAverage : Z)
  (Hnone : forall tx, In tx transactions -> isReversedOrReverse tx = true) :
  calculateMonthlyData transactions = []
  /\ calculateRunwayProjection transactions monthsToAverage = emptyProjection.
Proof.
  assert (Hrows : calculateMonthlyData transactions = []).
  { rewrite <- calculateMonthlyData_withoutReversals.
    now rewrite (no_live_transactions _ Hnone). }
  split; [exact Hrows|].
  unfold calculateRunwayProjection, currentBalance, averageMonthlyNet,
    averageMonthlyIncome, averageMonthlyExpenses, recentMonths.
  rewrite Hrows, sliceFrom_nil. reflexivity.
Qed.

(** X11. With an average net below zero and a balance that is not, the runway is
    the floor of the balance over the magnitude of the average net: a whole
    number of months that is not negative whenever that quotient is a
    finite double, and [+Infinity] or [NaN] when it is not. *)
Theorem months_of_runway_from_a_balance_not_below_zero
  (transactions : list Transaction) (monthsToAverage : Z)
  (Hburning : JS.ge (averageMonthlyNet transactions monthsToAverage) zero = false)
  (Hbalance : JS.ge (currentBalance transactions) zero = true) :
  let quotient :=
    JS.div (currentBalance transactions)
           (JS.Math.abs (averageMonthlyNet transactions monthsToAverage)) in
  let months :=
    RunwayProjection.monthsOfRunway (calculateRunwayProjection transactions monthsToAverage) in
  months = JS.Math.floor quotient
  /\ (isFiniteNumber quotient = true -> nonNegativeInteger months)
  /\ (isFiniteNumber quotient = false -> months = JS.NaN \/ months = JS.Infinity).
Proof.
  intros quotient months. subst months.
  cbn [calculateRunwayProjection RunwayProjection.monthsOfRunway].
  rewrite Hburning. split; [reflexivity|].
  now apply floor_of_nonnegative_quotient.
Qed.

End RunwayWindows.

Lemma runway_of_a_ledger_without_transactions_witness :
  calculateMonthlyData (@nil Transaction) = []
  /\ calculateRunwayProjection [] defaultMonthsToAverage = emptyProjection.
Proof.
  apply (runway_of_a_ledger_without_transactions [] defaultMonthsToAverage).
  intros tx [].
Defined.

(** The sample ledger [Sample.deficit] has two months: a window of one
    month holds one row, and a window of six is the window of zero. *)
Lemma runway_window_witness :
  List.length (recentMonths Sample.deficit 1) = 1%nat
  /\ calculateRunwayProjection Sample.deficit 6 = calculateRunwayProjection Sample.deficit 0.
Proof.
  assert (Hlen : List.length (calculateMonthlyData Sample.deficit) = 2%nat)
    by (vm_compute; reflexivity).
  split.
  - apply (proj1 (runway_window Sample.deficit 1)). rewrite Hlen. lia.
  - apply (proj1 (proj2 (runway_window Sample.deficit 6))). right. rewrite Hlen. lia.
Defined.

Lemma months_of_runway_from_a_balance_not_below_zero_witness :
  let months :=
    RunwayProjection.monthsOfRunway (calculateRunwayProjection Sample.reserve 1) in
  months = JS.ofZ 9 /\ nonNegativeInteger months.
Proof.
  pose proof (@months_of_runway_from_a_balance_not_below_zero
                Sample.host Sample.reserve 1 eq_refl eq_refl) as H.
  cbv zeta in H. destruct H as [Hfloor [Hinteger _]].
  split.
  - rewrite Hfloor. vm_compute. reflexivity.
  - apply Hinteger. vm_compute. reflexivity.
Defined.

(** * The share of salaries in the income *)

Section SalaryShare.
Context {host : Host}.

Lemma bucket_of_distinct_keys (X : Type) (key : X -> string) (k : string) (l : list X) :
  NoDup (map key l) -> (List.length (bucket key k l) <= 1)%nat.
Proof.
  unfold bucket. induction l as [|x l IH]; intro Hnd; [simpl; lia|].
  inversion Hnd as [|? ? Hnot Hnd']; subst. cbn [filter].
  destruct (String.eqb (key x) k) eqn:E; [|now apply IH].
  apply String.eqb_eq in E. subst k. cbn [List.length].
  replace (filter (fun x0 => String.eqb (key x0) (key x)) l) with (@nil X); [simpl; lia|].
  symmetry. apply (bucket_absent key). intro Hin. apply Hnot.
  apply In_keysOf in Hin. destruct Hin as [y [Hy Hk]]. rewrite <- Hk. now apply in_map.
Qed.

Lemma share_of_nothing (avg : JS.number) :
  (if JS.gt avg zero then JS.mul (JS.div zero avg) (JS.ofZ 100) else zero) = zero.
Proof.
  destruct (JS.gt avg zero) eqn:E; [|reflexivity].
  destruct avg as [s | s | | s m e]; try discriminate E; destruct s; try discriminate E;
    reflexivity.
Qed.

(** X12. When no two salary-like payments go to the same recipient, no recipient
    counts as salaried: the monthly salary expenses and both percentages are
    zero.  The average monthly income is the one the runway projection
    reports for its default window of six months. *)
Theorem single_payments_are_no_salaries (transactions : list Transaction)
  (Hsingle : NoDup (map counterparty (salaryPayments transactions))) :
  let p := calculateSalaryPercentageOfIncome transactions in
  SalaryPercentage.monthlySalaryExpenses p = zero
  /\ SalaryPercentage.percentageOfTotalIncome p = zero
  /\ SalaryPercentage.percentageOfRecurringIncome p = zero
  /\ SalaryPercentage.avgMonthlyIncome p
     = RunwayProjection.averageMonthlyIncome
         (calculateRunwayProjection transactions defaultMonthsToAverage).
Proof.
  intro p.
  assert (Hnone : filter (fun s => 1 <? SalaryAnalysis.paymentCount s)
                         (analyzeSalariedExpenses transactions) = []).
  { apply filter_none. intros r Hr.
    destruct (salary_row_payments _ _ Hr) as [first [rest [Hp Heq]]].
    pose proof (bucket_of_distinct_keys counterparty (SalaryAnalysis.recipient r) _ Hsingle)
      as Hle.
    unfold paymentsTo in Hp. rewrite Hp in Hle.
    rewrite Heq. cbn [salaryRow SalaryAnalysis.paymentCount Payroll.paymentCount].
    apply Z.ltb_ge. cbn [List.length] in *. lia. }
  subst p. unfold calculateSalaryPercentageOfIncome.
  cbn [SalaryPercentage.monthlySalaryExpenses SalaryPercentage.percentageOfTotalIncome
       SalaryPercentage.percentageOfRecurringIncome SalaryPercentage.avgMonthlyIncome].
  rewrite Hnone. cbn [fold_left]. rewrite !share_of_nothing.
  repeat split.
Qed.

(** X13. On a ledger without a non-excluded transaction the averages are [NaN]
    and the salary expenses and the percentages zero. *)
Theorem salary_share_of_a_ledger_without_transactions (transactions : list Transaction)
  (Hnone : forall tx, In tx transactions -> isReversedOrReverse tx = true) :
  calculateSalaryPercentageOfIncome transactions = emptyPercentage.
Proof.
  pose proof (no_live_transactions _ Hnone) as Hlive.
  assert (Hrows : calculateMonthlyData transactions = []).
  { rewrite <- calculateMonthlyData_withoutReversals. now rewrite Hlive. }
  assert (Hsalaries : analyzeSalariedExpenses transactions = []).
  { unfold analyzeSalariedExpenses.
    rewrite <- (fold_left_withoutReversals _ salaryStep_skips). now rewrite Hlive. }
  assert (Hcontributions : analyzeMonthlyRecurringContributions transactions = []).
  { unfold analyzeMonthlyRecurringContributions.
    rewrite <- (fold_left_withoutReversals _ recurringStep_skips). now rewrite Hlive. }
  unfold calculateSalaryPercentageOfIncome.
  rewrite Hrows, Hsalaries, Hcontributions. reflexivity.
Qed.

End SalaryShare.

Lemma single_payments_are_no_salaries_witness :
  let p := calculateSalaryPercentageOfIncome Sample.undated in
  SalaryPercentage.monthlySalaryExpenses p = zero
  /\ SalaryPercentage.percentageOfTotalIncome p = zero
  /\ SalaryPercentage.percentageOfRecurringIncome p = zero
  /\ SalaryPercentage.avgMonthlyIncome p
     = RunwayProjection.averageMonthlyIncome
         (calculateRunwayProjection Sample.undated defaultMonthsToAverage).
Proof.
  apply (single_payments_are_no_salaries Sample.undated).
  repeat constructor. intros [].
Defined.

Lemma salary_share_of_a_ledger_without_transactions_witness :
  calculateSalaryPercentageOfIncome [] = emptyPercentage.
Proof.
  apply (salary_share_of_a_ledger_without_transactions []). intros tx [].
Defined.

(** * The full variant: income by class *)

Section IncomeClasses.
Context {host : Host}.

Lemma contribution_is_no_sponsorship (kind source : string) :
  String.eqb kind "CONTRIBUTION" = true -> Full.isGithubSponsorship kind source = false.
Proof.
  intro H. apply String.eqb_eq in H. subst kind. reflexivity.
Qed.

Lemma fold_left_credit (l : list Transaction) (a : JS.number) (c : Z) :
  fold_left (fun slot tx => Full.credit slot (AmountSingleColumn tx)) l
            (AmountCount.Build_t a c)
  = AmountCount.Build_t (fold_left JS.add (map AmountSingleColumn l) a)
                        (c + Z.of_nat (List.length l)).
Proof.
  revert a c. induction l as [|tx l IH]; intros a c.
  - simpl. f_equal. lia.
  - cbn [fold_left map List.length]. unfold Full.credit at 2.
    cbn [AmountCount.amount AmountCount.count]. rewrite IH. f_equal. lia.
Qed.

(** The loop of [categorizeIncome] keeps four independent tallies and a
    grand total. *)
Lemma categorizeStep_spec (transactions : list Transaction)
  (g r o t : AmountCount.t) (s : JS.number) :
  fold_left Full.categorizeStep transactions (IncomeSourcesAnalysis.Build_t g r o t s)
  = IncomeSourcesAnalysis.Build_t
      (fold_left (fun slot tx => Full.credit slot (AmountSingleColumn tx))
                 (sponsorships transactions) g)
      (fold_left (fun slot tx => Full.credit slot (AmountSingleColumn tx))
                 (sideContributions true transactions) r)
      (fold_left (fun slot tx => Full.credit slot (AmountSingleColumn tx))
                 (sideContributions false transactions) o)
      (fold_left (fun slot tx => Full.credit slot (AmountSingleColumn tx))
                 (otherIncome transactions) t)
      (fold_left JS.add (map AmountSingleColumn (liveCredits transactions)) s).
Proof.
  revert g r o t s.
  induction transactions as [|tx l IH]; intros g r o t s; [reflexivity|].
  cbn [fold_left]. unfold Full.categorizeStep at 2.
  unfold sponsorships, sideContributions, otherIncome, liveCredits.
  cbn [filter]. unfold isSponsorship, isOtherIncome, isContribution, isLive, isCredit.
  destruct (isReversedOrReverse tx); cbn [negb andb]; [apply IH|].
  destruct (Direction_eqb (CreditDebit tx) CREDIT); cbn [negb andb]; [|apply IH].
  destruct (Full.isGithubSponsorship (Kind tx) (Full.sourceOrEmpty tx)) eqn:G;
    cbn [negb andb].
  - replace (String.eqb (Kind tx) "CONTRIBUTION") with false.
    + cbn [andb fold_left map]. apply IH.
    + symmetry. apply not_true_is_false. intro K.
      rewrite (contribution_is_no_sponsorship _ _ K) in G. discriminate.
  - destruct (String.eqb (Kind tx) "CONTRIBUTION"); cbn [negb andb].
    + destruct (isRecurringContribution tx); cbn [Bool.eqb fold_left map]; apply IH.
    + cbn [fold_left map]. apply IH.
Qed.

Lemma income_classes_partition (transactions : list Transaction) :
  Z.of_nat (List.length (sponsorships transactions))
  + Z.of_nat (List.length (sideContributions true transactions))
  + Z.of_nat (List.length (sideContributions false transactions))
  + Z.of_nat (List.length (otherIncome transactions))
  = Z.of_nat (List.length (liveCredits transactions)).
Proof.
  unfold sponsorships, sideContributions, otherIncome, liveCredits,
    isSponsorship, isOtherIncome, isContribution.
  induction transactions as [|tx l IH]; [reflexivity|].
  cbn [filter].
  destruct (isLive tx && isCredit tx); cbn [negb andb]; [|exact IH].
  destruct (Full.isGithubSponsorship (Kind tx) (Full.sourceOrEmpty tx)) eqn:G;
    cbn [negb andb].
  - replace (String.eqb (Kind tx) "CONTRIBUTION") with false.
    + cbn [andb List.length]. rewrite ?Nat2Z.inj_succ. lia.
    + symmetry. apply not_true_is_false. intro K.
      rewrite (contribution_is_no_sponsorship _ _ K) in G. discriminate.
  - destruct (String.eqb (Kind tx) "CONTRIBUTION"); cbn [negb andb].
    + destruct (isRecurringContribution tx); cbn [Bool.eqb List.length];
        rewrite ?Nat2Z.inj_succ; lia.
    + cbn [List.length]. rewrite ?Nat2Z.inj_succ. lia.
Qed.

Lemma categorizeIncome_spec (transactions : list Transaction) :
  Full.categorizeIncome transactions
  = {| IncomeSourcesAnalysis.githubSponsors := slotOf (sponsorships transactions);
       IncomeSourcesAnalysis.ocRecurring := slotOf (sideContributions true transactions);
       IncomeSourcesAnalysis.ocOneTime := slotOf (sideContributions false transactions);
       IncomeSourcesAnalysis.other := slotOf (otherIncome transactions);
       IncomeSourcesAnalysis.total := round2 (amountTotal (liveCredits transactions)) |}.
Proof.
  unfold Full.categorizeIncome. rewrite categorizeStep_spec, !fold_left_credit.
  reflexivity.
Qed.

Lemma income_sources_count_total (transactions : list Transaction) :
  sumZ (map SourceBreakdown.count (analyzeIncomeSources transactions))
  = Z.of_nat (List.length (liveCredits transactions)).
Proof.
  unfold analyzeIncomeSources, toBreakdown. rewrite incomeStep_spec, rows_total.
  apply (buckets_partition counterparty).
Qed.

Lemma contributions_side_count (recurring : bool) (transactions : list Transaction) :
  ContributorAnalysis.count
    (rollUp (toBreakdown (fold_left (sideStep recurring) transactions [])))
  = Z.of_nat (List.length (sideContributions recurring transactions)).
Proof.
  rewrite rollUp_count, sideStep_spec.
  now destruct (breakdown_of_tallies counterparty AmountSingleColumn
                  (sideContributions recurring transactions)) as [_ [_ [_ Hsum]]].
Qed.

(** X14. [categorizeIncome] sorts every non-excluded credit into exactly one of
    four classes: GitHub sponsorships, recurring contributions, one-time
    contributions and other income.  Each class holds the rounded sum and
    the number of its credits, the total is the rounded sum of all of them,
    and the four counts add up to the number of non-excluded credits. *)
Theorem income_classes_account_for_every_credit (transactions : list Transaction) :
  let a := Full.categorizeIncome transactions in
  IncomeSourcesAnalysis.githubSponsors a = slotOf (sponsorships transactions)
  /\ IncomeSourcesAnalysis.ocRecurring a = slotOf (sideContributions true transactions)
  /\ IncomeSourcesAnalysis.ocOneTime a = slotOf (sideContributions false transactions)
  /\ IncomeSourcesAnalysis.other a = slotOf (otherIncome transactions)
  /\ IncomeSourcesAnalysis.total a = round2 (amountTotal (liveCredits transactions))
  /\ AmountCount.count (IncomeSourcesAnalysis.githubSponsors a)
     + AmountCount.count (IncomeSourcesAnalysis.ocRecurring a)
     + AmountCount.count (IncomeSourcesAnalysis.ocOneTime a)
     + AmountCount.count (IncomeSourcesAnalysis.other a)
     = Z.of_nat (List.length (liveCredits transactions)).
Proof.
  intro a. subst a. rewrite categorizeIncome_spec.
  cbn [IncomeSourcesAnalysis.githubSponsors IncomeSourcesAnalysis.ocRecurring
       IncomeSourcesAnalysis.ocOneTime IncomeSourcesAnalysis.other
       IncomeSourcesAnalysis.total slotOf AmountCount.count].
  repeat (split; [reflexivity|]).
  apply income_classes_partition.
Qed.

(** X15. The reports agree on how many transactions they account for: the two
    contribution counts of [categorizeIncome] are those of the two sides of
    [analyzeContributions], and its four counts add up to the counts of
    [analyzeIncomeSources]. *)
Theorem income_reports_count_the_same_credits (transactions : list Transaction) :
  let a := Full.categorizeIncome transactions in
  let c := Full.analyzeContributions transactions in
  AmountCount.count (IncomeSourcesAnalysis.ocRecurring a)
  = ContributorAnalysis.count (ContributorAnalysis.recurring c)
  /\ AmountCount.count (IncomeSourcesAnalysis.ocOneTime a)
     = ContributorAnalysis.count (ContributorAnalysis.oneTime c)
  /\ AmountCount.count (IncomeSourcesAnalysis.githubSponsors a)
     + AmountCount.count (IncomeSourcesAnalysis.ocRecurring a)
     + AmountCount.count (IncomeSourcesAnalysis.ocOneTime a)
     + AmountCount.count (IncomeSourcesAnalysis.other a)
     = sumZ (map SourceBreakdown.count (analyzeIncomeSources transactions)).
Proof.
  intros a c. subst a c. rewrite categorizeIncome_spec.
  unfold Full.analyzeContributions. rewrite contributionStep_sides.
  cbn [IncomeSourcesAnalysis.githubSponsors IncomeSourcesAnalysis.ocRecurring
       IncomeSourcesAnalysis.ocOneTime IncomeSourcesAnalysis.other
       ContributorAnalysis.recurring ContributorAnalysis.oneTime slotOf AmountCount.count].
  rewrite !contributions_side_count, income_sources_count_total.
  split; [reflexivity|]. split; [reflexivity|].
  apply income_classes_partition.
Qed.

End IncomeClasses.

(** * The full variant: income month by month *)

Section MonthlyIncome.
Context {host : Host}.

Lemma fold_left_contribute (l : list Transaction) :
  fold_left (fun m tx => Full.contribute (counterparty tx) (AmountSingleColumn tx) m) l []
  = contributorTotals l.
Proof.
  change (fun m tx => Full.contribute (counterparty tx) (AmountSingleColumn tx) m)
    with (upsert counterparty (fun _ : Transaction => zero)
                 (fun v tx => JS.add v (AmountSingleColumn tx))).
  rewrite (fold_left_upsert _ _ _ zero). apply tabulate_ext. intros s _.
  unfold foldFrom, amountTotal, total.
  destruct (bucket counterparty s l) as [|tx b]; [reflexivity|].
  apply fold_left_map.
Qed.

Lemma fold_left_monthIncomeUpdate (l : list Transaction)
  (g r o t : JS.number) (rc oc : smap JS.number) :
  fold_left monthIncomeUpdate l (MonthIncome.Build_t g r o t rc oc)
  = MonthIncome.Build_t
      (fold_left JS.add (map AmountSingleColumn (filter sponsoredInMonth l)) g)
      (fold_left JS.add (map AmountSingleColumn (filter (contributedInMonth true) l)) r)
      (fold_left JS.add (map AmountSingleColumn (filter (contributedInMonth false) l)) o)
      (fold_left JS.add (map AmountSingleColumn (filter otherInMonth l)) t)
      (fold_left (fun m tx => Full.contribute (counterparty tx) (AmountSingleColumn tx) m)
                 (filter (contributedInMonth true) l) rc)
      (fold_left (fun m tx => Full.contribute (counterparty tx) (AmountSingleColumn tx) m)
                 (filter (contributedInMonth false) l) oc).
Proof.
  revert g r o t rc oc.
  induction l as [|tx l IH]; intros g r o t rc oc; [reflexivity|].
  assert (Hstep :
    monthIncomeUpdate (MonthIncome.Build_t g r o t rc oc) tx
    = MonthIncome.Build_t
        (if sponsoredInMonth tx then JS.add g (AmountSingleColumn tx) else g)
        (if contributedInMonth true tx then JS.add r (AmountSingleColumn tx) else r)
        (if contributedInMonth false tx then JS.add o (AmountSingleColumn tx) else o)
        (if otherInMonth tx then JS.add t (AmountSingleColumn tx) else t)
        (if contributedInMonth true tx
         then Full.contribute (counterparty tx) (AmountSingleColumn tx) rc else rc)
        (if contributedInMonth false tx
         then Full.contribute (counterparty tx) (AmountSingleColumn tx) oc else oc)).
  { unfold monthIncomeUpdate, contributedInMonth, otherInMonth, sponsoredInMonth.
    destruct (Full.isGithubSponsorship (Kind tx) (counterparty tx)); [reflexivity|].
    destruct (String.eqb (Kind tx) "CONTRIBUTION"); [|reflexivity].
    destruct (isRecurringContribution tx); reflexivity. }
  cbn [fold_left filter]. rewrite Hstep, IH.
  f_equal;
    match goal with
    | |- context [if ?c then _ :: _ else _] => destruct c; reflexivity
    end.
Qed.

Lemma monthlyIncomeStep_spec (transactions : list Transaction) :
  fold_left Full.monthlyIncomeStep transactions []
  = tabulate (fun m => monthIncomeOf (creditsOfMonth m transactions))
             (keysOf monthOf (liveCredits transactions)).
Proof.
  unfold liveCredits at 1.
  rewrite <- (fold_left_filter_skip Full.monthlyIncomeStep
                (fun tx => isLive tx && isCredit tx)).
  - rewrite fold_left_ext_in
      with (g := upsert monthOf (fun _ => MonthIncome.Build_t zero zero zero zero [] [])
                        monthIncomeUpdate).
    + rewrite (fold_left_upsert _ _ _ (MonthIncome.Build_t zero zero zero zero [] [])).
      apply tabulate_ext. intros m _. unfold creditsOfMonth, liveCredits, foldFrom.
      destruct (bucket monthOf m (filter (fun tx => isLive tx && isCredit tx) transactions))
        as [|tx b] eqn:Hb; [reflexivity|].
      rewrite fold_left_monthIncomeUpdate. unfold monthIncomeOf, amountTotal, total.
      now rewrite <- !fold_left_contribute.
    + intros s tx Hin. apply filter_In in Hin. destruct Hin as [_ H].
      unfold isLive, isCredit in H. apply andb_true_iff in H. destruct H as [H1 H2].
      apply negb_true_iff in H1.
      unfold Full.monthlyIncomeStep, upsert, monthIncomeUpdate, monthOf.
      rewrite H1, H2. cbn [negb].
      now destruct (map_getOr (getYearMonth (EffectiveDateTime tx))
                              (MonthIncome.Build_t zero zero zero zero [] []) s).
  - intros s tx H. unfold isLive, isCredit in H. unfold Full.monthlyIncomeStep.
    destruct (isReversedOrReverse tx); [reflexivity|].
    destruct (Direction_eqb (CreditDebit tx) CREDIT); [discriminate | reflexivity].
Qed.

(** X16. [categorizeMonthlyIncome] returns one row per month in which a
    non-excluded credit falls; the row holds, rounded, the sums of the
    month's credits of each of the four classes, and the lists of the top
    contributors are made of the month's contributions of either side,
    summed by counterparty; with a consistent collation the rows are in
    ascending order of month key. *)
Theorem monthly_income_rows (transactions : list Transaction)
  (collation_asym : forall a b, 0 < localeCompare a b -> localeCompare b a <= 0)
  (collation_trans : forall a b c,
      localeCompare a b <= 0 -> localeCompare b c <= 0 -> localeCompare a c <= 0) :
  let rows := Full.categorizeMonthlyIncome transactions in
  NoDup (map MonthlyIncomeData.month rows)
  /\ (forall m, In m (map MonthlyIncomeData.month rows) <->
                exists tx, In tx transactions /\ isReversedOrReverse tx = false
                           /\ CreditDebit tx = CREDIT /\ monthOf tx = m)
  /\ (forall r, In r rows ->
        let credits := creditsOfMonth (MonthlyIncomeData.month r) transactions in
        MonthlyIncomeData.githubSponsors r
        = round2 (amountTotal (filter sponsoredInMonth credits))
        /\ MonthlyIncomeData.ocRecurring r
           = round2 (amountTotal (filter (contributedInMonth true) credits))
        /\ MonthlyIncomeData.ocOneTime r
           = round2 (amountTotal (filter (contributedInMonth false) credits))
        /\ MonthlyIncomeData.other r = round2 (amountTotal (filter otherInMonth credits))
        /\ MonthlyIncomeData.topRecurring r
           = Full.monthTopContributors
               (contributorTotals (filter (contributedInMonth true) credits)) 3
        /\ MonthlyIncomeData.topOneTime r
           = Full.monthTopContributors
               (contributorTotals (filter (contributedInMonth false) credits)) 3)
  /\ StronglySorted
       (fun a b => localeCompare (MonthlyIncomeData.month a) (MonthlyIncomeData.month b) <= 0)
       rows.
Proof.
  intro rows.
  assert (Hsorted : StronglySorted
            (fun a b => localeCompare (MonthlyIncomeData.month a)
                                      (MonthlyIncomeData.month b) <= 0) rows).
  { subst rows. unfold Full.categorizeMonthlyIncome.
    eapply StronglySorted_impl; [| apply sort_StronglySorted].
    + intros a b Hab. unfold afterMonth in Hab. apply Z.ltb_ge in Hab. exact Hab.
    + intros a b Hab. unfold afterMonth in *. apply Z.ltb_lt in Hab.
      apply Z.ltb_ge. now apply collation_asym.
    + intros a b c Hab Hbc. unfold afterMonth in *.
      apply Z.ltb_ge in Hab, Hbc. apply Z.ltb_ge.
      now apply collation_trans with (MonthlyIncomeData.month b). }
  subst rows. unfold Full.categorizeMonthlyIncome in *.
  rewrite monthlyIncomeStep_spec in *.
  match goal with
  | |- context [tabulate ?g0 ?ks0] =>
      destruct (rows_of_tabulate Full.monthlyIncomeRow MonthlyIncomeData.month
                  (fun a b => afterMonth (MonthlyIncomeData.month a)
                                         (MonthlyIncomeData.month b))
                  (fun k v => eq_refl) g0 ks0) as [Hperm Hrow]
  end.
  split; [|split; [|split]].
  - apply (Permutation_NoDup Hperm), NoDup_keysOf.
  - intro m. split.
    + intro Hin. apply (Permutation_in _ (Permutation_sym Hperm)), In_keysOf in Hin.
      destruct Hin as [tx [Htx Hm]]. apply In_liveCredits in Htx. exists tx. tauto.
    + intros [tx [Htx [Hlive [Hdir Hm]]]].
      apply (Permutation_in _ Hperm), In_keysOf. exists tx. split; [|assumption].
      apply In_liveCredits. tauto.
  - intros r Hr. destruct (Hrow r Hr) as [_ Heq].
    repeat split; rewrite Heq; reflexivity.
  - exact Hsorted.
Qed.

End MonthlyIncome.

Lemma NoDup_firstn (A : Type) (n : nat) (l : list A) : NoDup l -> NoDup (firstn n l).
Proof.
  intro H. rewrite <- (firstn_skipn n l) in H. now apply NoDup_app_remove_r in H.
Qed.

Section TopContributors.
Context {host : Host}.

(** The list [monthTopContributors] makes of the contributions [given]. *)
Lemma top_contributors_of (given : list Transaction) (limit : nat) :
  let top := Full.monthTopContributors (contributorTotals given) (Z.of_nat limit) in
  (List.length top <= limit)%nat
  /\ NoDup (map NamedAmount.name top)
  /\ (forall e, In e top ->
        NamedAmount.amount e
        = round2 (amountTotal (bucket counterparty (NamedAmount.name e) given))
        /\ exists tx, In tx given /\ counterparty tx = NamedAmount.name e)
  /\ ((List.length (keysOf counterparty given) <= limit)%nat ->
      forall tx, In tx given -> In (counterparty tx) (map NamedAmount.name top)).
Proof.
  intro top. subst top. unfold Full.monthTopContributors, contributorTotals.
  rewrite sliceTo_firstn.
  match goal with
  | |- context [tabulate ?g0 ?ks0] =>
      destruct (rows_of_tabulate Full.namedAmount NamedAmount.name
                  (fun a b => afterAmount (NamedAmount.amount a) (NamedAmount.amount b))
                  (fun k v => eq_refl) g0 ks0) as [Hperm Hrow]
  end.
  split; [|split; [|split]].
  - apply firstn_le_length.
  - rewrite <- firstn_map. apply NoDup_firstn.
    apply (Permutation_NoDup Hperm), NoDup_keysOf.
  - intros e He. apply In_firstn in He. destruct (Hrow e He) as [Hk Heq]. split.
    + rewrite Heq. reflexivity.
    + now apply In_keysOf in Hk.
  - intros Hfew tx Htx. rewrite firstn_all_le.
    + apply (Permutation_in _ Hperm), In_keysOf. now exists tx.
    + rewrite sort_length, length_map. unfold tabulate. now rewrite length_map.
Qed.

Lemma monthly_income_row_of (transactions : list Transaction) (r : MonthlyIncomeData.t) :
  In r (Full.categorizeMonthlyIncome transactions) ->
  r = Full.monthlyIncomeRow
        (MonthlyIncomeData.month r,
         monthIncomeOf (creditsOfMonth (MonthlyIncomeData.month r) transactions)).
Proof.
  unfold Full.categorizeMonthlyIncome. rewrite monthlyIncomeStep_spec. intro Hr.
  match type of Hr with
  | context [tabulate ?g0 ?ks0] =>
      destruct (rows_of_tabulate Full.monthlyIncomeRow MonthlyIncomeData.month
                  (fun a b => afterMonth (MonthlyIncomeData.month a)
                                         (MonthlyIncomeData.month b))
                  (fun k v => eq_refl) g0 ks0) as [_ Hrow]
  end.
  now destruct (Hrow r Hr).
Qed.

(** X17. Each month of [categorizeMonthlyIncome] lists at most three top
    contributors of either side, no name twice; a listed contributor made a
    contribution of that side in that month and is listed with the rounded
    sum of these; and when the month has no more than three contributors of
    a side, all of them are listed. *)
Theorem monthly_top_contributors (transactions : list Transaction)
  (r : MonthlyIncomeData.t) (Hrow : In r (Full.categorizeMonthlyIncome transactions)) :
  let listed (recurring : bool) (top : list NamedAmount.t) :=
    let given :=
      filter (contributedInMonth recurring)
             (creditsOfMonth (MonthlyIncomeData.month r) transactions) in
    (List.length top <= 3)%nat
    /\ NoDup (map NamedAmount.name top)
    /\ (forall e, In e top ->
          NamedAmount.amount e
          = round2 (amountTotal (bucket counterparty (NamedAmount.name e) given))
          /\ exists tx, In tx given /\ counterparty tx = NamedAmount.name e)
    /\ ((List.length (keysOf counterparty given) <= 3)%nat ->
        forall tx, In tx given -> In (counterparty tx) (map NamedAmount.name top)) in
  listed true (MonthlyIncomeData.topRecurring r)
  /\ listed false (MonthlyIncomeData.topOneTime r).
Proof.
  intro listed. subst listed. cbv beta zeta.
  rewrite (monthly_income_row_of _ _ Hrow).
  cbn [Full.monthlyIncomeRow MonthlyIncomeData.topRecurring MonthlyIncomeData.topOneTime
       MonthlyIncomeData.month monthIncomeOf MonthIncome.recurringContribs
       MonthIncome.oneTimeContribs].
  split.
  - apply (top_contributors_of
             (filter (contributedInMonth true)
                     (creditsOfMonth (MonthlyIncomeData.month r) transactions)) 3).
  - apply (top_contributors_of
             (filter (contributedInMonth false)
                     (creditsOfMonth (MonthlyIncomeData.month r) transactions)) 3).
Qed.

Lemma month_contributions_agree (m : string) (recurring : bool)
  (transactions : list Transaction) :
  filter (contributedInMonth recurring) (creditsOfMonth m transactions)
  = filter (fun tx => Bool.eqb (isRecurringContribution tx) recurring)
           (contributionsOfMonth m transactions).
Proof.
  unfold creditsOfMonth, contributionsOfMonth, bucket, liveCredits.
  rewrite !filter_filter. apply filter_ext. intro tx.
  unfold contributedInMonth, sponsoredInMonth, isContribution.
  destruct (String.eqb (Kind tx) "CONTRIBUTION") eqn:K.
  - rewrite (contribution_is_no_sponsorship _ _ K).
    destruct (isLive tx), (isCredit tx), (String.eqb (monthOf tx) m),
      (Bool.eqb (isRecurringContribution tx) recurring); reflexivity.
  - destruct (isLive tx), (isCredit tx), (String.eqb (monthOf tx) m),
      (Full.isGithubSponsorship (Kind tx) (counterparty tx)),
      (Bool.eqb (isRecurringContribution tx) recurring); reflexivity.
Qed.

(** X18. The two monthly reports agree on the contributions: for every row of
    [analyzeMonthlyRecurringContributions] the row of the same month of
    [categorizeMonthlyIncome] holds the same recurring and one-time sums. *)
Theorem monthly_reports_agree_on_contributions (transactions : list Transaction)
  (r : MonthlyContributions.t)
  (Hrow : In r (analyzeMonthlyRecurringContributions transactions)) :
  exists r',
    In r' (Full.categorizeMonthlyIncome transactions)
    /\ MonthlyIncomeData.month r' = MonthlyContributions.month r
    /\ MonthlyIncomeData.ocRecurring r' = MonthlyContributions.recurring r
    /\ MonthlyIncomeData.ocOneTime r' = MonthlyContributions.oneTime r.
Proof.
  unfold analyzeMonthlyRecurringContributions in Hrow.
  rewrite recurringStep_spec in Hrow.
  match type of Hrow with
  | context [tabulate ?g0 ?ks0] =>
      destruct (rows_of_tabulate recurringRow MonthlyContributions.month
                  (fun a b => afterMonth (MonthlyContributions.month a)
                                         (MonthlyContributions.month b))
                  (fun k v => eq_refl) g0 ks0) as [_ Hrows]
  end.
  destruct (Hrows r Hrow) as [Hk Heq]. clear Hrows Hrow.
  set (m := MonthlyContributions.month r) in *.
  exists (Full.monthlyIncomeRow (m, monthIncomeOf (creditsOfMonth m transactions))).
  split; [|split; [reflexivity|]].
  - unfold Full.categorizeMonthlyIncome. rewrite monthlyIncomeStep_spec.
    apply sort_In. unfold tabulate. rewrite map_map.
    apply in_map_iff. exists m. split; [reflexivity|].
    apply In_keysOf in Hk. destruct Hk as [tx [Htx Hm]]. apply In_keysOf.
    exists tx. split; [|exact Hm].
    apply filter_In in Htx. destruct Htx as [Hin Hc].
    apply filter_In. split; [exact Hin|].
    unfold isContribution in Hc. now apply andb_true_iff in Hc.
  - cbn [Full.monthlyIncomeRow MonthlyIncomeData.ocRecurring MonthlyIncomeData.ocOneTime
         monthIncomeOf MonthIncome.ocRecurring MonthIncome.ocOneTime].
    rewrite !month_contributions_agree, Heq.
    cbn [recurringRow MonthlyContributions.recurring MonthlyContributions.oneTime
         Split.recurring Split.oneTime].
    split; do 2 f_equal; apply filter_ext; intro tx; unfold isOneTimeContribution;
      now destruct (isRecurringContribution tx).
Qed.

End TopContributors.

Lemma monthly_income_rows_witness :
  let rows := Full.categorizeMonthlyIncome Sample.tenContributions in
  NoDup (map MonthlyIncomeData.month rows)
  /\ (forall m, In m (map MonthlyIncomeData.month rows) <->
                exists tx, In tx Sample.tenContributions /\ isReversedOrReverse tx = false
                           /\ CreditDebit tx = CREDIT /\ monthOf tx = m)
  /\ (forall r, In r rows ->
        let credits := creditsOfMonth (MonthlyIncomeData.month r) Sample.tenContributions in
        MonthlyIncomeData.githubSponsors r
        = round2 (amountTotal (filter sponsoredInMonth credits))
        /\ MonthlyIncomeData.ocRecurring r
           = round2 (amountTotal (filter (contributedInMonth true) credits))
        /\ MonthlyIncomeData.ocOneTime r
           = round2 (amountTotal (filter (contributedInMonth false) credits))
        /\ MonthlyIncomeData.other r = round2 (amountTotal (filter otherInMonth credits))
        /\ MonthlyIncomeData.topRecurring r
           = Full.monthTopContributors
               (contributorTotals (filter (contributedInMonth true) credits)) 3
        /\ MonthlyIncomeData.topOneTime r
           = Full.monthTopContributors
               (contributorTotals (filter (contributedInMonth false) credits)) 3)
  /\ StronglySorted
       (fun a b => localeCompare (MonthlyIncomeData.month a) (MonthlyIncomeData.month b) <= 0)
       rows.
Proof.
  exact (monthly_income_rows Sample.tenContributions
           codeUnitCompare_asym codeUnitCompare_trans).
Defined.

(** January of the sample ledger [Sample.tenContributions]: the three
    largest of its seven recurring contributors, and its three one-time
    ones. *)
Lemma monthly_top_contributors_witness :
  exists r,
    In r (Full.categorizeMonthlyIncome Sample.tenContributions)
    /\ map NamedAmount.name (MonthlyIncomeData.topRecurring r) = ["Alan"; "Tony"; "Ada"]
    /\ map NamedAmount.name (MonthlyIncomeData.topOneTime r) = ["Barbara"; "Grace"; "Leslie"]
    /\ (List.length (MonthlyIncomeData.topRecurring r) <= 3)%nat
    /\ NoDup (map NamedAmount.name (MonthlyIncomeData.topOneTime r)).
Proof.
  assert (E : exists r rest,
             Full.categorizeMonthlyIncome Sample.tenContributions = r :: rest
             /\ map NamedAmount.name (MonthlyIncomeData.topRecurring r)
                = ["Alan"; "Tony"; "Ada"]
             /\ map NamedAmount.name (MonthlyIncomeData.topOneTime r)
                = ["Barbara"; "Grace"; "Leslie"]).
  { vm_compute. eexists. eexists. repeat split. }
  destruct E as [r [rest [E [Hrecurring HoneTime]]]].
  assert (Hin : In r (Full.categorizeMonthlyIncome Sample.tenContributions))
    by (rewrite E; now left).
  exists r. split; [exact Hin|]. split; [exact Hrecurring|]. split; [exact HoneTime|].
  pose proof (@monthly_top_contributors Sample.host Sample.tenContributions r Hin) as H.
  cbv zeta in H. destruct H as [[Hlen _] [_ [Hnd _]]]. split; assumption.
Defined.

Lemma monthly_reports_agree_on_contributions_witness :
  exists r,
    In r (analyzeMonthlyRecurringContributions Sample.tenContributions)
    /\ exists r',
         In r' (Full.categorizeMonthlyIncome Sample.tenContributions)
         /\ MonthlyIncomeData.month r' = MonthlyContributions.month r
         /\ MonthlyIncomeData.ocRecurring r' = MonthlyContributions.recurring r
         /\ MonthlyIncomeData.ocOneTime r' = MonthlyContributions.oneTime r.
Proof.
  assert (E : exists r rest,
             analyzeMonthlyRecurringContributions Sample.tenContributions = r :: rest).
  { vm_compute. eexists. eexists. reflexivity. }
  destruct E as [r [rest E]].
  assert (Hin : In r (analyzeMonthlyRecurringContributions Sample.tenContributions))
    by (rewrite E; now left).
  exists r. split; [exact Hin|].
  exact (monthly_reports_agree_on_contributions Sample.tenContributions r Hin).
Defined.

(** * The full variant: other income *)

Lemma splitOn_leading (kind rest : string) :
  noColon kind = true ->
  hd "" (Str.splitOn "::" (Full.otherKey kind rest)) = kind.
Proof.
  unfold Str.splitOn, Full.otherKey. induction kind as [|c kind IH]; intro H.
  { simpl. now destruct rest. }
  cbn [noColon] in H. apply andb_true_iff in H. destruct H as [Hc Hkind].
  apply negb_true_iff, Ascii.eqb_neq in Hc.
  assert (Hp : forall t, String.prefix "::" (String c t) = false).
  { intro t. cbn [String.prefix]. destruct (ascii_dec ":" c) as [E | _]; [|reflexivity].
    now subst c. }
  specialize (IH Hkind).
  change (String.append (String c kind) (String.append "::" rest))
    with (String c (String.append kind (String.append "::" rest))).
  cbn [Str.splitFrom]. rewrite Hp.
  destruct (Str.splitFrom "::" 0 (String.append kind (String.append "::" rest)))
    as [|piece pieces]; simpl in *; now subst.
Qed.

Lemma otherKey_injective (k1 s1 k2 s2 : string) :
  noColon k1 = true -> noColon k2 = true ->
  Full.otherKey k1 s1 = Full.otherKey k2 s2 -> k1 = k2 /\ s1 = s2.
Proof.
  unfold Full.otherKey. revert k2.
  induction k1 as [|c k1 IH]; intros [|c2 k2] H1 H2 Heq; cbn [String.append] in Heq.
  - split; [reflexivity|]. now inversion Heq.
  - inversion Heq; subst. discriminate H2.
  - inversion Heq; subst. discriminate H1.
  - inversion Heq; subst.
    cbn [noColon] in H1, H2. apply andb_true_iff in H1, H2.
    destruct (IH k2 (proj2 H1) (proj2 H2)) as [-> ->]; [assumption | now split].
Qed.

Section OtherIncome.
Context {host : Host}.

Lemma fold_left_otherUpdate (l : list Transaction) (a : JS.number) (c : Z) (s : string) :
  fold_left otherUpdate l (OtherTally.Build_t a c s)
  = OtherTally.Build_t (fold_left JS.add (map AmountSingleColumn l) a)
                       (c + Z.of_nat (List.length l)) s.
Proof.
  revert a c. induction l as [|tx l IH]; intros a c.
  - simpl. f_equal. lia.
  - cbn [fold_left map List.length]. unfold otherUpdate at 2.
    cbn [OtherTally.amount OtherTally.count OtherTally.source]. rewrite IH. f_equal. lia.
Qed.

Lemma otherStep_spec (transactions : list Transaction) :
  fold_left Full.otherStep transactions []
  = tabulate (fun k => foldFrom otherInit otherUpdate (OtherTally.Build_t zero 0 "")
                                (bucket otherKeyOf k (otherIncome transactions)))
             (keysOf otherKeyOf (otherIncome transactions)).
Proof.
  unfold otherIncome.
  rewrite <- (fold_left_filter_skip Full.otherStep isOtherIncome).
  - rewrite fold_left_ext_in with (g := upsert otherKeyOf otherInit otherUpdate).
    + apply fold_left_upsert.
    + intros s tx Hin. apply filter_In in Hin. destruct Hin as [_ H].
      unfold isOtherIncome, isLive, isCredit in H.
      rewrite !andb_true_iff, !negb_true_iff in H. destruct H as [[[H1 H2] H3] H4].
      unfold Full.otherStep. rewrite H1, H2, H3, H4. reflexivity.
  - intros s tx H. unfold isOtherIncome, isLive, isCredit in H. unfold Full.otherStep.
    destruct (isReversedOrReverse tx); [reflexivity|].
    destruct (Direction_eqb (CreditDebit tx) CREDIT); [|reflexivity].
    destruct (Full.isGithubSponsorship (Kind tx) (Full.sourceOrEmpty tx)); [reflexivity|].
    destruct (String.eqb (Kind tx) "CONTRIBUTION"); [reflexivity | discriminate].
Qed.

Lemma other_row_of (transactions : list Transaction) (r : OtherIncomeBreakdown.t) :
  In r (Full.analyzeOtherIncome transactions) ->
  exists first rest,
    In first (otherIncome transactions)
    /\ bucket otherKeyOf (otherKeyOf first) (otherIncome transactions) = first :: rest
    /\ r = {| OtherIncomeBreakdown.kind := hd "" (Str.splitOn "::" (otherKeyOf first));
              OtherIncomeBreakdown.source := Full.sourceOrEmpty first;
              OtherIncomeBreakdown.amount := round2 (amountTotal (first :: rest));
              OtherIncomeBreakdown.count := 1 + Z.of_nat (List.length rest) |}.
Proof.
  unfold Full.analyzeOtherIncome. rewrite otherStep_spec. intro Hr.
  apply sort_In in Hr. unfold tabulate in Hr. rewrite map_map in Hr.
  apply in_map_iff in Hr. destruct Hr as [k [Heq Hk]].
  pose proof (bucket_present _ _ _ Hk) as Hne.
  destruct (bucket otherKeyOf k (otherIncome transactions)) as [|first rest] eqn:Hb;
    [congruence|].
  assert (Hfirst : In first (bucket otherKeyOf k (otherIncome transactions)))
    by (rewrite Hb; now left).
  apply filter_In in Hfirst. destruct Hfirst as [Hin Hkey].
  apply String.eqb_eq in Hkey. subst k.
  exists first, rest. split; [exact Hin|]. split; [exact Hb|].
  rewrite <- Heq. cbn [foldFrom Full.otherRow]. unfold otherInit.
  rewrite fold_left_otherUpdate.
  cbn [OtherTally.source OtherTally.amount OtherTally.count List.length].
  f_equal. rewrite Nat2Z.inj_succ. lia.
Qed.

Lemma other_counts (transactions : list Transaction) :
  sumZ (map OtherIncomeBreakdown.count (Full.analyzeOtherIncome transactions))
  = Z.of_nat (List.length (otherIncome transactions)).
Proof.
  unfold Full.analyzeOtherIncome. rewrite otherStep_spec, rows_total.
  rewrite <- (buckets_partition otherKeyOf (otherIncome transactions)).
  f_equal. apply map_ext_in. intros k Hk.
  pose proof (bucket_present _ _ _ Hk) as Hne.
  destruct (bucket otherKeyOf k (otherIncome transactions)) as [|first rest];
    [congruence|].
  cbn [foldFrom Full.otherRow OtherIncomeBreakdown.count]. unfold otherInit.
  rewrite fold_left_otherUpdate. reflexivity.
Qed.

(** X20. [analyzeOtherIncome] accounts for exactly the credits [categorizeIncome]
    counts as other income: its counts add up to the count of that class.
    A row carries the source of the first credit filed under its key, and
    as kind the text of the key before the first ["::"], which is a kind
    without colon as it stands. *)
Theorem other_income_rows (transactions : list Transaction) :
  let rows := Full.analyzeOtherIncome transactions in
  (forall r, In r rows ->
     exists first rest,
       In first transactions /\ isOtherIncome first = true
       /\ bucket otherKeyOf (otherKeyOf first) (otherIncome transactions) = first :: rest
       /\ OtherIncomeBreakdown.source r = Full.sourceOrEmpty first
       /\ OtherIncomeBreakdown.kind r = hd "" (Str.splitOn "::" (otherKeyOf first))
       /\ (noColon (Kind first) = true -> OtherIncomeBreakdown.kind r = Kind first)
       /\ OtherIncomeBreakdown.amount r = round2 (amountTotal (first :: rest))
       /\ OtherIncomeBreakdown.count r = 1 + Z.of_nat (List.length rest))
  /\ sumZ (map OtherIncomeBreakdown.count rows)
     = AmountCount.count (IncomeSourcesAnalysis.other (Full.categorizeIncome transactions)).
Proof.
  intro rows. split.
  - intros r Hr. destruct (other_row_of _ _ Hr) as [first [rest [Hin [Hb Heq]]]].
    exists first, rest. apply filter_In in Hin. destruct Hin as [Hin Hother].
    rewrite Heq. cbn [OtherIncomeBreakdown.source OtherIncomeBreakdown.kind
                      OtherIncomeBreakdown.amount OtherIncomeBreakdown.count].
    repeat (split; [assumption || reflexivity|]).
    split; [|now split].
    intro Hkind. now apply splitOn_leading.
  - subst rows. rewrite other_counts, categorizeIncome_spec. reflexivity.
Qed.

(** X21. When no kind of other income holds a colon, the rows of
    [analyzeOtherIncome] are the pairs of kind and source: no pair twice,
    and a row holds the rounded sum and the number of the credits of its
    kind from its source. *)
Theorem other_income_by_kind_and_source (transactions : list Transaction)
  (Hkinds : forall tx, In tx transactions -> isOtherIncome tx = true ->
                       noColon (Kind tx) = true) :
  let rows := Full.analyzeOtherIncome transactions in
  NoDup (map (fun r => (OtherIncomeBreakdown.kind r, OtherIncomeBreakdown.source r)) rows)
  /\ (forall r, In r rows ->
        let credits :=
          otherIncomeOf (OtherIncomeBreakdown.kind r) (OtherIncomeBreakdown.source r)
                        transactions in
        credits <> []
        /\ OtherIncomeBreakdown.amount r = round2 (amountTotal credits)
        /\ OtherIncomeBreakdown.count r = Z.of_nat (List.length credits)).
Proof.
  intro rows.
  assert (Hsame : forall first,
             In first (otherIncome transactions) ->
             bucket otherKeyOf (otherKeyOf first) (otherIncome transactions)
             = otherIncomeOf (Kind first) (Full.sourceOrEmpty first) transactions).
  { intros first Hfirst. unfold bucket, otherIncomeOf.
    apply filter_In in Hfirst. destruct Hfirst as [Hin Hother].
    apply filter_ext_in. intros tx Htx.
    apply filter_In in Htx. destruct Htx as [Htx Hother'].
    destruct (String.eqb (otherKeyOf tx) (otherKeyOf first)) eqn:E.
    - apply String.eqb_eq in E.
      destruct (otherKey_injective _ _ _ _ (Hkinds _ Htx Hother') (Hkinds _ Hin Hother) E)
        as [-> ->].
      now rewrite !String.eqb_refl.
    - symmetry. apply not_true_is_false. intro H. apply andb_true_iff in H.
      destruct H as [Hk Hs]. apply String.eqb_eq in Hk, Hs.
      apply String.eqb_neq in E. apply E. unfold otherKeyOf. now rewrite Hk, Hs. }
  split.
  - subst rows. unfold Full.analyzeOtherIncome.
    rewrite <- (Permutation_map _ (sort_Permutation _ _)).
    rewrite otherStep_spec. unfold tabulate. rewrite !map_map.
    apply NoDup_map_in; [|apply NoDup_keysOf].
    intros k1 k2 H1 H2 Heq.
    pose proof (bucket_present _ _ _ H1) as Hne1.
    pose proof (bucket_present _ _ _ H2) as Hne2.
    destruct (bucket otherKeyOf k1 (otherIncome transactions)) as [|f1 r1] eqn:Hb1;
      [congruence|].
    destruct (bucket otherKeyOf k2 (otherIncome transactions)) as [|f2 r2] eqn:Hb2;
      [congruence|].
    assert (Hf1 : In f1 (bucket otherKeyOf k1 (otherIncome transactions)))
      by (rewrite Hb1; now left).
    assert (Hf2 : In f2 (bucket otherKeyOf k2 (otherIncome transactions)))
      by (rewrite Hb2; now left).
    apply filter_In in Hf1, Hf2. destruct Hf1 as [Hin1 Hk1], Hf2 as [Hin2 Hk2].
    apply String.eqb_eq in Hk1, Hk2. subst k1 k2.
    apply filter_In in Hin1, Hin2. destruct Hin1 as [Hi1 Ho1], Hin2 as [Hi2 Ho2].
    cbn [foldFrom Full.otherRow OtherIncomeBreakdown.kind OtherIncomeBreakdown.source] in Heq.
    unfold otherInit in Heq. rewrite !fold_left_otherUpdate in Heq.
    cbn [OtherTally.source] in Heq.
    unfold otherKeyOf in Heq.
    rewrite (splitOn_leading (Kind f1) (Full.sourceOrEmpty f1) (Hkinds _ Hi1 Ho1)) in Heq.
    rewrite (splitOn_leading (Kind f2) (Full.sourceOrEmpty f2) (Hkinds _ Hi2 Ho2)) in Heq.
    inversion Heq as [[Hk Hs]]. unfold otherKeyOf. now rewrite Hk, Hs.
  - intros r Hr. destruct (other_row_of _ _ Hr) as [first [rest [Hin [Hb Heq]]]].
    rewrite (Hsame _ Hin) in Hb.
    assert (Hkind : OtherIncomeBreakdown.kind r = Kind first).
    { rewrite Heq. cbn [OtherIncomeBreakdown.kind]. apply splitOn_leading.
      apply filter_In in Hin. now apply Hkinds. }
    assert (Hsource : OtherIncomeBreakdown.source r = Full.sourceOrEmpty first)
      by (rewrite Heq; reflexivity).
    cbv zeta. rewrite Hkind, Hsource, Hb.
    split; [discriminate|]. rewrite Heq.
    cbn [OtherIncomeBreakdown.amount OtherIncomeBreakdown.count List.length].
    split; [reflexivity|]. rewrite Nat2Z.inj_succ. lia.
Qed.

End OtherIncome.

Lemma other_income_by_kind_and_source_witness :
  let rows := Full.analyzeOtherIncome Sample.addedFunds in
  map (fun r => (OtherIncomeBreakdown.kind r, OtherIncomeBreakdown.source r)) rows
  = [("ADDED_FUNDS", "Foundation"); ("EXPENSE", "Registrar")]
  /\ NoDup (map (fun r => (OtherIncomeBreakdown.kind r, OtherIncomeBreakdown.source r)) rows).
Proof.
  split; [vm_compute; reflexivity|].
  apply (other_income_by_kind_and_source Sample.addedFunds).
  intros tx [<- | [<- | [<- | []]]] _; reflexivity.
Defined.

(** * The order of finite doubles and the comparator of the listings *)

Lemma fexp_least x : -1074 <= fexp JS.prec JS.emax x.
Proof. unfold fexp, emin, JS.prec, JS.emax. lia. Qed.

(** Shifting a mantissa into the format leaves it positive, at an exponent
    of the format. *)
Lemma shr_fexp_positive p e l :
  let r := shr_fexp JS.prec JS.emax (Z.pos p) e l in
  -1074 <= e -> 1 <= shr_m (fst r) /\ -1074 <= snd r.
Proof.
  intros r He. subst r. unfold shr_fexp. cbn [Zdigits2].
  pose proof (Double.digits2_pos_bounds p) as Hd.
  pose proof (fexp_least (Z.pos (digits2_pos p) + e)) as Hf.
  destruct (fexp JS.prec JS.emax (Z.pos (digits2_pos p) + e) - e) as [|n|n] eqn:Hn;
    cbn [shr fst snd].
  - rewrite Double.shr_m_of_loc. lia.
  - rewrite iter_pos_shr_1_div by (rewrite Double.shr_m_of_loc; lia).
    rewrite Double.shr_m_of_loc. split; [|lia].
    assert (Hshift : Z.pos n = Z.pos (digits2_pos p) - 53).
    { unfold fexp, emin, JS.prec, JS.emax in Hn. lia. }
    assert (Hle : 2 ^ Z.pos n <= Z.pos p).
    { apply Z.le_trans with (2 ^ (Z.pos (digits2_pos p) - 1)); [|lia].
      apply Z.pow_le_mono_r; lia. }
    assert (0 < Z.pos p / 2 ^ Z.pos n); [|lia].
    apply Z.div_str_pos. split; [apply Z.pow_pos_nonneg; lia | exact Hle].
  - rewrite Double.shr_m_of_loc. lia.
Qed.

Lemma round_nearest_even_ge m l : m <= round_nearest_even m l.
Proof. destruct l as [|[]]; simpl; try lia. destruct (Z.even m); lia. Qed.

(** Rounding a positive mantissa at an exponent of the format gives a
    number that is not zero: a finite double of the given sign, or the
    infinity of that sign. *)
Lemma binary_round_aux_nonzero s p e l :
  -1074 <= e ->
  let x := binary_round_aux JS.prec JS.emax s (Z.pos p) e l in
  x = S754_infinity s \/ exists m' e', x = S754_finite s m' e' /\ -1074 <= e'.
Proof.
  intros He x. subst x. unfold binary_round_aux.
  destruct (shr_fexp_positive p l He) as [H1 E1].
  destruct (shr_fexp JS.prec JS.emax (Z.pos p) e l) as [mrs' e']. cbn [fst snd] in H1, E1.
  pose proof (round_nearest_even_ge (shr_m mrs') (loc_of_shr_record mrs')) as Hr.
  destruct (round_nearest_even (shr_m mrs') (loc_of_shr_record mrs')) as [|q|q]; try lia.
  destruct (shr_fexp_positive q loc_Exact E1) as [H2 E2].
  destruct (shr_fexp JS.prec JS.emax (Z.pos q) e' loc_Exact) as [mrs'' e''].
  cbn [fst snd] in H2, E2.
  destruct (shr_m mrs'') as [|m|m]; try lia.
  destruct (e'' <=? JS.emax - JS.prec); [right | now left].
  exists m, e''. now split.
Qed.

Lemma binary_round_nonzero s p e :
  -1074 <= e ->
  let x := binary_round JS.prec JS.emax s p e in
  x = S754_infinity s \/ exists m' e', x = S754_finite s m' e' /\ -1074 <= e'.
Proof.
  intros He x. subst x. unfold binary_round.
  pose proof (fexp_least (Z.pos (digits2_pos p) + e)) as Hf.
  unfold shl_align.
  destruct (fexp JS.prec JS.emax (Z.pos (digits2_pos p) + e) - e) as [|d|d] eqn:Hd;
    now apply binary_round_aux_nonzero.
Qed.

(** The sign of a difference survives its rounding. *)
Lemma normalize_positive (d e : Z) :
  -1074 <= e -> JS.gt (binary_normalize JS.prec JS.emax d e false) zero = (0 <? d).
Proof.
  intro He. unfold JS.gt, binary_normalize.
  destruct d as [|p|p]; [reflexivity | |].
  - destruct (binary_round_nonzero false p He) as [-> | [m' [e' [-> _]]]]; reflexivity.
  - destruct (binary_round_nonzero true p He) as [-> | [m' [e' [-> _]]]]; reflexivity.
Qed.

Lemma scaled_aligned (s : bool) (m : positive) (e ez : Z) :
  -1074 <= ez -> ez <= e ->
  scaled (S754_finite s m e)
  = cond_Zopp s (Z.pos (fst (shl_align m e ez))) * 2 ^ (ez + 1074).
Proof.
  intros Hz Hle. rewrite Double.shl_align_fst by exact Hle.
  cbn [scaled]. replace (e + 1074) with ((e - ez) + (ez + 1074)) by lia.
  rewrite Z.pow_add_r by lia.
  unfold JS.signed, cond_Zopp. destruct s; lia.
Qed.

(** On finite doubles the comparator [(a, b) => b.amount - a.amount] is
    positive exactly when [b] is the greater number. *)
Lemma afterAmount_finite (a b : JS.number) :
  finiteDouble a = true -> finiteDouble b = true ->
  afterAmount a b = (scaled a <? scaled b).
Proof.
  unfold afterAmount.
  destruct a as [sa | sa | | sa ma ea]; try discriminate;
    destruct b as [sb | sb | | sb mb eb]; try discriminate; cbn [finiteDouble]; intros Ha Hb.
  - destruct sa, sb; reflexivity.
  - cbn [JS.sub SFsub scaled].
    assert (Hp : 0 < 2 ^ (eb + 1074)) by (apply Z.pow_pos_nonneg; apply Z.leb_le in Hb; lia).
    change zero with (S754_zero false).
    destruct sb; cbn [JS.gt SFltb SFcompare JS.signed]; symmetry;
      [apply Z.ltb_ge | apply Z.ltb_lt]; nia.
  - cbn [JS.sub SFsub scaled].
    assert (Hp : 0 < 2 ^ (ea + 1074)) by (apply Z.pow_pos_nonneg; apply Z.leb_le in Ha; lia).
    change zero with (S754_zero false).
    destruct sa; cbn [JS.gt SFltb SFcompare JS.signed negb]; symmetry;
      [apply Z.ltb_lt | apply Z.ltb_ge]; nia.
  - apply Z.leb_le in Ha, Hb. unfold JS.sub, SFsub.
    set (ez := Z.min eb ea).
    assert (Hz : -1074 <= ez) by (unfold ez; lia).
    rewrite normalize_positive by exact Hz.
    rewrite (@scaled_aligned sa ma ea ez), (@scaled_aligned sb mb eb ez)
      by (unfold ez; lia).
    assert (Hp : 0 < 2 ^ (ez + 1074)) by (apply Z.pow_pos_nonneg; lia).
    destruct (0 <? _) eqn:E1; symmetry;
      [apply Z.ltb_lt in E1; apply Z.ltb_lt | apply Z.ltb_ge in E1; apply Z.ltb_ge]; nia.
Qed.

Section SortedOn.
Variable A : Type.
Variable after : A -> A -> bool.
Variable P : A -> Prop.
Variable R : A -> A -> Prop.
Hypothesis before : forall a b, P a -> P b -> after a b = false -> R a b.
Hypothesis behind : forall a b, P a -> P b -> after a b = true -> R b a.
Hypothesis R_trans : forall a b c, R a b -> R b c -> R a c.

Lemma insert_sorted_on (x : A) (l : list A) :
  P x -> Forall P l -> StronglySorted R l -> StronglySorted R (insert after x l).
Proof.
  intros Hx Hl Hs. induction Hs as [|y l Hs IH Hall]; simpl.
  - repeat constructor.
  - inversion Hl as [|? ? Hy Hl']; subst.
    destruct (after x y) eqn:E.
    + constructor; [now apply IH|].
      apply (Permutation_Forall (insert_Permutation after x l)).
      constructor; [now apply behind | assumption].
    + constructor; [now constructor|].
      constructor; [now apply before|].
      eapply Forall_impl; [|exact Hall].
      intros z Hz. apply R_trans with y; [now apply before | assumption].
Qed.

Lemma sort_sorted_on (l : list A) : Forall P l -> StronglySorted R (sort after l).
Proof.
  induction l as [|x l IH]; intro H; simpl; [constructor|].
  inversion H; subst. apply insert_sorted_on; [assumption | | now apply IH].
  now apply sort_Forall.
Qed.
End SortedOn.

(** Rows whose amounts are finite doubles come out of the sort by
    descending amount in descending order. *)
Lemma sort_by_amount (A : Type) (amount : A -> JS.number) (l : list A) :
  Forall (fun r => finiteDouble (amount r) = true) l ->
  StronglySorted (fun a b => scaled (amount b) <= scaled (amount a))
                 (sort (fun a b => afterAmount (amount a) (amount b)) l).
Proof.
  apply sort_sorted_on.
  - intros a b Ha Hb H. rewrite afterAmount_finite in H by assumption.
    now apply Z.ltb_ge in H.
  - intros a b Ha Hb H. rewrite afterAmount_finite in H by assumption.
    apply Z.ltb_lt in H. lia.
  - intros a b c Hab Hbc. lia.
Qed.

Lemma shr_fexp_least m e l : -1074 <= snd (shr_fexp JS.prec JS.emax m e l).
Proof.
  unfold shr_fexp. pose proof (fexp_least (Zdigits2 m + e)) as Hf.
  destruct (fexp JS.prec JS.emax (Zdigits2 m + e) - e) eqn:Hn; cbn [shr snd]; lia.
Qed.

(** Whatever is rounded, a finite result has an exponent of the format. *)
Lemma binary_round_aux_least s m e l :
  0 <= m ->
  let x := binary_round_aux JS.prec JS.emax s m e l in
  x = S754_zero s \/ x = S754_infinity s
  \/ exists m' e', x = S754_finite s m' e' /\ -1074 <= e'.
Proof.
  intros H x. subst x. unfold binary_round_aux.
  pose proof (Double.shr_fexp_nonneg e l H) as H1.
  destruct (shr_fexp JS.prec JS.emax m e l) as [mrs' e']. cbn [fst] in H1.
  pose proof (Double.shr_fexp_nonneg e' loc_Exact
                (Double.round_nearest_even_nonneg (loc_of_shr_record mrs') H1)) as H2.
  pose proof (shr_fexp_least
                (round_nearest_even (shr_m mrs') (loc_of_shr_record mrs')) e' loc_Exact) as E2.
  destruct (shr_fexp JS.prec JS.emax _ e' loc_Exact) as [mrs'' e'']. cbn [fst snd] in H2, E2.
  destruct (shr_m mrs'') as [|p|p]; [now left | | lia].
  destruct (e'' <=? JS.emax - JS.prec); [|right; now left].
  right; right. exists p, e''. now split.
Qed.

(** A quotient that is a finite number is a finite double; so is, in
    particular, every finite amount that went through the rounding to
    cents. *)
Lemma div_finite (x y : JS.number) :
  isFiniteNumber (JS.div x y) = true -> finiteDouble (JS.div x y) = true.
Proof.
  unfold JS.div.
  destruct x as [sx | sx | | sx mx ex], y as [sy | sy | | sy my ey]; cbn [SFdiv];
    try discriminate; try reflexivity.
  pose proof (Double.div_core_nonneg mx ex my ey) as Hq.
  destruct (SFdiv_core_binary JS.prec JS.emax (Z.pos mx) ex (Z.pos my) ey) as [[q e'] l].
  cbn [fst] in Hq.
  destruct (binary_round_aux_least (xorb sx sy) e' l Hq) as [-> | [-> | [m'' [e'' [-> He]]]]];
    try discriminate; try reflexivity.
  intros _. now apply Z.leb_le.
Qed.

Lemma round2_finite (x : JS.number) :
  isFiniteNumber (round2 x) = true -> finiteDouble (round2 x) = true.
Proof. apply div_finite. Qed.

Lemma StronglySorted_app_inv (A : Type) (R : A -> A -> Prop) (l1 l2 : list A) :
  StronglySorted R (l1 ++ l2) -> forall a b, In a l1 -> In b l2 -> R a b.
Proof.
  induction l1 as [|x l1 IH]; intros Hs a b Ha Hb; [contradiction|].
  inversion Hs as [|? ? Hs' Hall]; subst. destruct Ha as [-> | Ha].
  - rewrite Forall_forall in Hall. apply Hall, in_or_app. now right.
  - now apply IH.
Qed.

Lemma StronglySorted_firstn (A : Type) (R : A -> A -> Prop) (n : nat) (l : list A) :
  StronglySorted R l -> StronglySorted R (firstn n l).
Proof.
  intro Hs. revert n. induction Hs as [|x l Hs IH Hall]; intros [|n]; simpl;
    try constructor.
  - apply IH.
  - rewrite Forall_forall in *. intros y Hy. apply Hall. now apply In_firstn in Hy.
Qed.

(** The first [n] rows of a list in descending order, and the others. *)
Lemma leading_rows (A : Type) (amount : A -> JS.number) (n : nat) (l : list A) :
  descending amount l ->
  descending amount (firstn n l) /\ outranks amount (firstn n l) (skipn n l).
Proof.
  intro Hs. split; [now apply StronglySorted_firstn|].
  intros a b Ha Hb. rewrite <- (firstn_skipn n l) in Hs.
  exact (StronglySorted_app_inv _ _ Hs a b Ha Hb).
Qed.

(** * Reports in descending order of amount *)

Section DescendingReports.
Context {host : Host}.

Lemma sorted_rows (A : Type) (amount : A -> JS.number) (l : list A) :
  (forall r, In r (sort (fun a b => afterAmount (amount a) (amount b)) l) ->
             isFiniteNumber (amount r) = true -> finiteDouble (amount r) = true) ->
  Forall (fun r => isFiniteNumber (amount r) = true)
         (sort (fun a b => afterAmount (amount a) (amount b)) l) ->
  descending amount (sort (fun a b => afterAmount (amount a) (amount b)) l).
Proof.
  intros Hround Hfinite. apply sort_by_amount.
  apply Forall_forall. intros r Hr.
  assert (Hr' : In r (sort (fun a b => afterAmount (amount a) (amount b)) l))
    by now apply sort_In.
  apply Hround; [exact Hr'|]. rewrite Forall_forall in Hfinite. now apply Hfinite.
Qed.

Lemma toBreakdown_descending (m : smap Tally.t) :
  Forall (fun r => isFiniteNumber (SourceBreakdown.amount r) = true) (toBreakdown m) ->
  descending SourceBreakdown.amount (toBreakdown m).
Proof.
  unfold toBreakdown. apply sorted_rows.
  intros r Hr. apply sort_In, in_map_iff in Hr. destruct Hr as [[k v] [<- _]].
  apply round2_finite.
Qed.

Lemma analyzeExpenses_descending (transactions : list Transaction) :
  Forall (fun r => isFiniteNumber (ExpenseBreakdown.amount r) = true)
         (analyzeExpenses transactions) ->
  descending ExpenseBreakdown.amount (analyzeExpenses transactions).
Proof.
  unfold analyzeExpenses. apply sorted_rows.
  intros r Hr. apply sort_In, in_map_iff in Hr. destruct Hr as [[k v] [<- _]].
  apply round2_finite.
Qed.

(** X22. Every report that is sorted by amount comes in descending order of it,
    provided all the amounts it lists are finite numbers. *)
Theorem breakdowns_are_in_descending_order (transactions : list Transaction) :
  let finite (A : Type) (amount : A -> JS.number) (rows : list A) :=
    Forall (fun r => isFiniteNumber (amount r) = true) rows in
  let ordered (A : Type) (amount : A -> JS.number) (rows : list A) :=
    finite A amount rows -> descending amount rows in
  ordered _ SourceBreakdown.amount (analyzeIncomeSources transactions)
  /\ ordered _ ExpenseBreakdown.amount (analyzeExpenses transactions)
  /\ ordered _ SourceBreakdown.amount (analyzeExpensesByCategory transactions)
  /\ ordered _ SourceBreakdown.amount (Full.analyzeExpensesByCategory transactions)
  /\ ordered _ SourceBreakdown.amount
       (ContributorAnalysis.contributors
          (ContributorAnalysis.recurring (analyzeContributions transactions)))
  /\ ordered _ SourceBreakdown.amount
       (ContributorAnalysis.contributors
          (ContributorAnalysis.oneTime (analyzeContributions transactions)))
  /\ ordered _ SalaryAnalysis.totalPaid (analyzeSalariedExpenses transactions)
  /\ ordered _ OtherIncomeBreakdown.amount (Full.analyzeOtherIncome transactions).
Proof.
  intros finite ordered. subst finite ordered. cbv beta.
  split; [apply toBreakdown_descending|].
  split; [apply analyzeExpenses_descending|].
  split; [apply toBreakdown_descending|].
  split; [apply toBreakdown_descending|].
  split; [|split; [|split]].
  - unfold analyzeContributions.
    destruct (fold_left contributionStep transactions ([], [])) as [recurringMap oneTimeMap].
    apply toBreakdown_descending.
  - unfold analyzeContributions.
    destruct (fold_left contributionStep transactions ([], [])) as [recurringMap oneTimeMap].
    apply toBreakdown_descending.
  - unfold analyzeSalariedExpenses. apply sorted_rows.
    intros r Hr. apply sort_In, in_map_iff in Hr. destruct Hr as [[k v] [<- _]].
    apply round2_finite.
  - unfold Full.analyzeOtherIncome. apply sorted_rows.
    intros r Hr. apply sort_In, in_map_iff in Hr. destruct Hr as [[k v] [<- _]].
    apply round2_finite.
Qed.

(** X23. [getTopContributors] and [getTopExpenses] return the leading rows of
    their breakdowns, [limit] of them when there are that many and all of
    them otherwise; when the amounts are finite numbers these rows are in
    descending order and no row left out has a greater amount than a row
    returned. *)
Theorem top_rows_lead_their_breakdowns (transactions : list Transaction) (limit : nat) :
  let leads (A : Type) (amount : A -> JS.number) (top rows : list A) :=
    top = firstn limit rows
    /\ List.length top = Nat.min limit (List.length rows)
    /\ rows = top ++ skipn limit rows
    /\ (Forall (fun r => isFiniteNumber (amount r) = true) rows ->
        descending amount top /\ outranks amount top (skipn limit rows)) in
  leads _ SourceBreakdown.amount
        (getTopContributors transactions (Z.of_nat limit)) (analyzeIncomeSources transactions)
  /\ leads _ ExpenseBreakdown.amount
           (getTopExpenses transactions (Z.of_nat limit)) (analyzeExpenses transactions).
Proof.
  intro leads. subst leads. cbv beta.
  unfold getTopContributors, getTopExpenses. rewrite !sliceTo_firstn.
  split.
  - split; [reflexivity|]. split; [apply length_firstn|].
    split; [symmetry; apply firstn_skipn|].
    intro Hfinite. apply leading_rows. now apply toBreakdown_descending.
  - split; [reflexivity|]. split; [apply length_firstn|].
    split; [symmetry; apply firstn_skipn|].
    intro Hfinite. apply leading_rows. now apply analyzeExpenses_descending.
Qed.

End DescendingReports.

Lemma StronglySorted_filter (A : Type) (R : A -> A -> Prop) (f : A -> bool) (l : list A) :
  StronglySorted R l -> StronglySorted R (filter f l).
Proof.
  induction 1 as [|x l Hs IH Hall]; simpl; [constructor|].
  destruct (f x); [|assumption].
  constructor; [assumption|].
  rewrite Forall_forall in *. intros y Hy. apply Hall. now apply filter_In in Hy.
Qed.

Lemma split_leading (c : ascii) (d t : string) :
  lacks c d = true -> hd "" (Str.split c (String.append d (String c t))) = d.
Proof.
  induction d as [|a d IH]; cbn [lacks String.append Str.split]; intro H.
  - now rewrite Ascii.eqb_refl.
  - apply andb_true_iff in H. destruct H as [Ha Hd]. apply negb_true_iff in Ha.
    rewrite Ha. specialize (IH Hd).
    destruct (Str.split c (String.append d (String c t))); simpl in *; now subst.
Qed.

Lemma split_nothing (c : ascii) (d : string) :
  lacks c d = true -> hd "" (Str.split c d) = d.
Proof.
  induction d as [|a d IH]; cbn [lacks Str.split]; intro H; [reflexivity|].
  apply andb_true_iff in H. destruct H as [Ha Hd]. apply negb_true_iff in Ha.
  rewrite Ha. specialize (IH Hd).
  destruct (Str.split c d); simpl in *; now subst.
Qed.

(** * The largest single contributions *)

Section LargestContributions.
Context {host : Host}.

Lemma creditContributions_liveCredits (transactions : list Transaction) :
  creditContributions transactions = map contributionOf (liveCredits transactions).
Proof. reflexivity. Qed.

Lemma byAmountDescending_descending (transactions : list Transaction) :
  (forall tx, In tx (liveCredits transactions) ->
              finiteDouble (AmountSingleColumn tx) = true) ->
  descending SingleContribution.amount
             (byAmountDescending (creditContributions transactions)).
Proof.
  intro Hfinite. unfold byAmountDescending. apply sort_by_amount.
  rewrite creditContributions_liveCredits. apply Forall_forall. intros c Hc.
  apply in_map_iff in Hc. destruct Hc as [tx [<- Htx]]. now apply Hfinite.
Qed.

(** X24. When the amounts of the non-excluded credits are finite doubles,
    [getLargestSingleContributions] returns the [limit] largest of them (all
    of them when there are fewer) in descending order of amount: no credit
    left out has a greater amount than one returned.
    [getLargestOneTimeContributions] returns one-time contributions only,
    in descending order as well. *)
Theorem largest_contributions_are_the_largest
  (transactions : list Transaction) (limit : nat)
  (Hfinite : forall tx, In tx (liveCredits transactions) ->
                        finiteDouble (AmountSingleColumn tx) = true) :
  let ranked := byAmountDescending (creditContributions transactions) in
  let top := getLargestSingleContributions transactions (Z.of_nat limit) in
  Permutation (creditContributions transactions) ranked
  /\ ranked = top ++ skipn limit ranked
  /\ List.length top = Nat.min limit (List.length (liveCredits transactions))
  /\ descending SingleContribution.amount top
  /\ outranks SingleContribution.amount top (skipn limit ranked)
  /\ descending SingleContribution.amount
       (getLargestOneTimeContributions transactions (Z.of_nat limit))
  /\ Forall (fun c => SingleContribution.isRecurring c = false)
            (getLargestOneTimeContributions transactions (Z.of_nat limit)).
Proof.
  intros ranked top.
  pose proof (byAmountDescending_descending _ Hfinite) as Hsorted. fold ranked in Hsorted.
  assert (Htop : top = firstn limit ranked).
  { subst top ranked. unfold getLargestSingleContributions.
    now rewrite largestStep_spec, sliceTo_firstn. }
  destruct (leading_rows limit Hsorted) as [Hdesc Hout].
  split; [apply sort_Permutation|]. rewrite Htop.
  split; [symmetry; apply firstn_skipn|].
  split.
  { rewrite length_firstn. subst ranked. unfold byAmountDescending.
    now rewrite sort_length, creditContributions_liveCredits, length_map. }
  split; [exact Hdesc|]. split; [exact Hout|].
  unfold getLargestOneTimeContributions, getLargestSingleContributions.
  rewrite largestStep_spec. change 1000 with (Z.of_nat 1000). rewrite !sliceTo_firstn.
  fold ranked. split.
  - apply StronglySorted_firstn, StronglySorted_filter, StronglySorted_firstn, Hsorted.
  - apply Forall_forall. intros c Hc. apply In_firstn, filter_In in Hc.
    destruct Hc as [_ Hc]. now apply negb_true_iff in Hc.
Qed.

(** X25. Every contribution [getLargestSingleContributions] lists stands for a
    non-excluded credit: it carries the credit's counterparty, its
    description and its amount as it stands, not rounded, and as date the
    text of the timestamp before the first ["T"], the whole timestamp when
    it holds none. *)
Theorem largest_contributions_stand_for_credits
  (transactions : list Transaction) (limit : Z) (c : SingleContribution.t)
  (Hlisted : In c (getLargestSingleContributions transactions limit)) :
  exists tx,
    In tx transactions /\ isReversedOrReverse tx = false /\ CreditDebit tx = CREDIT
    /\ SingleContribution.source c = counterparty tx
    /\ SingleContribution.description c = Description tx
    /\ SingleContribution.amount c = AmountSingleColumn tx
    /\ SingleContribution.isRecurring c = isRecurringContribution tx
    /\ (forall date time,
          EffectiveDateTime tx = String.append date (String "T" time) ->
          lacks "T" date = true -> SingleContribution.date c = date)
    /\ (lacks "T" (EffectiveDateTime tx) = true ->
        SingleContribution.date c = EffectiveDateTime tx).
Proof.
  unfold getLargestSingleContributions, sliceTo in Hlisted.
  apply In_firstn in Hlisted. rewrite largestStep_spec in Hlisted.
  unfold byAmountDescending in Hlisted. apply sort_In in Hlisted.
  rewrite creditContributions_liveCredits in Hlisted.
  apply in_map_iff in Hlisted. destruct Hlisted as [tx [<- Htx]].
  apply In_liveCredits in Htx. destruct Htx as [Hin [Hlive Hcredit]].
  exists tx. repeat (split; [assumption || reflexivity|]).
  cbn [contributionOf SingleContribution.date]. split.
  - intros date time Hstamp Hdate. rewrite Hstamp. now apply split_leading.
  - apply split_nothing.
Qed.

End LargestContributions.


Lemma sample_amounts_are_finite (transactions : list Transaction) :
  forallb (fun tx => finiteDouble (AmountSingleColumn tx)) transactions = true ->
  forall tx, In tx (liveCredits transactions) -> finiteDouble (AmountSingleColumn tx) = true.
Proof.
  intros H tx Htx. rewrite forallb_forall in H. apply H.
  now apply filter_In in Htx.
Qed.

(** The five largest of the ten contributions of the sample ledger. *)
Lemma largest_contributions_are_the_largest_witness :
  map SingleContribution.source (getLargestSingleContributions Sample.tenContributions 5)
  = ["Alan"; "Barbara"; "Tony"; "Ada"; "Donald"]
  /\ descending SingleContribution.amount
                (getLargestSingleContributions Sample.tenContributions (Z.of_nat 5)).
Proof.
  split; [vm_compute; reflexivity|].
  assert (Hfinite : forall tx, In tx (liveCredits Sample.tenContributions) ->
                               finiteDouble (AmountSingleColumn tx) = true).
  { apply sample_amounts_are_finite. vm_compute. reflexivity. }
  pose proof (largest_contributions_are_the_largest Sample.tenContributions 5 Hfinite) as H.
  cbv zeta in H. destruct H as (_ & _ & _ & H & _). exact H.
Defined.

Lemma largest_contributions_stand_for_credits_witness :
  exists c,
    In c (getLargestSingleContributions Sample.tenContributions 5)
    /\ SingleContribution.source c = "Alan"
    /\ SingleContribution.date c = "2024-01-07"
    /\ exists tx,
         In tx Sample.tenContributions /\ isReversedOrReverse tx = false
         /\ CreditDebit tx = CREDIT
         /\ SingleContribution.source c = counterparty tx
         /\ SingleContribution.description c = Description tx
         /\ SingleContribution.amount c = AmountSingleColumn tx
         /\ SingleContribution.isRecurring c = isRecurringContribution tx
         /\ (forall date time,
               EffectiveDateTime tx = String.append date (String "T" time) ->
               lacks "T" date = true -> SingleContribution.date c = date)
         /\ (lacks "T" (EffectiveDateTime tx) = true ->
             SingleContribution.date c = EffectiveDateTime tx).
Proof.
  assert (Hin : In (contributionOf (Sample.monthly "2024-01-07T12:00:00.000Z" "Alan" 900))
                   (getLargestSingleContributions Sample.tenContributions 5)).
  { vm_compute. left. reflexivity. }
  eexists. split; [exact Hin|].
  split; [reflexivity|]. split; [reflexivity|].
  exact (largest_contributions_stand_for_credits Sample.tenContributions 5 _ Hin).
Defined.

Lemma breakdowns_are_in_descending_order_witness :
  map SourceBreakdown.source (analyzeIncomeSources Sample.tenContributions)
  = ["Alan"; "Barbara"; "Tony"; "Ada"; "Donald"; "Robin"; "Grace"; "Niklaus"; "Edsger";
     "Leslie"]
  /\ descending SourceBreakdown.amount (analyzeIncomeSources Sample.tenContributions).
Proof.
  split; [vm_compute; reflexivity|].
  apply (proj1 (breakdowns_are_in_descending_order Sample.tenContributions)).
  apply Forall_forall. apply forallb_forall. vm_compute. reflexivity.
Defined.

Lemma top_rows_lead_their_breakdowns_witness :
  map SourceBreakdown.source (getTopContributors Sample.tenContributions 3)
  = ["Alan"; "Barbara"; "Tony"]
  /\ outranks SourceBreakdown.amount
              (getTopContributors Sample.tenContributions (Z.of_nat 3))
              (skipn 3 (analyzeIncomeSources Sample.tenContributions)).
Proof.
  split; [vm_compute; reflexivity|].
  destruct (top_rows_lead_their_breakdowns Sample.tenContributions 3)
    as [[_ [_ [_ Hlead]]] _].
  apply Hlead. apply Forall_forall. apply forallb_forall. vm_compute. reflexivity.
Defined.

(** * The months of the reports *)

Section ReportMonths.
Context {host : Host}.

Lemma credits_of_month (m : string) (transactions : list Transaction) :
  filter isCredit (monthTransactions m transactions) = creditsOfMonth m transactions.
Proof.
  unfold monthTransactions, creditsOfMonth, bucket, withoutReversals, liveCredits.
  rewrite !filter_filter. apply filter_ext. intro tx. unfold isLive.
  destruct (negb (isReversedOrReverse tx)), (String.eqb (monthOf tx) m), (isCredit tx);
    reflexivity.
Qed.

Lemma summary_has_month (transactions : list Transaction) (tx : Transaction) :
  In tx transactions -> isReversedOrReverse tx = false ->
  In (summaryRow transactions (monthOf tx)) (calculateMonthlyData transactions).
Proof.
  intros Hin Hlive. rewrite calculateMonthlyData_spec. apply sort_In, in_map.
  apply In_keysOf. exists tx. split; [|reflexivity].
  apply filter_In. split; [exact Hin | now rewrite Hlive].
Qed.

(** X19. The reports by month agree with the monthly summary: a month of
    [categorizeMonthlyIncome] is a month of [calculateMonthlyData], whose
    income is the rounded sum of the very credits the former sorts into its
    four classes; and a month of [analyzeMonthlyRecurringContributions] is
    a month of the summary too. *)
Theorem income_months_are_summary_months (transactions : list Transaction) :
  (forall r', In r' (Full.categorizeMonthlyIncome transactions) ->
     exists r,
       In r (calculateMonthlyData transactions)
       /\ MonthlyData.month r = MonthlyIncomeData.month r'
       /\ MonthlyData.income r
          = round2 (amountTotal (creditsOfMonth (MonthlyIncomeData.month r') transactions)))
  /\ (forall c, In c (analyzeMonthlyRecurringContributions transactions) ->
        In (MonthlyContributions.month c)
           (map MonthlyData.month (calculateMonthlyData transactions))).
Proof.
  split.
  - intros r' Hr'. unfold Full.categorizeMonthlyIncome in Hr'.
    rewrite monthlyIncomeStep_spec in Hr'.
    match type of Hr' with
    | context [tabulate ?g0 ?ks0] =>
        destruct (rows_of_tabulate Full.monthlyIncomeRow MonthlyIncomeData.month
                    (fun a b => afterMonth (MonthlyIncomeData.month a)
                                           (MonthlyIncomeData.month b))
                    (fun k v => eq_refl) g0 ks0) as [_ Hrow]
    end.
    destruct (Hrow r' Hr') as [Hk _]. apply In_keysOf in Hk.
    destruct Hk as [tx [Htx Hm]]. apply In_liveCredits in Htx.
    destruct Htx as [Hin [Hlive _]].
    exists (summaryRow transactions (monthOf tx)).
    split; [now apply summary_has_month|]. split; [exact Hm|].
    cbn [summaryRow MonthlyData.income]. unfold creditTotal.
    now rewrite credits_of_month, Hm.
  - intros c Hc. unfold analyzeMonthlyRecurringContributions in Hc.
    rewrite recurringStep_spec in Hc.
    match type of Hc with
    | context [tabulate ?g0 ?ks0] =>
        destruct (rows_of_tabulate recurringRow MonthlyContributions.month
                    (fun a b => afterMonth (MonthlyContributions.month a)
                                           (MonthlyContributions.month b))
                    (fun k v => eq_refl) g0 ks0) as [_ Hrow]
    end.
    destruct (Hrow c Hc) as [Hk _]. apply In_keysOf in Hk.
    destruct Hk as [tx [Htx Hm]]. apply filter_In in Htx. destruct Htx as [Hin Hc'].
    unfold isContribution, isLive in Hc'. rewrite !andb_true_iff, negb_true_iff in Hc'.
    rewrite <- Hm.
    change (monthOf tx) with (MonthlyData.month (summaryRow transactions (monthOf tx))).
    apply in_map, summary_has_month; tauto.
Qed.

(** * Expenses without a category *)

(** X26. A debit that no description rule claims and whose category name is the
    empty text is filed under ["Uncategorized"], whatever its kind: only a
    category name that is missing altogether gives way to the kind, so that
    the same debit of kind ["EXPENSE"] without a category name is filed
    under ["Miscellaneous"]. *)
Theorem blank_category_is_uncategorized (tx : Transaction)
  (Hlive : isReversedOrReverse tx = false) (Hdebit : CreditDebit tx = DEBIT)
  (Hstipend : Str.includes "core maintainer stipend" (toLowerCase (Description tx)) = false)
  (Haward : Str.includes "community award" (toLowerCase (Description tx)) = false) :
  (AccountingCategoryName tx = Some "" ->
   expenseCategory tx = "Uncategorized" /\ Full.expenseCategory tx = "Uncategorized"
   /\ map SourceBreakdown.source (analyzeExpensesByCategory [tx]) = ["Uncategorized"])
  /\ (AccountingCategoryName tx = None -> Kind tx = "" ->
      expenseCategory tx = "Uncategorized" /\ Full.expenseCategory tx = "Uncategorized")
  /\ (AccountingCategoryName tx = None -> Kind tx = "EXPENSE" ->
      expenseCategory tx = "Miscellaneous" /\ Full.expenseCategory tx = "Miscellaneous"
      /\ map SourceBreakdown.source (analyzeExpensesByCategory [tx]) = ["Miscellaneous"]).
Proof.
  assert (Hone : forall label, expenseCategory tx = label ->
                   map SourceBreakdown.source (analyzeExpensesByCategory [tx]) = [label]).
  { intros label Hlabel. unfold analyzeExpensesByCategory. cbn [fold_left].
    rewrite categoryStep_live_debit, Hlabel by assumption. reflexivity. }
  split; [|split].
  - intro Hblank.
    assert (H : expenseCategory tx = "Uncategorized").
    { unfold expenseCategory, effectiveCategory. now rewrite Hblank, Hstipend, Haward. }
    split; [exact H|]. split; [|now apply Hone].
    unfold Full.expenseCategory, effectiveCategory. now rewrite Hblank, Hstipend, Haward.
  - intros Hnone Hkind. split.
    + unfold expenseCategory, effectiveCategory. now rewrite Hnone, Hkind, Hstipend, Haward.
    + unfold Full.expenseCategory, effectiveCategory.
      now rewrite Hnone, Hkind, Hstipend, Haward.
  - intros Hnone Hkind.
    assert (H : expenseCategory tx = "Miscellaneous").
    { unfold expenseCategory, effectiveCategory. now rewrite Hnone, Hkind, Hstipend, Haward. }
    split; [exact H|]. split; [|now apply Hone].
    unfold Full.expenseCategory, effectiveCategory. now rewrite Hnone, Hkind, Hstipend, Haward.
Qed.

End ReportMonths.

Lemma blank_category_is_uncategorized_witness :
  expenseCategory Sample.blankCategory = "Uncategorized"
  /\ Full.expenseCategory Sample.blankCategory = "Uncategorized"
  /\ map SourceBreakdown.source (analyzeExpensesByCategory [Sample.blankCategory])
     = ["Uncategorized"].
Proof.
  apply (@blank_category_is_uncategorized Sample.host Sample.blankCategory); reflexivity.
Defined.

(** * The monthly average of the salaries *)

Section SalaryAverage.
Context {host : Host}.

Lemma earliestOf_member (first : string) (l : list Transaction) :
  earliestOf first l = first \/ exists tx, In tx l /\ earliestOf first l = monthOf tx.
Proof.
  revert first. induction l as [|tx l IH]; intro first; [now left|].
  change (earliestOf first (tx :: l))
    with (earliestOf (if String.ltb (monthOf tx) first then monthOf tx else first) l).
  destruct (IH (if String.ltb (monthOf tx) first then monthOf tx else first))
    as [H | [u [Hin Hu]]].
  - rewrite H. destruct (String.ltb (monthOf tx) first); [|now left].
    right. exists tx. split; [now left | reflexivity].
  - right. exists u. split; [now right | exact Hu].
Qed.

Lemma latestOf_member (first : string) (l : list Transaction) :
  latestOf first l = first \/ exists tx, In tx l /\ latestOf first l = monthOf tx.
Proof.
  revert first. induction l as [|tx l IH]; intro first; [now left|].
  change (latestOf first (tx :: l))
    with (latestOf (if String.ltb first (monthOf tx) then monthOf tx else first) l).
  destruct (IH (if String.ltb first (monthOf tx) then monthOf tx else first))
    as [H | [u [Hin Hu]]].
  - rewrite H. destruct (String.ltb first (monthOf tx)); [|now left].
    right. exists tx. split; [now left | reflexivity].
  - right. exists u. split; [now right | exact Hu].
Qed.

(** The row of a recipient all of whose payments carry valid dates. *)
Lemma dated_salary_row (first : Transaction) (rest : list Transaction) :
  Forall validDate (first :: rest) ->
  exists y1 m1 y2 m2,
    earliestOf (monthOf first) (first :: rest) = monthKey y1 m1
    /\ latestOf (monthOf first) (first :: rest) = monthKey y2 m2
    /\ (1000 <= y1 <= 9999 /\ 0 <= m1 <= 11)
    /\ (1000 <= y2 <= 9999 /\ 0 <= m2 <= 11)
    /\ (forall tx, In tx (first :: rest) -> y1 * 12 + m1 <= monthNumber tx <= y2 * 12 + m2)
    /\ (exists tx, In tx (first :: rest) /\ monthNumber tx = y1 * 12 + m1)
    /\ (exists tx, In tx (first :: rest) /\ monthNumber tx = y2 * 12 + m2).
Proof.
  intro Hvalid.
  assert (Hfirst : validDate first) by now inversion Hvalid.
  destruct (valid_monthOf Hfirst) as [y0 [m0 [Hkey0 [Hnum0 [Hy0 Hm0]]]]].
  rewrite Hkey0.
  destruct (earliestOf_valid Hy0 Hm0 Hvalid)
    as [y1 [m1 [He [Hy1 [Hm1 [Hle1 [Hmin Hatt1]]]]]]].
  destruct (latestOf_valid Hy0 Hm0 Hvalid)
    as [y2 [m2 [Hl [Hy2 [Hm2 [Hle2 [Hmax Hatt2]]]]]]].
  exists y1, m1, y2, m2.
  split; [exact He|]. split; [exact Hl|]. split; [now split|]. split; [now split|].
  split; [|split].
  - intros tx Hin. split; [now apply Hmin | now apply Hmax].
  - destruct Hatt1 as [Heq | Hex]; [|exact Hex].
    exists first. split; [now left | lia].
  - destruct Hatt2 as [Heq | Hex]; [|exact Hex].
    exists first. split; [now left | lia].
Qed.

(** C7, as amended. For every recipient of salary-like payments,
    [totalPaid] is the sum of the absolute amounts of the recipient's
    payments rounded to cents, and [monthlyAverage] is that sum, unrounded,
    divided by [monthSpan] and then rounded to cents, where [monthSpan] is
    computed from [firstPayment] and [lastPayment], each the month key of
    one of the recipient's payments.  When the recipient's own payments
    carry valid dates of four-digit years, whatever the dates of the other
    transactions, these two are the keys of the earliest and of the latest
    month in which the recipient was paid, and [monthSpan] is
    [(latestYear - earliestYear) * 12 + (latestMonth - earliestMonth) + 1],
    the inclusive count of months, which is at least 1.  A recipient paid
    in January and in March of one year only has [monthSpan] 3. *)
Theorem salary_monthly_average
  (transactions : list Transaction) (r : SalaryAnalysis.t)
  (Hrow : In r (analyzeSalariedExpenses transactions)) :
  let payments := paymentsTo (SalaryAnalysis.recipient r) transactions in
  let span := monthsBetween (SalaryAnalysis.firstPayment r) (SalaryAnalysis.lastPayment r) in
  payments <> []
  /\ SalaryAnalysis.totalPaid r = round2 (paidTotal payments)
  /\ SalaryAnalysis.monthlyAverage r = round2 (JS.div (paidTotal payments) span)
  /\ (exists tx, In tx payments /\ SalaryAnalysis.firstPayment r = monthOf tx)
  /\ (exists tx, In tx payments /\ SalaryAnalysis.lastPayment r = monthOf tx)
  /\ ((forall tx, In tx payments -> validDate tx) ->
      exists y1 m1 y2 m2,
        SalaryAnalysis.firstPayment r = monthKey y1 m1
        /\ SalaryAnalysis.lastPayment r = monthKey y2 m2
        /\ (forall tx, In tx payments -> y1 * 12 + m1 <= monthNumber tx <= y2 * 12 + m2)
        /\ (exists tx, In tx payments /\ monthNumber tx = y1 * 12 + m1)
        /\ (exists tx, In tx payments /\ monthNumber tx = y2 * 12 + m2)
        /\ let monthSpan := (y2 - y1) * 12 + (m2 - m1) + 1 in
           1 <= monthSpan
           /\ span = JS.ofZ monthSpan
           /\ SalaryAnalysis.monthlyAverage r
              = round2 (JS.div (paidTotal payments) (JS.ofZ monthSpan)))
  /\ (forall y, 1000 <= y <= 9999 ->
        (forall tx, In tx payments ->
                    localDate (EffectiveDateTime tx) = Some (y, 0)
                    \/ localDate (EffectiveDateTime tx) = Some (y, 2)) ->
        (exists tx, In tx payments /\ localDate (EffectiveDateTime tx) = Some (y, 0)) ->
        (exists tx, In tx payments /\ localDate (EffectiveDateTime tx) = Some (y, 2)) ->
        SalaryAnalysis.firstPayment r = monthKey y 0
        /\ SalaryAnalysis.lastPayment r = monthKey y 2
        /\ span = JS.ofZ 3
        /\ SalaryAnalysis.monthlyAverage r
           = round2 (JS.div (paidTotal payments) (JS.ofZ 3))).
Proof.
  intros payments span.
  destruct (salary_row_payments _ _ Hrow) as [first [rest [Hp Hr]]].
  fold payments in Hp.
  assert (Hfirst : SalaryAnalysis.firstPayment r
                   = earliestOf (monthOf first) (first :: rest)) by (rewrite Hr; reflexivity).
  assert (Hlast : SalaryAnalysis.lastPayment r
                  = latestOf (monthOf first) (first :: rest)) by (rewrite Hr; reflexivity).
  assert (Htotal : SalaryAnalysis.totalPaid r = round2 (paidTotal payments))
    by (rewrite Hr, Hp; reflexivity).
  assert (Haverage : SalaryAnalysis.monthlyAverage r
                     = round2 (JS.div (paidTotal payments) span)).
  { unfold span. rewrite Hfirst, Hlast, Hr, Hp. reflexivity. }
  assert (Hdated : (forall tx, In tx payments -> validDate tx) ->
            exists y1 m1 y2 m2,
              SalaryAnalysis.firstPayment r = monthKey y1 m1
              /\ SalaryAnalysis.lastPayment r = monthKey y2 m2
              /\ (1000 <= y1 <= 9999 /\ 0 <= m1 <= 11)
              /\ (1000 <= y2 <= 9999 /\ 0 <= m2 <= 11)
              /\ (forall tx, In tx payments ->
                             y1 * 12 + m1 <= monthNumber tx <= y2 * 12 + m2)
              /\ (exists tx, In tx payments /\ monthNumber tx = y1 * 12 + m1)
              /\ (exists tx, In tx payments /\ monthNumber tx = y2 * 12 + m2)
              /\ span = JS.ofZ ((y2 - y1) * 12 + (m2 - m1) + 1)).
  { intro Hdates. rewrite Hp in *.
    destruct (dated_salary_row (proj2 (Forall_forall _ _) Hdates))
      as [y1 [m1 [y2 [m2 [He [Hl [[Hy1 Hm1] [[Hy2 Hm2] [Hrange [Hmin Hmax]]]]]]]]]].
    exists y1, m1, y2, m2. unfold span. rewrite Hfirst, Hlast, He, Hl.
    repeat (split; [assumption || reflexivity || (split; assumption)|]).
    now apply monthsBetween_monthKey. }
  split; [rewrite Hp; discriminate|].
  split; [exact Htotal|]. split; [exact Haverage|].
  split; [|split; [|split]].
  - rewrite Hfirst, Hp.
    destruct (earliestOf_member (monthOf first) (first :: rest)) as [H | H];
      [|exact H].
    exists first. split; [now left | exact H].
  - rewrite Hlast, Hp.
    destruct (latestOf_member (monthOf first) (first :: rest)) as [H | H];
      [|exact H].
    exists first. split; [now left | exact H].
  - intro Hdates.
    destruct (Hdated Hdates)
      as [y1 [m1 [y2 [m2 [He [Hl [[Hy1 Hm1] [[Hy2 Hm2] [Hrange [Hmin [Hmax Hspan]]]]]]]]]]].
    exists y1, m1, y2, m2.
    repeat (split; [assumption|]). cbv zeta.
    split; [|split; [exact Hspan | now rewrite <- Hspan]].
    destruct Hmin as [tx [Hin Hn]]. specialize (Hrange tx Hin). lia.
  - intros y Hy Honly [january [Hjan Hj]] [march [Hmar Hm]].
    assert (Hnumber : forall tx, In tx payments ->
                                 monthNumber tx = y * 12 \/ monthNumber tx = y * 12 + 2).
    { intros tx Hin. unfold monthNumber.
      destruct (Honly tx Hin) as [-> | ->]; [left | right]; lia. }
    assert (Hdates : forall tx, In tx payments -> validDate tx).
    { intros tx Hin. destruct (Honly tx Hin) as [H | H];
        [exists y, 0 | exists y, 2]; (split; [exact H | lia]). }
    destruct (Hdated Hdates)
      as [y1 [m1 [y2 [m2 [He [Hl [[Hy1 Hm1] [[Hy2 Hm2] [Hrange [Hmin [Hmax Hspan]]]]]]]]]]].
    assert (Hj' : monthNumber january = y * 12) by (unfold monthNumber; rewrite Hj; lia).
    assert (Hm' : monthNumber march = y * 12 + 2) by (unfold monthNumber; rewrite Hm; lia).
    pose proof (Hrange january Hjan) as Hlow.
    pose proof (Hrange march Hmar) as Hhigh.
    destruct Hmin as [tmin [Hin1 Hn1]]. destruct Hmax as [tmax [Hin2 Hn2]].
    pose proof (Hnumber tmin Hin1) as Hc1. pose proof (Hnumber tmax Hin2) as Hc2.
    assert (y1 = y /\ m1 = 0 /\ y2 = y /\ m2 = 2) as (-> & -> & -> & ->) by lia.
    replace ((y - y) * 12 + (2 - 0) + 1) with 3 in Hspan by lia.
    split; [exact He|]. split; [exact Hl|]. split; [exact Hspan|].
    now rewrite <- Hspan.
Qed.

End SalaryAverage.

(** The maintainer of the sample ledger [Sample.januaryAndMarch] was paid
    in January and in March of 2024 only: a span of 3 months. *)
Lemma salary_monthly_average_witness :
  exists r,
    In r (analyzeSalariedExpenses Sample.januaryAndMarch)
    /\ SalaryAnalysis.firstPayment r = monthKey 2024 0
    /\ SalaryAnalysis.lastPayment r = monthKey 2024 2
    /\ monthsBetween (SalaryAnalysis.firstPayment r) (SalaryAnalysis.lastPayment r)
       = JS.ofZ 3
    /\ SalaryAnalysis.monthlyAverage r
       = round2 (JS.div (paidTotal (paymentsTo (SalaryAnalysis.recipient r)
                                               Sample.januaryAndMarch))
                        (JS.ofZ 3)).
Proof.
  assert (E : exists r rest, analyzeSalariedExpenses Sample.januaryAndMarch = r :: rest
                             /\ SalaryAnalysis.recipient r = "Grace")
    by (vm_compute; eexists; eexists; repeat split).
  destruct E as [r [rest [E Hname]]].
  assert (Hrow : In r (analyzeSalariedExpenses Sample.januaryAndMarch))
    by (rewrite E; now left).
  exists r. split; [exact Hrow|].
  pose proof (salary_monthly_average Sample.januaryAndMarch r Hrow) as H.
  cbv zeta in H. destruct H as (_ & _ & _ & _ & _ & _ & H).
  rewrite Hname in H |- *. apply (H 2024); [lia | | |].
  - intros tx [<- | [<- | []]]; [now left | now right].
  - eexists. split; [left; reflexivity | reflexivity].
  - eexists. split; [right; left; reflexivity | reflexivity].
Defined.

(** On the sample ledger [Sample.undated] the month key is ["NaN-NaN"] and
    the span is [NaN], which is not at least 1.  On
    [Sample.fractionsOfACent] the recipient was paid 0.0087890625 over a
    span of 2 months: [totalPaid] is 0.01 and [monthlyAverage] is 0, which
    is not [totalPaid] over the span, 0.005, and not that quotient rounded
    to cents either, 0.01. *)
Lemma salary_average_is_not_total_paid_over_span :
  (exists r,
      In r (analyzeSalariedExpenses Sample.undated)
      /\ SalaryAnalysis.firstPayment r = "NaN-NaN"
      /\ monthsBetween (SalaryAnalysis.firstPayment r) (SalaryAnalysis.lastPayment r)
         = JS.NaN
      /\ JS.ge (monthsBetween (SalaryAnalysis.firstPayment r)
                              (SalaryAnalysis.lastPayment r))
               (JS.ofZ 1) = false)
  /\ (exists r,
         let span := monthsBetween (SalaryAnalysis.firstPayment r)
                                   (SalaryAnalysis.lastPayment r) in
         In r (analyzeSalariedExpenses Sample.fractionsOfACent)
         /\ span = JS.ofZ 2
         /\ SalaryAnalysis.totalPaid r = JS.div (JS.ofZ 1) (JS.ofZ 100)
         /\ SalaryAnalysis.monthlyAverage r = zero
         /\ round2 (JS.div (SalaryAnalysis.totalPaid r) span)
            = JS.div (JS.ofZ 1) (JS.ofZ 100)
         /\ SalaryAnalysis.monthlyAverage r <> JS.div (SalaryAnalysis.totalPaid r) span
         /\ SalaryAnalysis.monthlyAverage r
            <> round2 (JS.div (SalaryAnalysis.totalPaid r) span)).
Proof.
  split.
  - eexists. split; [left; reflexivity|].
    repeat split; vm_compute; reflexivity.
  - eexists. cbv zeta. split; [left; reflexivity|].
    repeat split; try (vm_compute; reflexivity); vm_compute; discriminate.
Qed.

(** * The months of runway *)

Section MonthsOfRunway.
Context {host : Host}.

Lemma sumOver_total (field : MonthlyData.t -> JS.number) (months : list MonthlyData.t) :
  sumOver field months = total (map field months).
Proof. unfold sumOver, total. apply fold_left_map. Qed.

(** [l.slice(- n)] splits [l]: what it leaves out comes first. *)
Lemma sliceFrom_split (A : Type) (n : Z) (l : list A) :
  exists older,
    l = older ++ sliceFrom (- n) l
    /\ (0 < n -> List.length (sliceFrom (- n) l) = Nat.min (Z.to_nat n) (List.length l))
    /\ (n = 0 -> older = [])
    /\ (n < 0 -> List.length older = Nat.min (Z.to_nat (- n)) (List.length l)).
Proof.
  unfold sliceFrom.
  set (i := relativeIndex (Z.of_nat (List.length l)) (- n)).
  exists (firstn i l). split; [symmetry; apply firstn_skipn|].
  rewrite length_skipn, length_firstn. subst i. unfold relativeIndex.
  split; [|split]; intro H.
  - replace (- n <? 0) with true by (symmetry; apply Z.ltb_lt; lia). lia.
  - subst n. change (- 0 <? 0) with false. cbv iota.
    replace (Z.to_nat (Z.min (- 0) (Z.of_nat (List.length l)))) with O by lia.
    reflexivity.
  - replace (- n <? 0) with false by (symmetry; apply Z.ltb_ge; lia). lia.
Qed.

(** C4, as amended. The averages of [calculateRunwayProjection] are taken
    over the trailing window of the monthly summary: its last
    [monthsToAverage] rows, all of them when there are fewer.  With
    [avgNet] the window's average income minus its average expenses and
    [balance] the sum of the net values of all rows, both before the final
    rounding, [monthsOfRunway] is +Infinity when [avgNet] is at least zero
    and the floor of [balance / |avgNet|] otherwise.  When moreover the
    balance is negative the value is not clamped: it is an integer not
    above zero whenever that quotient is a finite double, and [NaN] or
    [-Infinity] when it is not. *)
Theorem months_of_runway (transactions : list Transaction) (monthsToAverage : Z) :
  let rows := calculateMonthlyData transactions in
  let window := recentMonths transactions monthsToAverage in
  let size := JS.ofZ (Z.of_nat (List.length window)) in
  let balance := total (map MonthlyData.net rows) in
  let avgNet := JS.sub (JS.div (total (map MonthlyData.income window)) size)
                       (JS.div (total (map MonthlyData.expenses window)) size) in
  let quotient := JS.div balance (JS.Math.abs avgNet) in
  let months :=
    RunwayProjection.monthsOfRunway (calculateRunwayProjection transactions monthsToAverage) in
  (exists older,
      rows = older ++ window
      /\ (0 < monthsToAverage ->
          List.length window = Nat.min (Z.to_nat monthsToAverage) (List.length rows))
      /\ (monthsToAverage = 0 -> older = [])
      /\ (monthsToAverage < 0 ->
          List.length older = Nat.min (Z.to_nat (- monthsToAverage)) (List.length rows)))
  /\ (JS.ge avgNet zero = true -> months = JS.Infinity)
  /\ (JS.ge avgNet zero = false -> months = JS.Math.floor quotient)
  /\ (JS.ge avgNet zero = false -> JS.lt balance zero = true ->
      (isFiniteNumber quotient = true -> nonPositiveInteger months)
      /\ (isFiniteNumber quotient = false -> months = JS.NaN \/ months = JS.NegInfinity)).
Proof.
  intros rows window size balance avgNet quotient months.
  assert (Hbalance : currentBalance transactions = balance) by apply sumOver_total.
  assert (Hnet : averageMonthlyNet transactions monthsToAverage = avgNet).
  { unfold averageMonthlyNet, averageMonthlyIncome, averageMonthlyExpenses, averageOver.
    fold window. now rewrite !sumOver_total. }
  assert (Hmonths : months = if JS.ge avgNet zero then JS.Infinity
                             else JS.Math.floor quotient).
  { subst months quotient. cbn [calculateRunwayProjection RunwayProjection.monthsOfRunway].
    now rewrite Hbalance, Hnet. }
  split; [apply sliceFrom_split|]. rewrite Hmonths.
  split; [|split]; intro Hge; rewrite Hge; [reflexivity | reflexivity |].
  intro Hneg. apply floor_of_negative_quotient, Hneg.
Qed.

End MonthsOfRunway.

(** On the sample ledger [Sample.deficit] the balance is -200 and the
    average net -100: two months of runway below zero, not clamped. *)
Lemma months_of_runway_witness :
  let months :=
    RunwayProjection.monthsOfRunway
      (calculateRunwayProjection Sample.deficit defaultMonthsToAverage) in
  List.length (recentMonths Sample.deficit defaultMonthsToAverage) = 2%nat
  /\ months = JS.ofZ (-2) /\ nonPositiveInteger months.
Proof.
  pose proof (months_of_runway Sample.deficit defaultMonthsToAverage) as H.
  cbv zeta in H. destruct H as [[older [_ [Hwindow _]]] [_ [Hfloor Hinteger]]].
  split; [|split].
  - rewrite Hwindow by reflexivity. vm_compute. reflexivity.
  - rewrite Hfloor by (vm_compute; reflexivity). vm_compute. reflexivity.
  - apply Hinteger; vm_compute; reflexivity.
Defined.

(** On the sample ledger [Sample.hugeDebit] the balance and the average net
    are negative (both overflow to [-Infinity]) and [monthsOfRunway] is
    [NaN], no integer. *)
Lemma months_of_runway_overflow :
  let p := calculateRunwayProjection Sample.hugeDebit defaultMonthsToAverage in
  JS.lt (currentBalance Sample.hugeDebit) zero = true
  /\ JS.ge (averageMonthlyNet Sample.hugeDebit defaultMonthsToAverage) zero = false
  /\ RunwayProjection.monthsOfRunway p = JS.NaN
  /\ JS.isInteger (RunwayProjection.monthsOfRunway p) = false.
Proof. vm_compute. repeat split. Qed.

(** * Rounding to cents *)

Section Rounding.
Context {host : Host}.

(** ** The quantity behind every aggregate *)

Lemma income_source_amount (transactions : list Transaction) (r : SourceBreakdown.t) :
  In r (analyzeIncomeSources transactions) ->
  SourceBreakdown.amount r
  = round2 (amountTotal (creditsFrom (SourceBreakdown.source r) transactions)).
Proof.
  unfold analyzeIncomeSources. rewrite incomeStep_spec. intro Hr.
  destruct (breakdown_of_tallies counterparty AmountSingleColumn (liveCredits transactions))
    as [_ [_ [Hrow _]]].
  now destruct (Hrow r Hr).
Qed.

Lemma expense_amount (transactions : list Transaction) (r : ExpenseBreakdown.t) :
  In r (analyzeExpenses transactions) ->
  ExpenseBreakdown.amount r
  = round2 (paidTotal (debitsTo (ExpenseBreakdown.recipient r) transactions)).
Proof.
  unfold analyzeExpenses. rewrite expenseStep_spec. intro Hr.
  match type of Hr with
  | context [tabulate ?g0 ?ks0] =>
      destruct (rows_of_tabulate expenseRow ExpenseBreakdown.recipient
                  (fun a b => afterAmount (ExpenseBreakdown.amount a)
                                          (ExpenseBreakdown.amount b))
                  (fun k v => eq_refl) g0 ks0) as [_ Hrow]
  end.
  destruct (Hrow r Hr) as [_ Heq]. rewrite Heq. reflexivity.
Qed.

Lemma category_amount (rules : Transaction -> string)
  (step : smap Tally.t -> Transaction -> smap Tally.t)
  (transactions : list Transaction) (r : SourceBreakdown.t) :
  (forall m tx,
      step m tx
      = if isReversedOrReverse tx then m
        else if negb (Direction_eqb (CreditDebit tx) DEBIT) then m
        else tallyInto (rules tx) (JS.Math.abs (AmountSingleColumn tx)) m) ->
  In r (toBreakdown (fold_left step transactions [])) ->
  SourceBreakdown.amount r
  = round2 (paidTotal (debitsUnder rules (SourceBreakdown.source r) transactions)).
Proof.
  intros Hstep. rewrite (debit_tally_loop rules step transactions Hstep). intro Hr.
  destruct (breakdown_of_tallies rules (fun tx => JS.Math.abs (AmountSingleColumn tx))
              (liveDebits transactions)) as [_ [_ [Hrow _]]].
  now destruct (Hrow r Hr).
Qed.

Lemma contributor_amount (recurring : bool) (transactions : list Transaction)
  (r : SourceBreakdown.t) :
  In r (toBreakdown (fold_left (sideStep recurring) transactions [])) ->
  SourceBreakdown.amount r
  = round2 (amountTotal (bucket counterparty (SourceBreakdown.source r)
                                (sideContributions recurring transactions))).
Proof.
  rewrite sideStep_spec. intro Hr.
  destruct (breakdown_of_tallies counterparty AmountSingleColumn
              (sideContributions recurring transactions)) as [_ [_ [Hrow _]]].
  now destruct (Hrow r Hr).
Qed.

Lemma analyzeContributions_sides (transactions : list Transaction) :
  analyzeContributions transactions
  = {| ContributorAnalysis.recurring :=
         rollUp (toBreakdown (fold_left (sideStep true) transactions []));
       ContributorAnalysis.oneTime :=
         rollUp (toBreakdown (fold_left (sideStep false) transactions [])) |}.
Proof. unfold analyzeContributions. now rewrite contributionStep_sides. Qed.

Lemma monthly_contribution_amounts (transactions : list Transaction)
  (r : MonthlyContributions.t) :
  In r (analyzeMonthlyRecurringContributions transactions) ->
  let given := contributionsOfMonth (MonthlyContributions.month r) transactions in
  MonthlyContributions.recurring r
  = round2 (amountTotal (filter isRecurringContribution given))
  /\ MonthlyContributions.oneTime r
     = round2 (amountTotal (filter isOneTimeContribution given)).
Proof.
  unfold analyzeMonthlyRecurringContributions. rewrite recurringStep_spec. intro Hr.
  match type of Hr with
  | context [tabulate ?g0 ?ks0] =>
      destruct (rows_of_tabulate recurringRow MonthlyContributions.month
                  (fun a b => afterMonth (MonthlyContributions.month a)
                                         (MonthlyContributions.month b))
                  (fun k v => eq_refl) g0 ks0) as [_ Hrow]
  end.
  destruct (Hrow r Hr) as [_ Heq]. split; rewrite Heq; reflexivity.
Qed.

Lemma salary_amounts (transactions : list Transaction) (r : SalaryAnalysis.t) :
  In r (analyzeSalariedExpenses transactions) ->
  let paid := paidTotal (paymentsTo (SalaryAnalysis.recipient r) transactions) in
  SalaryAnalysis.totalPaid r = round2 paid
  /\ SalaryAnalysis.monthlyAverage r
     = round2 (JS.div paid (monthsBetween (SalaryAnalysis.firstPayment r)
                                          (SalaryAnalysis.lastPayment r))).
Proof.
  intro Hr. destruct (salary_row_payments _ _ Hr) as [first [rest [Hp Heq]]].
  cbv zeta. rewrite Hp. split; rewrite Heq; reflexivity.
Qed.

(** The amounts [getLargestSingleContributions] collects are those of the
    non-excluded credits, as they stand. *)
Lemma largest_amounts_pass_through (transactions : list Transaction) :
  Forall (fun c => exists tx, In tx (liveCredits transactions)
                              /\ SingleContribution.amount c = AmountSingleColumn tx)
         (fold_left largestStep transactions []).
Proof.
  rewrite largestStep_spec, creditContributions_liveCredits.
  apply Forall_forall. intros c Hc. apply in_map_iff in Hc.
  destruct Hc as [tx [<- Htx]]. now exists tx.
Qed.

(** C3, as amended. Every aggregate of every report is
    [Math.round(x * 100) / 100] of the quantity [x] accumulated for it, and
    for every report that quantity is named: the sums of a month, the
    balance and the averages of the runway projection, the sum of the
    credits of a source, of the payments to a recipient, of the debits of a
    category, of the contributions of a contributor or of a month, the
    total paid to a salaried recipient and its monthly average, the values
    of the salary share, and, in the full variant, the sums of the classes
    of income, by month as well, and of the other income.  The amounts
    listed by [getLargestSingleContributions] and by
    [getLargestOneTimeContributions] are the credits' own, unrounded.
    [Math.round] resolves a tie towards +Infinity, so that [k + 1/2] gives
    [k + 1] also for negative [k]: a negative quantity at a tie is rounded
    towards zero, not away from it. *)
Theorem aggregates_are_rounded_with_ties_upwards
  (transactions : list Transaction) (monthsToAverage limit : Z) :
  (forall r, In r (calculateMonthlyData transactions) ->
     let credits := creditTotal (monthTransactions (MonthlyData.month r) transactions) in
     let debits := debitTotal (monthTransactions (MonthlyData.month r) transactions) in
     MonthlyData.income r = round2 credits
     /\ MonthlyData.expenses r = round2 debits
     /\ MonthlyData.net r = round2 (JS.sub credits debits))
  /\ (let p := calculateRunwayProjection transactions monthsToAverage in
      let window := recentMonths transactions monthsToAverage in
      let size := JS.ofZ (Z.of_nat (List.length window)) in
      let avgIncome := JS.div (total (map MonthlyData.income window)) size in
      let avgExpenses := JS.div (total (map MonthlyData.expenses window)) size in
      RunwayProjection.currentBalance p
      = round2 (total (map MonthlyData.net (calculateMonthlyData transactions)))
      /\ RunwayProjection.averageMonthlyExpenses p = round2 avgExpenses
      /\ RunwayProjection.averageMonthlyIncome p = round2 avgIncome
      /\ RunwayProjection.averageMonthlyNet p = round2 (JS.sub avgIncome avgExpenses)
      /\ RunwayProjection.requiredMonthlyContribution p
         = round2 (if JS.gt avgExpenses avgIncome
                   then JS.sub avgExpenses avgIncome else zero))
  /\ (forall r, In r (analyzeIncomeSources transactions) ->
        SourceBreakdown.amount r
        = round2 (amountTotal (creditsFrom (SourceBreakdown.source r) transactions)))
  /\ (forall r, In r (analyzeExpenses transactions) ->
        ExpenseBreakdown.amount r
        = round2 (paidTotal (debitsTo (ExpenseBreakdown.recipient r) transactions)))
  /\ (forall r, In r (analyzeExpensesByCategory transactions) ->
        SourceBreakdown.amount r
        = round2 (paidTotal (debitsUnder expenseCategory (SourceBreakdown.source r)
                                         transactions)))
  /\ (forall r, In r (Full.analyzeExpensesByCategory transactions) ->
        SourceBreakdown.amount r
        = round2 (paidTotal (debitsUnder Full.expenseCategory (SourceBreakdown.source r)
                                         transactions)))
  /\ (let sideRounded (recurring : bool) (side : ContributorAnalysis.side) :=
        (forall r, In r (ContributorAnalysis.contributors side) ->
           SourceBreakdown.amount r
           = round2 (amountTotal (bucket counterparty (SourceBreakdown.source r)
                                         (sideContributions recurring transactions))))
        /\ ContributorAnalysis.amount side
           = round2 (total (map SourceBreakdown.amount
                                (ContributorAnalysis.contributors side))) in
      let sidesRounded (a : ContributorAnalysis.t) :=
        sideRounded true (ContributorAnalysis.recurring a)
        /\ sideRounded false (ContributorAnalysis.oneTime a) in
      sidesRounded (analyzeContributions transactions)
      /\ sidesRounded (Full.analyzeContributions transactions))
  /\ (forall r, In r (analyzeMonthlyRecurringContributions transactions) ->
        let given := contributionsOfMonth (MonthlyContributions.month r) transactions in
        MonthlyContributions.recurring r
        = round2 (amountTotal (filter isRecurringContribution given))
        /\ MonthlyContributions.oneTime r
           = round2 (amountTotal (filter isOneTimeContribution given)))
  /\ (forall r, In r (analyzeSalariedExpenses transactions) ->
        let paid := paidTotal (paymentsTo (SalaryAnalysis.recipient r) transactions) in
        SalaryAnalysis.totalPaid r = round2 paid
        /\ SalaryAnalysis.monthlyAverage r
           = round2 (JS.div paid (monthsBetween (SalaryAnalysis.firstPayment r)
                                                (SalaryAnalysis.lastPayment r))))
  /\ (let p := calculateSalaryPercentageOfIncome transactions in
      let months := sliceFrom (-6) (calculateMonthlyData transactions) in
      let contributions :=
        sliceFrom (-6) (analyzeMonthlyRecurringContributions transactions) in
      let salaried :=
        filter (fun s => 1 <? SalaryAnalysis.paymentCount s)
               (analyzeSalariedExpenses transactions) in
      SalaryPercentage.monthlySalaryExpenses p
      = round2 (total (map SalaryAnalysis.monthlyAverage salaried))
      /\ SalaryPercentage.avgMonthlyIncome p
         = round2 (JS.div (total (map MonthlyData.income months))
                          (JS.ofZ (Z.of_nat (List.length months))))
      /\ SalaryPercentage.avgMonthlyRecurringIncome p
         = round2 (JS.div (total (map MonthlyContributions.recurring contributions))
                          (JS.ofZ (Z.of_nat (List.length contributions)))))
  /\ ((forall r, In r (getTopContributors transactions limit) ->
                 In r (analyzeIncomeSources transactions))
      /\ (forall r, In r (getTopExpenses transactions limit) ->
                    In r (analyzeExpenses transactions)))
  /\ (let a := Full.categorizeIncome transactions in
      AmountCount.amount (IncomeSourcesAnalysis.githubSponsors a)
      = round2 (amountTotal (sponsorships transactions))
      /\ AmountCount.amount (IncomeSourcesAnalysis.ocRecurring a)
         = round2 (amountTotal (sideContributions true transactions))
      /\ AmountCount.amount (IncomeSourcesAnalysis.ocOneTime a)
         = round2 (amountTotal (sideContributions false transactions))
      /\ AmountCount.amount (IncomeSourcesAnalysis.other a)
         = round2 (amountTotal (otherIncome transactions))
      /\ IncomeSourcesAnalysis.total a = round2 (amountTotal (liveCredits transactions)))
  /\ (forall r, In r (Full.categorizeMonthlyIncome transactions) ->
        let credits := creditsOfMonth (MonthlyIncomeData.month r) transactions in
        let topRounded (recurring : bool) (top : list NamedAmount.t) :=
          forall e, In e top ->
            NamedAmount.amount e
            = round2 (amountTotal (bucket counterparty (NamedAmount.name e)
                                          (filter (contributedInMonth recurring) credits))) in
        MonthlyIncomeData.githubSponsors r
        = round2 (amountTotal (filter sponsoredInMonth credits))
        /\ MonthlyIncomeData.ocRecurring r
           = round2 (amountTotal (filter (contributedInMonth true) credits))
        /\ MonthlyIncomeData.ocOneTime r
           = round2 (amountTotal (filter (contributedInMonth false) credits))
        /\ MonthlyIncomeData.other r = round2 (amountTotal (filter otherInMonth credits))
        /\ topRounded true (MonthlyIncomeData.topRecurring r)
        /\ topRounded false (MonthlyIncomeData.topOneTime r))
  /\ (forall r, In r (Full.analyzeOtherIncome transactions) ->
        exists tx,
          In tx (otherIncome transactions)
          /\ OtherIncomeBreakdown.source r = Full.sourceOrEmpty tx
          /\ OtherIncomeBreakdown.amount r
             = round2 (amountTotal (bucket otherKeyOf (otherKeyOf tx)
                                           (otherIncome transactions))))
  /\ (let passedThrough (c : SingleContribution.t) :=
        exists tx, In tx (liveCredits transactions)
                   /\ SingleContribution.amount c = AmountSingleColumn tx in
      Forall passedThrough (getLargestSingleContributions transactions limit)
      /\ Forall passedThrough (getLargestOneTimeContributions transactions limit))
  /\ (forall k, small (2 * k + 1) ->
        JS.Math.round (JS.dyadic (2 * k + 1) (-1)) = JS.integral (k <? 0) (k + 1)).
Proof.
  split.
  { intros r Hr credits debits. subst credits debits.
    rewrite (summary_row_of _ _ Hr). simpl. auto. }
  split.
  { cbv zeta. cbn [calculateRunwayProjection RunwayProjection.currentBalance
                   RunwayProjection.averageMonthlyExpenses
                   RunwayProjection.averageMonthlyIncome
                   RunwayProjection.averageMonthlyNet
                   RunwayProjection.requiredMonthlyContribution].
    unfold currentBalance, averageMonthlyNet, averageMonthlyIncome,
      averageMonthlyExpenses, averageOver.
    rewrite !sumOver_total. repeat split. }
  split; [intros r Hr; now apply income_source_amount|].
  split; [intros r Hr; now apply expense_amount|].
  split; [intros r Hr; apply (category_amount expenseCategory categoryStep);
          [reflexivity | exact Hr]|].
  split; [intros r Hr; apply (category_amount Full.expenseCategory Full.categoryStep);
          [reflexivity | exact Hr]|].
  split.
  { cbv zeta.
    change (Full.analyzeContributions transactions)
      with (analyzeContributions transactions).
    rewrite analyzeContributions_sides.
    cbn [ContributorAnalysis.recurring ContributorAnalysis.oneTime
         ContributorAnalysis.contributors ContributorAnalysis.amount rollUp].
    unfold sumAmount, total. rewrite <- !fold_left_map.
    repeat split; intros r Hr; now apply contributor_amount. }
  split; [intros r Hr; now apply monthly_contribution_amounts|].
  split; [intros r Hr; now apply salary_amounts|].
  split.
  { cbv zeta. cbn [calculateSalaryPercentageOfIncome SalaryPercentage.monthlySalaryExpenses
                   SalaryPercentage.avgMonthlyIncome
                   SalaryPercentage.avgMonthlyRecurringIncome].
    unfold total. rewrite <- !fold_left_map. repeat split. }
  split.
  { split; intros r Hr; unfold getTopContributors, getTopExpenses, sliceTo in Hr;
      now apply In_firstn in Hr. }
  split.
  { cbv zeta. rewrite categorizeIncome_spec. repeat split. }
  split.
  { intros r Hr credits topRounded.
    rewrite (monthly_income_row_of _ _ Hr).
    cbn [Full.monthlyIncomeRow MonthlyIncomeData.month MonthlyIncomeData.githubSponsors
         MonthlyIncomeData.ocRecurring MonthlyIncomeData.ocOneTime MonthlyIncomeData.other
         MonthlyIncomeData.topRecurring MonthlyIncomeData.topOneTime monthIncomeOf
         MonthIncome.githubSponsors MonthIncome.ocRecurring MonthIncome.ocOneTime
         MonthIncome.other MonthIncome.recurringContribs MonthIncome.oneTimeContribs].
    fold credits. repeat (split; [reflexivity|]).
    subst topRounded. cbv beta.
    split; intros e He;
      [destruct (top_contributors_of (filter (contributedInMonth true) credits) 3)
         as [_ [_ [Hamount _]]]
      |destruct (top_contributors_of (filter (contributedInMonth false) credits) 3)
         as [_ [_ [Hamount _]]]];
      now destruct (Hamount e He). }
  split.
  { intros r Hr. destruct (other_row_of _ _ Hr) as [first [rest [Hin [Hb Heq]]]].
    exists first. split; [exact Hin|]. rewrite Hb, Heq. now split. }
  split.
  { cbv zeta.
    assert (Hall : forall n,
               Forall (fun c => exists tx, In tx (liveCredits transactions)
                                  /\ SingleContribution.amount c = AmountSingleColumn tx)
                      (getLargestSingleContributions transactions n)).
    { intro n. unfold getLargestSingleContributions, sliceTo, byAmountDescending.
      apply Forall_forall. intros c Hc. apply In_firstn, sort_In in Hc.
      revert c Hc. apply Forall_forall, largest_amounts_pass_through. }
    split; [apply Hall|].
    unfold getLargestOneTimeContributions, sliceTo.
    apply Forall_forall. intros c Hc. apply In_firstn, filter_In in Hc.
    destruct Hc as [Hc _]. revert c Hc. apply Forall_forall, Hall. }
  intros k Hk. now apply Double.round_half_integer.
Qed.

End Rounding.

(** On the sample ledger [Sample.negativeTie] the one month has a net of
    -0.125 and the report holds [Math.round(-12.5) / 100], which is -0.12. *)
Lemma aggregates_are_rounded_with_ties_upwards_witness :
  exists r,
    In r (calculateMonthlyData Sample.negativeTie)
    /\ MonthlyData.net r = round2 (JS.dyadic (-1) (-3))
    /\ JS.Math.round (JS.dyadic (-25) (-1)) = JS.ofZ (-12)
    /\ MonthlyData.net r = JS.div (JS.ofZ (-12)) (JS.ofZ 100).
Proof.
  destruct (aggregates_are_rounded_with_ties_upwards Sample.negativeTie 6 10)
    as (Hmonths & Hrest).
  assert (Hties : forall k, small (2 * k + 1) ->
            JS.Math.round (JS.dyadic (2 * k + 1) (-1)) = JS.integral (k <? 0) (k + 1))
    by (repeat (destruct Hrest as [_ Hrest]); exact Hrest).
  assert (E : exists r rest, calculateMonthlyData Sample.negativeTie = r :: rest
                             /\ MonthlyData.month r = "2024-02")
    by (vm_compute; eexists; eexists; repeat split).
  destruct E as [r [rest [E Hmonth]]].
  assert (Hrow : In r (calculateMonthlyData Sample.negativeTie)) by (rewrite E; now left).
  exists r. split; [exact Hrow|].
  destruct (Hmonths r Hrow) as [_ [_ Hnet]]. rewrite Hmonth in Hnet.
  assert (Htie : JS.Math.round (JS.dyadic (-25) (-1)) = JS.ofZ (-12)).
  { apply (Hties (-13)). unfold small. simpl. lia. }
  split; [rewrite Hnet; vm_compute; reflexivity|].
  split; [exact Htie|].
  rewrite Hnet. vm_compute. reflexivity.
Defined.

(** On the sample ledger [Sample.negativeTie] the month's net is -0.125;
    the report holds -0.12, rounding to cents with ties away from zero
    gives -0.13. *)
Lemma negative_tie_is_not_rounded_away_from_zero :
  exists r,
    In r (calculateMonthlyData Sample.negativeTie)
    /\ JS.sub (creditTotal (monthTransactions (MonthlyData.month r) Sample.negativeTie))
              (debitTotal (monthTransactions (MonthlyData.month r) Sample.negativeTie))
       = JS.dyadic (-1) (-3)
    /\ MonthlyData.net r = JS.div (JS.ofZ (-12)) (JS.ofZ 100)
    /\ roundCentsAwayFromZero (JS.dyadic (-1) (-3)) = JS.div (JS.ofZ (-13)) (JS.ofZ 100)
    /\ MonthlyData.net r <> roundCentsAwayFromZero (JS.dyadic (-1) (-3)).
Proof.
  eexists. split; [left; reflexivity|].
  repeat split; try (vm_compute; reflexivity).
  vm_compute. discriminate.
Qed.

(** A credit of 0.125 is listed with the amount 0.125, which is not a
    number of cents. *)
Lemma largest_contribution_amount_is_not_rounded :
  map SingleContribution.amount (getLargestSingleContributions Sample.splitCents 10)
  = [JS.dyadic 1 (-3)]
  /\ round2 (JS.dyadic 1 (-3)) <> JS.dyadic 1 (-3).
Proof. split; [vm_compute; reflexivity | vm_compute; discriminate]. Qed.
